(** * GNAP authorization server: REST adapter (pkg/restapi/gnap) and wire
    models (spi/gnap)

    A shallow embedding of [operations.go] and [models.go].  Go values are
    modelled as Rocq data, Go [error] as its message, handlers as state
    transformers over the parts of the process they read and write (the
    response writer, the logger, the transient store, the provider cache
    and its lock).  Collaborators that live in other packages (the auth
    handler, the interaction handler, the OIDC client, the HTTP-signature
    verifier) are fields of the records that hold them in the Go code. *)

From Stdlib Require Import String Ascii List ZArith NArith Bool Lia.
From stdpp Require Import base option gmap strings.
Import ListNotations.

Local Open Scope string_scope.
Local Open Scope list_scope.

Set Implicit Arguments.

(** Go's [(T, error)] results; an [error] is carried as its message. *)
Inductive result (A : Type) : Type :=
| Ok (a : A)
| Err (e : string).
Arguments Ok {A} a.
Arguments Err {A} e.

Definition is_ok {A} (r : result A) : bool :=
  match r with Ok _ => true | Err _ => false end.

Definition rbind {A B} (r : result A) (k : A -> result B) : result B :=
  match r with Ok a => k a | Err e => Err e end.

(** ** The functions of Go's [strings] package used by the handlers *)
Module GoStrings.

Definition space : ascii := " "%char.

(** [strings.TrimLeft(s, " ")] *)
Fixpoint TrimLeft (s : string) : string :=
  match s with
  | String c r => if Ascii.eqb c space then TrimLeft r else s
  | EmptyString => EmptyString
  end.

(** [strings.TrimRight(s, " ")]: a space is dropped when everything after
    it has been dropped. *)
Fixpoint TrimRight (s : string) : string :=
  match s with
  | EmptyString => EmptyString
  | String c r =>
      match TrimRight r with
      | EmptyString => if Ascii.eqb c space then EmptyString else String c EmptyString
      | r' => String c r'
      end
  end.

(** [strings.Trim(s, " ")] *)
Definition Trim (s : string) : string := TrimRight (TrimLeft s).

(** [strings.Split(s, " ")]: the substrings between the separators; a
    string with n separators has n+1 components, the empty string has one. *)
Fixpoint Split (s : string) : list string :=
  match s with
  | EmptyString => [EmptyString]
  | String c r =>
      if Ascii.eqb c space then EmptyString :: Split r
      else match Split r with
           | h :: t => String c h :: t
           | [] => [String c EmptyString]
           end
  end.

(** [strings.Join(l, " ")] *)
Fixpoint Join (l : list string) : string :=
  match l with
  | [] => EmptyString
  | [x] => x
  | x :: t => x +:+ String space (Join t)
  end.

End GoStrings.

(** ** JSON values and the decoding rules of [encoding/json]

    [json.Unmarshal] first scans the bytes (a syntax error is returned at
    once) and then stores the value into the destination, directed by the
    destination's Go type.  A JSON value of the wrong kind for its
    destination is an [UnmarshalTypeError]: the value is skipped, the
    error is recorded if it is the first one, and decoding goes on.  An
    error of an [UnmarshalJSON] method stops decoding and is returned as
    it is.  [Unmarshal] returns the error that stopped decoding, else the
    recorded type error, else nil.

    A value of type [json] is what the scanner has read: the value the
    bytes denote.  White space between tokens and the way a string was
    escaped are not kept. *)
Module JSON.

#[local] Unset Elimination Schemes.
Inductive json : Type :=
| JNull
| JBool (b : bool)
| JNumber (literal : string)
| JString (s : string)
| JArray (elems : list json)
| JObject (members : list (string * json)).
#[local] Set Elimination Schemes.

Definition kind (j : json) : string :=
  match j with
  | JNull => "null" | JBool _ => "bool" | JNumber _ => "number"
  | JString _ => "string" | JArray _ => "array" | JObject _ => "object"
  end.

(** [d.errorContext]: the struct whose field is being filled and the JSON
    names of the fields from the root down to it. *)
Record errorContext := { ec_Struct : string; FieldStack : list string }.

Definition noContext : errorContext := {| ec_Struct := ""; FieldStack := [] |}.

(** [strings.Join(stack, ".")] *)
Fixpoint joinDots (l : list string) : string :=
  match l with
  | [] => EmptyString
  | [x] => x
  | x :: t => x +:+ "." +:+ joinDots t
  end.

(** The [Error] method of [UnmarshalTypeError], after [addErrorContext] has filled in
    [Struct] and [Field]. *)
Definition UnmarshalTypeError (ctx : errorContext) (value goType : string) : string :=
  if andb (String.eqb (ec_Struct ctx) "") (String.eqb (joinDots (FieldStack ctx)) "")
  then "json: cannot unmarshal " +:+ value +:+ " into Go value of type " +:+ goType
  else "json: cannot unmarshal " +:+ value +:+ " into Go struct field "
       +:+ ec_Struct ctx +:+ "." +:+ joinDots (FieldStack ctx) +:+ " of type " +:+ goType.

(** What storing a value gives: [Err] is the error that stopped decoding;
    otherwise the destination as it is now, with the type error recorded
    on the way ([d.savedError]), if any. *)
Definition stored (T : Type) : Type := result (T * option string).

Definition sret {T} (v : T) : stored T := Ok (v, None).

(** [d.saveError]: the destination stays as it is. *)
Definition saveError {T} (cur : T) (e : string) : stored T := Ok (cur, Some e).

(** The first recorded error is the one kept. *)
Definition sbind {A B} (r : stored A) (k : A -> stored B) : stored B :=
  match r with
  | Err e => Err e
  | Ok (a, saved) =>
      match k a with
      | Err e => Err e
      | Ok (b, saved') =>
          Ok (b, match saved with Some e => Some e | None => saved' end)
      end
  end.

(** A decoder stores a JSON value into an existing Go value. *)
Definition Decoder (T : Type) : Type := errorContext -> json -> T -> stored T.

(** What [Unmarshal] returns once the bytes have been scanned. *)
Definition decode {T} (d : Decoder T) (j : json) (v : T) : result T :=
  match d noContext j v with
  | Err e => Err e
  | Ok (_, Some e) => Err e
  | Ok (v', None) => Ok v'
  end.

(** Two outcomes that differ at most in the text of the recorded type
    error, and decoders whose context enters nothing else. *)
Definition agree {T} (r1 r2 : stored T) : Prop :=
  match r1, r2 with
  | Err e1, Err e2 => e1 = e2
  | Ok (v1, saved1), Ok (v2, saved2) => v1 = v2 /\ (saved1 = None <-> saved2 = None)
  | _, _ => False
  end.

Definition ctx_free {T} (d : Decoder T) : Prop :=
  forall c1 c2 j v, agree (d c1 j v) (d c2 j v).

(** A Go slice: [None] is the nil slice. *)
Definition slice (T : Type) : Type := option (list T).

Definition len {T} (s : slice T) : nat :=
  match s with None => 0 | Some l => length l end.

Definition elems {T} (s : slice T) : list T :=
  match s with None => [] | Some l => l end.

Definition dec_string (goType : string) : Decoder string :=
  fun ctx j cur =>
    match j with
    | JNull => sret cur
    | JString s => sret s
    | _ => saveError cur (UnmarshalTypeError ctx (kind j) goType)
    end.

Definition dec_bool : Decoder bool :=
  fun ctx j cur =>
    match j with
    | JNull => sret cur
    | JBool b => sret b
    | _ => saveError cur (UnmarshalTypeError ctx (kind j) "bool")
    end.

(** [json.RawMessage] keeps the bytes of the value as they stand, [null]
    included.  The model keeps the value those bytes denote: two messages
    that differ in white space or in the escaping of a string are one
    value here. *)
Definition dec_raw : Decoder (option json) :=
  fun _ j _ => sret (Some j).

(** A pointer field: [null] sets it to nil; otherwise the pointee is
    allocated when the pointer is nil, and the value is stored into it. *)
Definition dec_ptr {T} (zero : T) (d : Decoder T) : Decoder (option T) :=
  fun ctx j cur =>
    match j with
    | JNull => sret None
    | _ => sbind (d ctx j (default zero cur)) (fun v => sret (Some v))
    end.

(** Element i of the array is stored into element i of the slice when the
    slice already has one, into a zero value otherwise. *)
Fixpoint dec_elems {T} (zero : T) (d : Decoder T) (ctx : errorContext)
         (js : list json) (cur : list T) : stored (list T) :=
  match js with
  | [] => sret []
  | j :: js' =>
      sbind (d ctx j (hd zero cur)) (fun v =>
      sbind (dec_elems zero d ctx js' (tl cur)) (fun vs => sret (v :: vs)))
  end.

Definition dec_slice {T} (goType : string) (zero : T) (d : Decoder T)
  : Decoder (slice T) :=
  fun ctx j cur =>
    match j with
    | JNull => sret None
    | JArray js => sbind (dec_elems zero d ctx js (elems cur)) (fun l => sret (Some l))
    | _ => saveError cur (UnmarshalTypeError ctx (kind j) goType)
    end.

(** The context in which the field with the JSON name [name] of the
    struct [structName] is filled. *)
Definition enter (structName : string) (ctx : errorContext) (name : string)
  : errorContext :=
  {| ec_Struct := structName; FieldStack := FieldStack ctx ++ [name] |}.

(** A struct: the members of the object are taken in order;
    [field at k v t] stores [v] into the field of [t] that the key [k]
    names, in the context [at name] of that field, and leaves [t] as it
    is when no field does. *)
Definition dec_struct {T} (goType structName : string)
           (field : (string -> errorContext) -> string -> json -> T -> stored T)
  : Decoder T :=
  fun ctx j cur =>
    match j with
    | JNull => sret cur
    | JObject ms =>
        fold_left (fun acc kv => sbind acc (field (enter structName ctx) (fst kv) (snd kv)))
                  ms (sret cur)
    | _ => saveError cur (UnmarshalTypeError ctx (kind j) goType)
    end.

(** The folding of names: ASCII letters to lower case; the Kelvin sign
    (U+212A, the bytes E2 84 AA) to [k] and the long s (U+017F, the bytes
    C5 BF) to [s], the two runes outside ASCII whose simple case folding
    is an ASCII letter. *)
Definition foldByte (c : ascii) : ascii :=
  let n := nat_of_ascii c in
  if andb (Nat.leb 65 n) (Nat.leb n 90) then ascii_of_nat (n + 32) else c.

Definition isByte (n : nat) (c : ascii) : bool := Nat.eqb (nat_of_ascii c) n.

Fixpoint foldName (s : string) : string :=
  match s with
  | EmptyString => EmptyString
  | String c r =>
      match r with
      | String c2 r2 =>
          if andb (isByte 197 c) (isByte 191 c2) then String "s" (foldName r2)
          else match r2 with
               | String c3 r3 =>
                   if andb (isByte 226 c) (andb (isByte 132 c2) (isByte 170 c3))
                   then String "k" (foldName r3)
                   else String (foldByte c) (foldName r)
               | EmptyString => String (foldByte c) (foldName r)
               end
      | EmptyString => String (foldByte c) EmptyString
      end
  end.

(** A key names a field when it equals the field's JSON name under that
    folding. *)
Definition names (key fieldName : string) : bool :=
  String.eqb (foldName key) (foldName fieldName).

End JSON.

(** ** The wire models of [spi/gnap/models.go] *)
Module Models.
Import JSON.

(** [jwk.JWK] comes from another module; a key is kept as the JSON it was
    read from ([None] for the zero value). *)
Definition JWK : Type := option json.

Record ClientKey := { Proof : string; JWK_ : JWK }.

Record RequestClient := {
  rc_IsReference : bool;
  rc_Ref : string;
  Key : option ClientKey
}.

Record TokenAccess := {
  IsReference : bool;
  Ref : string;
  Type_ : string;
  Raw : option json
}.

Definition AccessFlag : Type := string.
Definition Bearer : AccessFlag := "bearer".
Definition Durable : AccessFlag := "durable".
Definition Split : AccessFlag := "split".

Record TokenRequest := {
  Access : slice TokenAccess;
  Label : string;
  Flags : slice AccessFlag
}.

Record RequestFinish := { Method : string; URI : string; Nonce : string }.

Record RequestInteract := { Start : slice string; Finish : RequestFinish }.

Record AuthRequest := {
  AccessToken : slice (option TokenRequest);
  Client : option RequestClient;
  Interact : option RequestInteract
}.

Record AccessToken_ := {
  at_Value : string;
  at_Label : string;
  at_Manage : string;
  at_Access : slice TokenAccess;
  at_Expires : Z;
  at_Key : string;
  at_Flags : slice AccessFlag
}.

Record ResponseContinue := {
  rc_URI : string;
  rc_AccessToken : AccessToken_;
  rc_Wait : Z
}.

Record ResponseInteract := { Redirect : string; ri_Finish : string }.

Record SubjectID := { ID : string; sid_Format : string }.
Record SubjectAssertion := { sa_Value : string; sa_Format : string }.
Record Subject := { SubIDs : slice SubjectID; Assertions : slice SubjectAssertion }.

Record AuthResponse := {
  Continue : ResponseContinue;
  ar_AccessToken : slice AccessToken_;
  ar_Interact : ResponseInteract;
  InstanceID : string;
  Subject_ : Subject
}.

Record ContinueRequest := { InteractRef : string }.

Record ErrorResponse := { Error : string; Description : string }.

Record IntrospectRequest := {
  ir_AccessToken : string;
  ir_Proof : string;
  ir_Access : slice TokenAccess;
  ResourceServer : option RequestClient
}.

Record IntrospectResponse := {
  Active : bool;
  is_Access : slice TokenAccess;
  is_Key : option ClientKey;
  is_Flags : slice AccessFlag;
  SubjectData : list (string * string)
}.

(** Zero values. *)
Definition zeroClientKey : ClientKey := {| Proof := ""; JWK_ := None |}.
Definition zeroRequestClient : RequestClient :=
  {| rc_IsReference := false; rc_Ref := ""; Key := None |}.
Definition zeroTokenAccess : TokenAccess :=
  {| IsReference := false; Ref := ""; Type_ := ""; Raw := None |}.
Definition zeroTokenRequest : TokenRequest :=
  {| Access := None; Label := ""; Flags := None |}.
Definition zeroRequestFinish : RequestFinish :=
  {| Method := ""; URI := ""; Nonce := "" |}.
Definition zeroRequestInteract : RequestInteract :=
  {| Start := None; Finish := zeroRequestFinish |}.
Definition zeroAuthRequest : AuthRequest :=
  {| AccessToken := None; Client := None; Interact := None |}.
Definition zeroContinueRequest : ContinueRequest := {| InteractRef := "" |}.
Definition zeroIntrospectRequest : IntrospectRequest :=
  {| ir_AccessToken := ""; ir_Proof := ""; ir_Access := None; ResourceServer := None |}.

(** *** Decoding, as [encoding/json] derives it from the field types and
    tags above.  No type of the file has an [UnmarshalJSON] of its own. *)
Section Decoding.

(** [jwk.JWK.UnmarshalJSON]: [Some e] when it rejects the value. *)
Variable jwkUnmarshalJSON : json -> option string.

Definition dec_JWK : Decoder JWK :=
  fun _ j _ => match jwkUnmarshalJSON j with
               | Some e => Err e
               | None => sret (Some j)
               end.

Definition dec_ClientKey : Decoder ClientKey :=
  dec_struct "gnap.ClientKey" "ClientKey" (fun at_ k v c =>
    if names k "proof" then
      sbind (dec_string "string" (at_ "proof") v (Proof c)) (fun x =>
        sret {| Proof := x; JWK_ := JWK_ c |})
    else if names k "jwk" then
      sbind (dec_JWK (at_ "jwk") v (JWK_ c)) (fun x =>
        sret {| Proof := Proof c; JWK_ := x |})
    else sret c).

Definition dec_RequestClient : Decoder RequestClient :=
  dec_struct "gnap.RequestClient" "RequestClient" (fun at_ k v c =>
    if names k "IsReference" then
      sbind (dec_bool (at_ "IsReference") v (rc_IsReference c)) (fun x =>
        sret {| rc_IsReference := x; rc_Ref := rc_Ref c; Key := Key c |})
    else if names k "Ref" then
      sbind (dec_string "string" (at_ "Ref") v (rc_Ref c)) (fun x =>
        sret {| rc_IsReference := rc_IsReference c; rc_Ref := x; Key := Key c |})
    else if names k "key" then
      sbind (dec_ptr zeroClientKey dec_ClientKey (at_ "key") v (Key c)) (fun x =>
        sret {| rc_IsReference := rc_IsReference c; rc_Ref := rc_Ref c; Key := x |})
    else sret c).

Definition dec_TokenAccess : Decoder TokenAccess :=
  dec_struct "gnap.TokenAccess" "TokenAccess" (fun at_ k v a =>
    if names k "IsReference" then
      sbind (dec_bool (at_ "IsReference") v (IsReference a)) (fun x =>
        sret {| IsReference := x; Ref := Ref a; Type_ := Type_ a; Raw := Raw a |})
    else if names k "Ref" then
      sbind (dec_string "string" (at_ "Ref") v (Ref a)) (fun x =>
        sret {| IsReference := IsReference a; Ref := x; Type_ := Type_ a; Raw := Raw a |})
    else if names k "type" then
      sbind (dec_string "string" (at_ "type") v (Type_ a)) (fun x =>
        sret {| IsReference := IsReference a; Ref := Ref a; Type_ := x; Raw := Raw a |})
    else if names k "Raw" then
      sbind (dec_raw (at_ "Raw") v (Raw a)) (fun x =>
        sret {| IsReference := IsReference a; Ref := Ref a; Type_ := Type_ a; Raw := x |})
    else sret a).

Definition dec_TokenRequest : Decoder TokenRequest :=
  dec_struct "gnap.TokenRequest" "TokenRequest" (fun at_ k v t =>
    if names k "access" then
      sbind (dec_slice "[]gnap.TokenAccess" zeroTokenAccess dec_TokenAccess (at_ "access") v (Access t))
        (fun x => sret {| Access := x; Label := Label t; Flags := Flags t |})
    else if names k "label" then
      sbind (dec_string "string" (at_ "label") v (Label t)) (fun x =>
        sret {| Access := Access t; Label := x; Flags := Flags t |})
    else if names k "flags" then
      sbind (dec_slice "[]gnap.AccessFlag" "" (dec_string "gnap.AccessFlag") (at_ "flags") v (Flags t))
        (fun x => sret {| Access := Access t; Label := Label t; Flags := x |})
    else sret t).

Definition dec_RequestFinish : Decoder RequestFinish :=
  dec_struct "gnap.RequestFinish" "RequestFinish" (fun at_ k v f =>
    if names k "method" then
      sbind (dec_string "string" (at_ "method") v (Method f)) (fun x =>
        sret {| Method := x; URI := URI f; Nonce := Nonce f |})
    else if names k "uri" then
      sbind (dec_string "string" (at_ "uri") v (URI f)) (fun x =>
        sret {| Method := Method f; URI := x; Nonce := Nonce f |})
    else if names k "nonce" then
      sbind (dec_string "string" (at_ "nonce") v (Nonce f)) (fun x =>
        sret {| Method := Method f; URI := URI f; Nonce := x |})
    else sret f).

Definition dec_RequestInteract : Decoder RequestInteract :=
  dec_struct "gnap.RequestInteract" "RequestInteract" (fun at_ k v i =>
    if names k "start" then
      sbind (dec_slice "[]string" "" (dec_string "string") (at_ "start") v (Start i)) (fun x =>
        sret {| Start := x; Finish := Finish i |})
    else if names k "finish" then
      sbind (dec_RequestFinish (at_ "finish") v (Finish i)) (fun x =>
        sret {| Start := Start i; Finish := x |})
    else sret i).

(** [AccessToken []*TokenRequest `json:"access_token,omitempty"`]: the
    field is a slice, so the decoder takes a JSON array for it. *)
Definition dec_AuthRequest : Decoder AuthRequest :=
  dec_struct "gnap.AuthRequest" "AuthRequest" (fun at_ k v r =>
    if names k "access_token" then
      sbind (dec_slice "[]*gnap.TokenRequest" None
               (dec_ptr zeroTokenRequest dec_TokenRequest) (at_ "access_token") v (AccessToken r))
        (fun x => sret {| AccessToken := x; Client := Client r; Interact := Interact r |})
    else if names k "client" then
      sbind (dec_ptr zeroRequestClient dec_RequestClient (at_ "client") v (Client r)) (fun x =>
        sret {| AccessToken := AccessToken r; Client := x; Interact := Interact r |})
    else if names k "interact" then
      sbind (dec_ptr zeroRequestInteract dec_RequestInteract (at_ "interact") v (Interact r)) (fun x =>
        sret {| AccessToken := AccessToken r; Client := Client r; Interact := x |})
    else sret r).

Definition dec_ContinueRequest : Decoder ContinueRequest :=
  dec_struct "gnap.ContinueRequest" "ContinueRequest" (fun at_ k v r =>
    if names k "interact_ref" then
      sbind (dec_string "string" (at_ "interact_ref") v (InteractRef r)) (fun x =>
        sret {| InteractRef := x |})
    else sret r).

Definition dec_IntrospectRequest : Decoder IntrospectRequest :=
  dec_struct "gnap.IntrospectRequest" "IntrospectRequest" (fun at_ k v r =>
    if names k "access_token" then
      sbind (dec_string "string" (at_ "access_token") v (ir_AccessToken r)) (fun x =>
        sret {| ir_AccessToken := x; ir_Proof := ir_Proof r;
              ir_Access := ir_Access r; ResourceServer := ResourceServer r |})
    else if names k "proof" then
      sbind (dec_string "string" (at_ "proof") v (ir_Proof r)) (fun x =>
        sret {| ir_AccessToken := ir_AccessToken r; ir_Proof := x;
              ir_Access := ir_Access r; ResourceServer := ResourceServer r |})
    else if names k "access" then
      sbind (dec_slice "[]gnap.TokenAccess" zeroTokenAccess dec_TokenAccess (at_ "access") v (ir_Access r))
        (fun x =>
        sret {| ir_AccessToken := ir_AccessToken r; ir_Proof := ir_Proof r;
              ir_Access := x; ResourceServer := ResourceServer r |})
    else if names k "resource_server" then
      sbind (dec_ptr zeroRequestClient dec_RequestClient (at_ "resource_server") v (ResourceServer r)) (fun x =>
        sret {| ir_AccessToken := ir_AccessToken r; ir_Proof := ir_Proof r;
              ir_Access := ir_Access r; ResourceServer := x |})
    else sret r).

End Decoding.

(** *** Encoding of the [access_token] member of an [AuthRequest]

    An encoder gives the value that the bytes written by [json.Marshal]
    denote.  For a raw message that is the value of the message: the
    encoder compacts its bytes and escapes some characters, which changes
    the bytes and not the value. *)

Definition enc_slice {T} (enc : T -> json) (s : slice T) : json :=
  match s with
  | None => JNull
  | Some l => JArray (map enc l)
  end.

Definition enc_TokenAccess (a : TokenAccess) : json :=
  JObject [("IsReference", JBool (IsReference a));
           ("Ref", JString (Ref a));
           ("type", JString (Type_ a));
           ("Raw", default JNull (Raw a))].

(** [label] and [flags] are [omitempty]. *)
Definition enc_TokenRequest (t : TokenRequest) : json :=
  JObject ([("access", enc_slice enc_TokenAccess (Access t))]
           ++ (if String.eqb (Label t) "" then [] else [("label", JString (Label t))])
           ++ (if Nat.eqb (len (Flags t)) 0 then []
               else [("flags", enc_slice JString (Flags t))])).

Definition enc_TokenRequestPtr (t : option TokenRequest) : json :=
  match t with None => JNull | Some t => enc_TokenRequest t end.

(** The [access_token] member that [json.Marshal] writes for an
    [AuthRequest]: none when the slice is empty ([omitempty]). *)
Definition enc_access_token (r : AuthRequest) : option json :=
  if Nat.eqb (len (AccessToken r)) 0 then None
  else Some (enc_slice enc_TokenRequestPtr (AccessToken r)).

End Models.

(** ** The retry helper of [github.com/cenkalti/backoff]

    [initOIDCProvider] hands its network call to [backoff.RetryNotify] with
    the policy [WithMaxRetries(NewConstantBackOff(time.Second), o.timeout)].
    The library is a dependency; its import path carries no major version
    suffix, so the release is one before v4.  Its pieces used here:
    a policy answers each [NextBackOff] with a delay or with [Stop]; the
    constant policy always answers its interval; the [WithMaxRetries]
    wrapper counts its answers and says [Stop] when the count has reached
    a positive maximum,
<<
      if b.maxTries > 0 {
        if b.maxTries <= b.numTries { return Stop }
        b.numTries++
      }
      return b.delegate.NextBackOff()
>>
    so a maximum of zero sets no limit. *)
Module Backoff.

(** A delay in nanoseconds, as [time.Duration]. *)
Definition Duration : Type := Z.
Definition Second : Duration := 1000000000%Z.

(** The [BackOff] interface; [None] is [backoff.Stop]. *)
Class BackOff (B : Type) : Type := {
  NextBackOff : B -> option Duration * B;
  Reset : B -> B
}.

Record ConstantBackOff := { Interval : Duration }.

Definition NewConstantBackOff (d : Duration) : ConstantBackOff :=
  {| Interval := d |}.

#[export] Instance ConstantBackOff_BackOff : BackOff ConstantBackOff := {
  NextBackOff b := (Some (Interval b), b);
  Reset b := b
}.

Record backOffTries (D : Type) := {
  delegate : D;
  maxTries : N;
  numTries : N
}.

Definition WithMaxRetries {D} (b : D) (max : N) : backOffTries D :=
  {| delegate := b; maxTries := max; numTries := 0 |}.

#[export] Instance backOffTries_BackOff {D} `{BackOff D} : BackOff (backOffTries D) := {
  NextBackOff b :=
    if (0 <? maxTries b)%N then
      if (maxTries b <=? numTries b)%N then (None, b)
      else
        let (d, del) := NextBackOff (delegate b) in
        (d, {| delegate := del; maxTries := maxTries b; numTries := (numTries b + 1)%N |})
    else
      let (d, del) := NextBackOff (delegate b) in
      (d, {| delegate := del; maxTries := maxTries b; numTries := numTries b |});
  Reset b :=
    {| delegate := Reset (delegate b); maxTries := maxTries b; numTries := 0 |}
}.

Section Retry.
Context {St B : Type} `{BackOff B}.

Variable operation : St -> option string * St.
Variable notify : string -> Duration -> St -> St.
Variable sleep : Duration -> St -> St.

(** The loop of [RetryNotify]: run the operation; return on success;
    otherwise ask the policy, return the error on [Stop], else notify,
    wait for the delay and go round again.  [fuel] bounds the number of
    rounds the model follows; [None] means the loop was still running
    when the fuel ran out. *)
Fixpoint retry_loop (fuel : nat) (b : B) (s : St) : option (option string * St) :=
  match fuel with
  | O => None
  | S fuel' =>
      let (err, s1) := operation s in
      match err with
      | None => Some (None, s1)
      | Some e =>
          let (next, b') := NextBackOff b in
          match next with
          | None => Some (Some e, s1)
          | Some d => retry_loop fuel' b' (sleep d (notify e d s1))
          end
      end
  end.

Definition RetryNotify (fuel : nat) (b : B) (s : St) : option (option string * St) :=
  retry_loop fuel (Reset b) s.

End Retry.

End Backoff.

(** ** The REST operations of [pkg/restapi/gnap/operations.go] *)
Module Operations.
Import JSON Models Backoff.

Definition gnapBasePath : string := "/gnap".
Definition AuthRequestPath : string := gnapBasePath +:+ "/auth".
Definition AuthContinuePath : string := gnapBasePath +:+ "/continue".
Definition AuthIntrospectPath : string := gnapBasePath +:+ "/introspect".
Definition InteractPath : string := gnapBasePath +:+ "/interact".
Definition authProvidersPath : string := "/oidc/providers".
Definition oidcLoginPath : string := "/oidc/login".
Definition oidcCallbackPath : string := "/oidc/callback".

Definition errInvalidRequest : string := "invalid_request".
Definition errRequestDenied : string := "request_denied".

Definition providerQueryParam : string := "provider".
Definition txnQueryParam : string := "txnID".
Definition transientStoreName : string := "gnap_transient".
Definition interactRefQueryParam : string := "interact_ref".
Definition responseHashQueryParam : string := "hash".

Definition ScopeOpenID : string := "openid".

Definition MethodGet : string := "GET".
Definition MethodPost : string := "POST".
Definition StatusOK : nat := 200.
Definition StatusFound : nat := 302.
Definition StatusBadRequest : nat := 400.
Definition StatusUnauthorized : nat := 401.
Definition StatusForbidden : nat := 403.
Definition StatusInternalServerError : nat := 500.
Definition StatusBadGateway : nat := 502.

(** *** HTTP requests *)

(** A request body as [ioutil.ReadAll] finds it. *)
Inductive ReadCloser : Type :=
| Readable (bytes : string)
| Failing (err : string).

Record Request := {
  req_Method : string;
  RequestURL : string;
  Header : list (string * string);
  Query : list (string * string);
  Body : ReadCloser
}.

Definition ReadAll (b : ReadCloser) : result string :=
  match b with
  | Readable bytes => Ok bytes
  | Failing e => Err e
  end.

(** [req.Body = ioutil.NopCloser(bytes.NewReader(bodyBytes))] *)
Definition withBody (req : Request) (bytes : string) : Request :=
  {| req_Method := req_Method req; RequestURL := RequestURL req;
     Header := Header req; Query := Query req; Body := Readable bytes |}.

(** [Header.Get] and [URL.Query().Get]: the first value of the key, the
    empty string when there is none. *)
Fixpoint Get (kvs : list (string * string)) (key : string) : string :=
  match kvs with
  | [] => ""
  | (k, v) :: rest => if String.eqb k key then v else Get rest key
  end.

(** *** Proof verifiers: the two implementations of [api.Verifier] that
    this package constructs. *)
Inductive Verifier : Type :=
| httpsig_NewVerifier (req : Request)
| skipVerify.

(** *** Values written to a response *)

Record authProvider := {
  ap_ID : string;
  ap_Name : string;
  SignUpIconURL : string;
  SignInIconURL : string;
  Order : Z
}.

(** What [json.NewEncoder(rw).Encode] is given. *)
Inductive Value : Type :=
| VErrorResponse (e : ErrorResponse)
| VAuthResponse (r : AuthResponse)
| VIntrospectResponse (r : IntrospectResponse)
| VAuthProviders (ps : list authProvider).

Inductive Written : Type :=
| WJSON (v : Value)                              (* the JSON encoding of v *)
| WText (msg : string)                           (* raw bytes *)
| WRedirect (target : string)                    (* the note of http.Redirect: a link to the target *)
| WTemplate (file : string) (redirectURI : string). (* the rendered template *)

(** An [http.ResponseWriter]: the header map, the status line once it has
    been written, and the body so far. *)
Record ResponseWriter := {
  header : list (string * string);
  status : option nat;
  body : list Written
}.

Definition NewRecorder : ResponseWriter :=
  {| header := []; status := None; body := [] |}.

Definition Header_Set (k v : string) (w : ResponseWriter) : ResponseWriter :=
  {| header := (k, v) :: List.filter (fun kv => negb (String.eqb (fst kv) k)) (header w);
     status := status w; body := body w |}.

(** The first [WriteHeader] fixes the status; later ones change nothing. *)
Definition WriteHeader (code : nat) (w : ResponseWriter) : ResponseWriter :=
  match status w with
  | Some _ => w
  | None => {| header := header w; status := Some code; body := body w |}
  end.

(** [Write] sends the status 200 first when none has been written. *)
Definition Write (x : Written) (w : ResponseWriter) : ResponseWriter :=
  let w' := WriteHeader StatusOK w in
  {| header := header w'; status := status w'; body := body w' ++ [x] |}.

(** Whether the header map has the key. *)
Definition hasKey (k : string) (h : list (string * string)) : bool :=
  existsb (fun kv => String.eqb (fst kv) k) h.

(** [hexEscapeNonASCII] of [net/http]: a byte outside ASCII is written as
    a percent sign and its two hexadecimal digits, in lower case. *)
Definition hexDigit (n : nat) : ascii :=
  nth n (list_ascii_of_string "0123456789abcdef") "0"%char.

Fixpoint hexEscapeNonASCII (s : string) : string :=
  match s with
  | EmptyString => EmptyString
  | String c r =>
      let n := nat_of_ascii c in
      if Nat.leb 128 n
      then String "%" (String (hexDigit (n / 16))
                         (String (hexDigit (n mod 16)) (hexEscapeNonASCII r)))
      else String c (hexEscapeNonASCII r)
  end.

(** *** The provider cache lock and what is observed of a handler's run *)

Record RWMutex := { readers : nat; writer : bool }.

Definition unlocked : RWMutex := {| readers := 0; writer := false |}.

Inductive Event : Type :=
| EvRLock
| EvRUnlock
| EvLock
| EvUnlock
| EvCacheRead (providerID : string)
| EvCacheWrite (providerID : string)
| EvNewProvider (url : string)           (* the network call oidc.NewProvider *)
| EvSleep (d : Backoff.Duration).        (* the wait between two attempts *)

(** The state of the lock after an event. *)
Definition lock_step (m : RWMutex) (e : Event) : RWMutex :=
  match e with
  | EvRLock => {| readers := S (readers m); writer := writer m |}
  | EvRUnlock => {| readers := pred (readers m); writer := writer m |}
  | EvLock => {| readers := readers m; writer := true |}
  | EvUnlock => {| readers := readers m; writer := false |}
  | _ => m
  end.

Definition lock_after (evs : list Event) (m : RWMutex) : RWMutex :=
  fold_left lock_step evs m.

(** *** Collaborators *)

Record ProviderConfig := {
  pc_Name : string;
  pc_SignUpIconURL : string;
  pc_SignInIconURL : string;
  pc_Order : Z;
  URL : string;
  ClientID : string;
  ClientSecret : string;
  Scopes : list string;
  SkipIssuerCheck : bool
}.

Record OAuthToken := { id_token : option string }.  (* Extra("id_token").(string) *)
Record IDToken := { Claims_Sub : result string }.   (* Claims(&oidcClaims{}) *)

(** The [oidcProvider] interface. *)
Record oidcProvider := {
  AuthCodeURL : list string -> string -> string -> string;
    (* OAuth2Config(scopes...).AuthCodeURL(state, AccessTypeOnline,
       SetAuthURLParam("provider", id)) *)
  Exchange : string -> result OAuthToken;   (* OAuth2Config().Exchange(ctx, code) *)
  VerifyIDToken : string -> result IDToken  (* Verify(ctx, rawIDToken) *)
}.

Record ConsentResult := { cr_SubjectData : list (string * string) }.

(** The [storage.Store] interface, as far as the handlers call it. *)
Class Store (S : Type) : Type := {
  store_Put : S -> string -> string -> result S;
  store_Get : S -> string -> result string
}.

(** An in-memory store. *)
Definition ErrDataNotFound : string := "data not found".

#[export] Instance MemStore : Store (gmap string string) := {
  store_Put s k v := Ok (<[k := v]> s);
  store_Get s k := match s !! k with Some v => Ok v | None => Err ErrDataNotFound end
}.

Section Handlers.

(** The state behind the auth handler and the interaction handler (their
    stores), the discovery result [*oidc.Provider] and [*tls.Config]
    belong to other packages. *)
Variable AuthSt : Type.
Variable oidc_Provider : Type.
Variable tls_Config : Type.
Context {Sto : Type} `{Store Sto}.

Record AuthHandler := {
  HandleAccessRequest :
    AuthRequest -> Verifier -> string -> AuthSt -> result AuthResponse * AuthSt;
  HandleContinueRequest :
    ContinueRequest -> string -> Verifier -> AuthSt -> result AuthResponse * AuthSt;
  HandleIntrospection :
    IntrospectRequest -> Verifier -> AuthSt -> result IntrospectResponse * AuthSt
}.

Record InteractionHandler := {
  CompleteInteraction :
    string -> ConsentResult -> AuthSt ->
    result (string * string * RequestInteract) * AuthSt
}.

Record oidcProviderImpl := {
  name : string;
  clientID : string;
  clientSecret : string;
  callback : string;
  skipIssuerCheck : bool;
  op : option oidc_Provider;
  httpClient : option tls_Config
}.

(** Functions of the standard library and of other packages that the
    handlers call. *)
Record Env := {
  lib_Sprintf : string -> list string -> string;         (* fmt.Sprintf *)
  lib_json_scan : string -> result json;                 (* the scanner of encoding/json *)
  lib_json_Marshal : json -> result string;              (* the encoder of encoding/json *)
  lib_jwkUnmarshalJSON : json -> option string;          (* jwk.JWK.UnmarshalJSON, its error *)
  lib_url_with_query : string -> list (string * string) -> result string;
    (* url.Parse(raw), then Query().Add of each pair, RawQuery = Encode(), String() *)
  lib_http_Redirect_target : Request -> string -> string;
    (* the first step of http.Redirect: a target without scheme and host is
       made absolute against the directory of the request path and its path
       is cleaned, the query kept; any other target is left as it is *)
  lib_template_ParseFiles : string -> option string;     (* its error *)
  lib_template_Execute : string -> string -> option string; (* its error *)
  lib_Duration_String : Backoff.Duration -> string;      (* time.Duration.String *)
  lib_httpsig_Verify : Request -> option ClientKey -> option string;
    (* the Verify method of the httpsig verifier, its error *)
  lib_oidcProviderImpl_methods : oidcProviderImpl -> oidcProvider
    (* the methods of oidcProviderImpl, defined next to the type *)
}.

Variable env : Env.

Local Abbreviation Sprintf := (lib_Sprintf env).
Local Abbreviation json_scan := (lib_json_scan env).
Local Abbreviation json_Marshal := (lib_json_Marshal env).
Local Abbreviation jwkUnmarshalJSON := (lib_jwkUnmarshalJSON env).
Local Abbreviation url_with_query := (lib_url_with_query env).
Local Abbreviation http_Redirect_target := (lib_http_Redirect_target env).
Local Abbreviation template_ParseFiles := (lib_template_ParseFiles env).
Local Abbreviation template_Execute := (lib_template_Execute env).
Local Abbreviation Duration_String := (lib_Duration_String env).
Local Abbreviation httpsig_Verify := (lib_httpsig_Verify env).
Local Abbreviation oidcProviderImpl_methods := (lib_oidcProviderImpl_methods env).

(** [http.Redirect(w, r, url, code)]: the target is rewritten; [Location]
    is set to it, escaped; a [Content-Type] is set for GET and HEAD when
    the header has none; the status is written; and for GET, when the
    header had no [Content-Type], the note with the link is written. *)
Definition http_Redirect (r : Request) (url : string) (code : nat) (w : ResponseWriter)
  : ResponseWriter :=
  let target := http_Redirect_target r url in
  let hadCT := hasKey "Content-Type" (header w) in
  let w1 := Header_Set "Location" (hexEscapeNonASCII target) w in
  let w2 := if andb (negb hadCT)
                    (orb (String.eqb (req_Method r) "GET") (String.eqb (req_Method r) "HEAD"))
            then Header_Set "Content-Type" "text/html; charset=utf-8" w1
            else w1 in
  let w3 := WriteHeader code w2 in
  if andb (negb hadCT) (String.eqb (req_Method r) "GET")
  then Write (WRedirect target) w3
  else w3.

(** The immutable fields of [Operation]. *)
Record Operation := {
  authHandler : AuthHandler;
  interactionHandler : InteractionHandler;
  uiEndpoint : string;
  closePopupHTML : string;
  authProviders : list authProvider;
  oidcProvidersConfig : gmap string ProviderConfig;
  tlsConfig : option tls_Config;
  callbackURL : string;
  timeout : N
}.

(** What a handler reads and writes while it serves a request: its
    response writer, the logger, the state behind the auth handler,
    the mutable fields of [Operation] ([transientStore],
    [cachedOIDCProviders], [cachedOIDCProvLock]), and the environment
    (the answers of the network to [oidc.NewProvider], the values of
    [uuid.New], both indexed by the number of calls made so far). *)
Record World := {
  w : ResponseWriter;
  logs : list string;
  auth : AuthSt;
  transientStore : Sto;
  cachedOIDCProviders : gmap string oidcProvider;
  cachedOIDCProvLock : RWMutex;
  events : list Event;
  oidc_NewProvider : nat -> string -> result oidc_Provider;
  netCalls : nat;
  uuid_New : nat -> string;
  uuidCalls : nat
}.

Definition set_w (f : ResponseWriter -> ResponseWriter) (s : World) : World :=
  {| w := f (w s); logs := logs s; auth := auth s; transientStore := transientStore s;
     cachedOIDCProviders := cachedOIDCProviders s;
     cachedOIDCProvLock := cachedOIDCProvLock s; events := events s;
     oidc_NewProvider := oidc_NewProvider s; netCalls := netCalls s;
     uuid_New := uuid_New s; uuidCalls := uuidCalls s |}.

Definition set_logs (f : list string -> list string) (s : World) : World :=
  {| w := w s; logs := f (logs s); auth := auth s; transientStore := transientStore s;
     cachedOIDCProviders := cachedOIDCProviders s;
     cachedOIDCProvLock := cachedOIDCProvLock s; events := events s;
     oidc_NewProvider := oidc_NewProvider s; netCalls := netCalls s;
     uuid_New := uuid_New s; uuidCalls := uuidCalls s |}.

Definition set_auth (a : AuthSt) (s : World) : World :=
  {| w := w s; logs := logs s; auth := a; transientStore := transientStore s;
     cachedOIDCProviders := cachedOIDCProviders s;
     cachedOIDCProvLock := cachedOIDCProvLock s; events := events s;
     oidc_NewProvider := oidc_NewProvider s; netCalls := netCalls s;
     uuid_New := uuid_New s; uuidCalls := uuidCalls s |}.

Definition set_transientStore (st : Sto) (s : World) : World :=
  {| w := w s; logs := logs s; auth := auth s; transientStore := st;
     cachedOIDCProviders := cachedOIDCProviders s;
     cachedOIDCProvLock := cachedOIDCProvLock s; events := events s;
     oidc_NewProvider := oidc_NewProvider s; netCalls := netCalls s;
     uuid_New := uuid_New s; uuidCalls := uuidCalls s |}.

Definition set_cache (c : gmap string oidcProvider) (s : World) : World :=
  {| w := w s; logs := logs s; auth := auth s; transientStore := transientStore s;
     cachedOIDCProviders := c;
     cachedOIDCProvLock := cachedOIDCProvLock s; events := events s;
     oidc_NewProvider := oidc_NewProvider s; netCalls := netCalls s;
     uuid_New := uuid_New s; uuidCalls := uuidCalls s |}.

(** An event happens: it is recorded and the lock follows it. *)
Definition emit (e : Event) (s : World) : World :=
  {| w := w s; logs := logs s; auth := auth s; transientStore := transientStore s;
     cachedOIDCProviders := cachedOIDCProviders s;
     cachedOIDCProvLock := lock_step (cachedOIDCProvLock s) e;
     events := events s ++ [e];
     oidc_NewProvider := oidc_NewProvider s; netCalls := netCalls s;
     uuid_New := uuid_New s; uuidCalls := uuidCalls s |}.

Definition set_netCalls (n : nat) (s : World) : World :=
  {| w := w s; logs := logs s; auth := auth s; transientStore := transientStore s;
     cachedOIDCProviders := cachedOIDCProviders s;
     cachedOIDCProvLock := cachedOIDCProvLock s; events := events s;
     oidc_NewProvider := oidc_NewProvider s; netCalls := n;
     uuid_New := uuid_New s; uuidCalls := uuidCalls s |}.

Definition set_uuidCalls (n : nat) (s : World) : World :=
  {| w := w s; logs := logs s; auth := auth s; transientStore := transientStore s;
     cachedOIDCProviders := cachedOIDCProviders s;
     cachedOIDCProvLock := cachedOIDCProvLock s; events := events s;
     oidc_NewProvider := oidc_NewProvider s; netCalls := netCalls s;
     uuid_New := uuid_New s; uuidCalls := n |}.

(** Handlers are state transformers that may fail to return: [None]
    stands for a run that is still going when the fuel of a loop is
    spent, or that is blocked on the lock. *)
Definition M (A : Type) : Type := World -> option (A * World).

Definition ret {A} (a : A) : M A := fun s => Some (a, s).

Definition bind {A B} (m : M A) (k : A -> M B) : M B :=
  fun s => match m s with
           | Some (a, s') => k a s'
           | None => None
           end.

Definition modify (f : World -> World) : M unit := fun s => Some (tt, f s).
Definition gets {A} (f : World -> A) : M A := fun s => Some (f s, s).


Notation "x <- m ;; k" := (bind m (fun x => k))
  (at level 100, m at next level, right associativity).
Notation "m ;;; k" := (bind m (fun _ => k))
  (at level 100, right associativity).

(** Logger calls. *)
Definition Errorf (fmt : string) (args : list string) : M unit :=
  modify (set_logs (fun l => l ++ [Sprintf fmt args])).

Definition Debugf := Errorf.

(** [writeResponse] *)
Definition writeResponse (v : Value) : M unit :=
  modify (set_w (Header_Set "Content-Type" "application/json")) ;;;
  modify (set_w (Write (WJSON v))).

(** [writeErrorResponse]: the formatted message is logged and sent as
    the body, after the status. *)
Definition writeErrorResponse (code : nat) (msg : string) (args : list string) : M unit :=
  let msg' := Sprintf msg args in
  Errorf msg' [] ;;;
  modify (set_w (WriteHeader code)) ;;;
  modify (set_w (Write (WText msg'))).

Definition denied : Value :=
  VErrorResponse {| Error := errRequestDenied; Description := "" |}.
Definition invalid : Value :=
  VErrorResponse {| Error := errInvalidRequest; Description := "" |}.

(** [json.Unmarshal(bodyBytes, v)] for a zero [v]. *)
Definition Unmarshal {T} (d : Decoder T) (zero : T) (bytes : string) : result T :=
  rbind (json_scan bytes) (fun j => decode d j zero).

(** Calls into the auth handler and the interaction handler. *)
Definition call {A} (f : AuthSt -> result A * AuthSt) : M (result A) :=
  fun s => let (r, a) := f (auth s) in Some (r, set_auth a s).


(** *** Verifiers *)

(** [skipVerify.Verify] returns nil; the other verifier checks the HTTP
    signature of the request it was made from. *)
Definition Verify (v : Verifier) (key : option ClientKey) : option string :=
  match v with
  | skipVerify => None
  | httpsig_NewVerifier req => httpsig_Verify req key
  end.

(** *** The GNAP endpoints *)

Definition authRequestHandler (o : Operation) (req : Request) : M unit :=
  match ReadAll (Body req) with
  | Err e =>
      Errorf "error reading request body: %s" [e] ;;;
      modify (set_w (WriteHeader StatusInternalServerError)) ;;;
      writeResponse denied
  | Ok bodyBytes =>
      let req := withBody req bodyBytes in
      match Unmarshal (dec_AuthRequest jwkUnmarshalJSON) zeroAuthRequest bodyBytes with
      | Err e =>
          Errorf "failed to parse gnap auth request: %s" [e] ;;;
          modify (set_w (WriteHeader StatusBadRequest)) ;;;
          writeResponse invalid
      | Ok authRequest =>
          let v := httpsig_NewVerifier req in
          r <- call (HandleAccessRequest (authHandler o) authRequest v "") ;;
          match r with
          | Err e =>
              Errorf "access policy failed to handle access request: %s" [e] ;;;
              modify (set_w (WriteHeader StatusUnauthorized)) ;;;
              writeResponse denied
          | Ok resp => writeResponse (VAuthResponse resp)
          end
      end
  end.

Definition interactHandler (o : Operation) (req : Request) : M unit :=
  let txnID := Get (Query req) txnQueryParam in
  match url_with_query (uiEndpoint o +:+ "/sign-up") [(txnQueryParam, txnID)] with
  | Err _ =>
      writeErrorResponse StatusInternalServerError "failed to construct redirect url" []
  | Ok redirURL => modify (set_w (http_Redirect req redirURL StatusFound))
  end.

Definition authProvidersHandler (o : Operation) (_ : Request) : M unit :=
  writeResponse (VAuthProviders (authProviders o)).

(** The components of the [Authorization] header and the check made on
    them. *)
Definition tokHeader (req : Request) : list string :=
  GoStrings.Split (GoStrings.Trim (Get (Header req) "Authorization")).

Definition badTokHeader (th : list string) : bool :=
  orb (Nat.ltb (length th) 2) (negb (String.eqb (nth 0 th "") "GNAP")).

Definition authContinueHandler (o : Operation) (req : Request) : M unit :=
  let tokHeader := tokHeader req in
  if badTokHeader tokHeader then
    Errorf "GNAP continuation endpoint requires GNAP token" [] ;;;
    modify (set_w (WriteHeader StatusUnauthorized)) ;;;
    writeResponse denied
  else
    let token := nth 1 tokHeader "" in
    match ReadAll (Body req) with
    | Err e =>
        Errorf "error reading request body: %s" [e] ;;;
        modify (set_w (WriteHeader StatusInternalServerError)) ;;;
        writeResponse denied
    | Ok bodyBytes =>
        let req := withBody req bodyBytes in
        match Unmarshal dec_ContinueRequest zeroContinueRequest bodyBytes with
        | Err e =>
            Errorf "failed to parse gnap continue request: %s" [e] ;;;
            modify (set_w (WriteHeader StatusBadRequest)) ;;;
            writeResponse invalid
        | Ok continueRequest =>
            let v := httpsig_NewVerifier req in
            r <- call (HandleContinueRequest (authHandler o) continueRequest token v) ;;
            match r with
            | Err e =>
                Errorf "access policy failed to handle continue request: %s" [e] ;;;
                modify (set_w (WriteHeader StatusUnauthorized)) ;;;
                writeResponse denied
            | Ok resp => writeResponse (VAuthResponse resp)
            end
        end
    end.

(** [InternalIntrospectHandler]: the introspecter handed to the server's
    own Go code. *)
Definition InternalIntrospectHandler (o : Operation)
  : IntrospectRequest -> AuthSt -> result IntrospectResponse * AuthSt :=
  fun req => HandleIntrospection (authHandler o) req skipVerify.

Definition introspectHandler (o : Operation) (req : Request) : M unit :=
  match ReadAll (Body req) with
  | Err e =>
      Errorf "error reading request body: %s" [e] ;;;
      modify (set_w (WriteHeader StatusInternalServerError)) ;;;
      writeResponse denied
  | Ok bodyBytes =>
      let req := withBody req bodyBytes in
      match Unmarshal (dec_IntrospectRequest jwkUnmarshalJSON)
              zeroIntrospectRequest bodyBytes with
      | Err e =>
          Errorf "failed to parse gnap introspection request: %s" [e] ;;;
          modify (set_w (WriteHeader StatusBadRequest)) ;;;
          writeResponse invalid
      | Ok introspectRequest =>
          let v := httpsig_NewVerifier req in
          r <- call (HandleIntrospection (authHandler o) introspectRequest v) ;;
          match r with
          | Err e =>
              Errorf "failed to handle gnap introspection request: %s" [e] ;;;
              modify (set_w (WriteHeader StatusUnauthorized)) ;;;
              writeResponse denied
          | Ok resp => writeResponse (VIntrospectResponse resp)
          end
      end
  end.

(** *** The provider cache *)

(** The lock operations of one goroutine: a lock that cannot be taken
    blocks. *)
Definition RLock : M unit :=
  fun s => if writer (cachedOIDCProvLock s) then None else Some (tt, emit EvRLock s).
Definition RUnlock : M unit :=
  fun s => match readers (cachedOIDCProvLock s) with
           | O => None
           | S _ => Some (tt, emit EvRUnlock s)
           end.
Definition Lock : M unit :=
  fun s => if orb (writer (cachedOIDCProvLock s))
                  (negb (Nat.eqb (readers (cachedOIDCProvLock s)) 0))
           then None else Some (tt, emit EvLock s).
Definition Unlock : M unit :=
  fun s => if writer (cachedOIDCProvLock s) then Some (tt, emit EvUnlock s) else None.

(** One attempt of the closure given to [RetryNotify]: the network call
    [oidc.NewProvider], whose result is kept in [idp].  The context and
    the HTTP client the call is given (issuer check, TLS configuration)
    are part of how the network answers. *)
Definition newProviderAttempt (config : ProviderConfig)
           (st : World * option oidc_Provider)
  : option string * (World * option oidc_Provider) :=
  let s1 := emit (EvNewProvider (URL config)) (fst st) in
  let r := oidc_NewProvider s1 (netCalls s1) (URL config) in
  let s2 := set_netCalls (S (netCalls s1)) s1 in
  match r with
  | Ok idp => (None, (s2, Some idp))
  | Err e => (Some e, (s2, None))
  end.

(** The notify function: a [logger.Warnf] line. *)
Definition notifyRetry (providerID : string) (retryErr : string)
           (t : Backoff.Duration) (st : World * option oidc_Provider)
  : World * option oidc_Provider :=
  (set_logs (fun l => l ++ [Sprintf
     "failed to connect to the [%s] OIDC provider, will sleep for %s before trying again : %s"
     [providerID; Duration_String t; retryErr]]) (fst st), snd st).

Definition timerWait (d : Backoff.Duration) (st : World * option oidc_Provider)
  : World * option oidc_Provider :=
  (emit (EvSleep d) (fst st), snd st).

Definition initOIDCProvider (fuel : nat) (o : Operation) (providerID : string)
           (config : ProviderConfig) : M (result oidcProvider) :=
  fun s =>
    match Backoff.RetryNotify (newProviderAttempt config) (notifyRetry providerID)
            timerWait fuel
            (Backoff.WithMaxRetries (Backoff.NewConstantBackOff Backoff.Second) (timeout o))
            (s, None) with
    | None => None
    | Some (Some e, (s', _)) =>
        Some (Err (Sprintf "failed to init oidc provider [%s] with url [%s]: %w"
                     [providerID; URL config; e]), s')
    | Some (None, (s', idp)) =>
        Some (Ok (oidcProviderImpl_methods
                    {| name := providerID;
                       clientID := ClientID config;
                       clientSecret := ClientSecret config;
                       callback := callbackURL o;
                       skipIssuerCheck := SkipIssuerCheck config;
                       op := idp;
                       httpClient := tlsConfig o |}), s')
    end.

Definition getProvider (fuel : nat) (o : Operation) (providerID : string)
  : M (result oidcProvider) :=
  RLock ;;;
  modify (emit (EvCacheRead providerID)) ;;;
  prov <- gets (fun s => cachedOIDCProviders s !! providerID) ;;
  RUnlock ;;;
  match prov with
  | Some prov => ret (Ok prov)
  | None =>
      match oidcProvidersConfig o !! providerID with
      | None => ret (Err (Sprintf "provider not supported: %s" [providerID]))
      | Some provider =>
          r <- initOIDCProvider fuel o providerID provider ;;
          match r with
          | Err e => ret (Err (Sprintf "failed to init oidc provider: %w" [e]))
          | Ok prov =>
              Lock ;;;
              modify (emit (EvCacheWrite providerID)) ;;;
              modify (fun s => set_cache (<[providerID := prov]> (cachedOIDCProviders s)) s) ;;;
              Unlock ;;;
              ret (Ok prov)
          end
      end
  end.

(** *** The OIDC endpoints *)

Record oidcTransientData := { Provider : string; TxnID : string }.

(** Both fields are [omitempty]. *)
Definition enc_oidcTransientData (d : oidcTransientData) : json :=
  JObject ((if String.eqb (Provider d) "" then [] else [("provider", JString (Provider d))])
           ++ (if String.eqb (TxnID d) "" then [] else [("txnID", JString (TxnID d))])).

Definition dec_oidcTransientData : Decoder oidcTransientData :=
  dec_struct "gnap.oidcTransientData" "oidcTransientData" (fun at_ k v d =>
    if names k "provider" then
      sbind (dec_string "string" (at_ "provider") v (Provider d)) (fun x =>
        sret {| Provider := x; TxnID := TxnID d |})
    else if names k "txnID" then
      sbind (dec_string "string" (at_ "txnID") v (TxnID d)) (fun x =>
        sret {| Provider := Provider d; TxnID := x |})
    else sret d).

(** [uuid.New().String()] *)
Definition uuid_New_String : M string :=
  fun s => Some (uuid_New s (uuidCalls s), set_uuidCalls (S (uuidCalls s)) s).

(** [o.transientStore.Put] and [o.transientStore.Get] *)
Definition transientStore_Put (k v : string) : M (option string) :=
  fun s => match store_Put (transientStore s) k v with
           | Ok st => Some (None, set_transientStore st s)
           | Err e => Some (Some e, s)
           end.

Definition transientStore_Get (k : string) : M (result string) :=
  gets (fun s => store_Get (transientStore s) k).

(** The scopes asked of the provider. *)
Definition loginScopes (provConfig : ProviderConfig) : list string :=
  if negb (Nat.eqb (length (Scopes provConfig)) 0)
  then [ScopeOpenID] ++ Scopes provConfig
  else [ScopeOpenID] ++ ["profile"; "email"].

Definition oidcLoginHandler (fuel : nat) (o : Operation) (r : Request) : M unit :=
  Debugf "handling request: %s" [RequestURL r] ;;;
  let providerID := Get (Query r) providerQueryParam in
  if String.eqb providerID "" then
    writeErrorResponse StatusBadRequest "missing provider" []
  else
    let interactTxnID := Get (Query r) txnQueryParam in
    if String.eqb interactTxnID "" then
      writeErrorResponse StatusBadRequest "missing transaction ID" []
    else
      pr <- getProvider fuel o providerID ;;
      match pr with
      | Err e => writeErrorResponse StatusBadRequest "get provider: %s" [e]
      | Ok provider =>
          match oidcProvidersConfig o !! providerID with
          | None =>
              writeErrorResponse StatusInternalServerError
                "provider not supported: %s" [providerID]
          | Some provConfig =>
              let scopes := loginScopes provConfig in
              state <- uuid_New_String ;;
              let data := {| Provider := providerID; TxnID := interactTxnID |} in
              match json_Marshal (enc_oidcTransientData data) with
              | Err e =>
                  writeErrorResponse StatusInternalServerError
                    (Sprintf "failed to marshal oidc txn data : %s" [e]) []
              | Ok dataBytes =>
                  perr <- transientStore_Put state dataBytes ;;
                  match perr with
                  | Some e =>
                      writeErrorResponse StatusInternalServerError
                        (Sprintf "failed to write state data to transient store: %s" [e]) []
                  | None =>
                      let redirectURL := AuthCodeURL provider scopes state providerID in
                      modify (set_w (http_Redirect r redirectURL StatusFound)) ;;;
                      Debugf "redirected to: %s" [redirectURL]
                  end
              end
          end
      end.

Definition oidcCallbackHandler (fuel : nat) (o : Operation) (r : Request) : M unit :=
  let state := Get (Query r) "state" in
  if String.eqb state "" then
    writeErrorResponse StatusBadRequest "missing state" []
  else
    let code := Get (Query r) "code" in
    if String.eqb code "" then
      writeErrorResponse StatusBadRequest "missing code" []
    else
      (* get state and provider details from transient store *)
      got <- transientStore_Get state ;;
      match got with
      | Err e =>
          writeErrorResponse StatusBadRequest
            (Sprintf "failed to get state data to transient store: %s" [e]) []
      | Ok dataBytes =>
          match Unmarshal dec_oidcTransientData
                  {| Provider := ""; TxnID := "" |} dataBytes with
          | Err e =>
              writeErrorResponse StatusInternalServerError
                (Sprintf "failed to parse oidc txn data : %s" [e]) []
          | Ok data =>
              let providerID := Provider data in
              pr <- getProvider fuel o providerID ;;
              match pr with
              | Err e => writeErrorResponse StatusBadRequest "get provider : %s" [e]
              | Ok provider =>
              match Exchange provider code with
              | Err e =>
                  writeErrorResponse StatusBadGateway
                    (Sprintf "failed to exchange oauth2 code for token : %s" [e]) []
              | Ok oauthToken =>
              match id_token oauthToken with
              | None => writeErrorResponse StatusBadGateway "missing id_token" []
              | Some rawIDToken =>
              match VerifyIDToken provider rawIDToken with
              | Err e =>
                  writeErrorResponse StatusForbidden
                    (Sprintf "failed to verify id_token : %s" [e]) []
              | Ok oidcToken =>
              match Claims_Sub oidcToken with
              | Err e =>
                  writeErrorResponse StatusInternalServerError
                    (Sprintf "failed to extract claims from id_token : %s" [e]) []
              | Ok sub =>
              completed <- call (CompleteInteraction (interactionHandler o) (TxnID data)
                              {| cr_SubjectData := [("sub", sub)] |}) ;;
              match completed with
              | Err e =>
                  writeErrorResponse StatusInternalServerError
                    (Sprintf "failed to complete GNAP interaction : %s" [e]) []
              | Ok (interactRef, responseHash, clientInteract) =>
              match url_with_query (URI (Finish clientInteract))
                      [(interactRefQueryParam, interactRef);
                       (responseHashQueryParam, responseHash)] with
              | Err e =>
                  writeErrorResponse StatusBadRequest
                    "client provided invalid redirect URI : %s" [e]
              | Ok redirect =>
              match template_ParseFiles (closePopupHTML o) with
              | Some e =>
                  writeErrorResponse StatusInternalServerError
                    "failed to parse template : %s" [e]
              | None =>
                  modify (set_w (Write (WTemplate (closePopupHTML o) redirect))) ;;;
                  match template_Execute (closePopupHTML o) redirect with
                  | Some e => Errorf (Sprintf "failed execute html template: %s" [e]) []
                  | None => ret tt
                  end
              end end end end end end end end
          end
      end.

(** *** The routes *)

Record Handler := {
  Path : string;
  Method_ : string;
  Handle : Request -> M unit
}.

Definition NewHTTPHandler (path method : string) (h : Request -> M unit) : Handler :=
  {| Path := path; Method_ := method; Handle := h |}.

Definition GetRESTHandlers (fuel : nat) (o : Operation) : list Handler :=
  [ NewHTTPHandler AuthRequestPath MethodPost (authRequestHandler o);
    NewHTTPHandler InteractPath MethodGet (interactHandler o);
    NewHTTPHandler AuthContinuePath MethodPost (authContinueHandler o);
    NewHTTPHandler AuthIntrospectPath MethodPost (introspectHandler o);
    NewHTTPHandler authProvidersPath MethodGet (authProvidersHandler o);
    NewHTTPHandler oidcLoginPath MethodGet (oidcLoginHandler fuel o);
    NewHTTPHandler oidcCallbackPath MethodGet (oidcCallbackHandler fuel o) ].

(** *** Vocabulary of the statements below *)

(** The response that [s'] holds was answered with status [code] and the
    JSON encoding of [v], on top of what [s] held. *)
Definition answered (code : nat) (v : Value) (s s' : World) : Prop :=
  status (w s') = Some code /\ body (w s') = body (w s) ++ [WJSON v].

(** The same with a plain-text body. *)
Definition answered_text (code : nat) (msg : string) (s s' : World) : Prop :=
  status (w s') = Some code /\ body (w s') = body (w s) ++ [WText msg].

(** Two auth handlers that differ at most in what they do when given
    the bypass verifier. *)
Definition same_off_skipVerify (a b : AuthHandler) : Prop :=
  (forall r v t, v <> skipVerify ->
     HandleAccessRequest a r v t = HandleAccessRequest b r v t) /\
  (forall r t v, v <> skipVerify ->
     HandleContinueRequest a r t v = HandleContinueRequest b r t v) /\
  (forall r v, v <> skipVerify ->
     HandleIntrospection a r v = HandleIntrospection b r v).

(** An operation with another auth handler. *)
Definition with_authHandler (a : AuthHandler) (o : Operation) : Operation :=
  {| authHandler := a; interactionHandler := interactionHandler o;
     uiEndpoint := uiEndpoint o; closePopupHTML := closePopupHTML o;
     authProviders := authProviders o; oidcProvidersConfig := oidcProvidersConfig o;
     tlsConfig := tlsConfig o; callbackURL := callbackURL o; timeout := timeout o |}.

(** Events of the retry loop: network calls and waits of one second. *)
Definition retry_event (e : Event) : Prop :=
  match e with
  | EvNewProvider _ => True
  | EvSleep d => d = Backoff.Second
  | _ => False
  end.



Definition is_CacheRead (e : Event) : bool :=
  match e with EvCacheRead _ => true | _ => false end.

(** What a run of the retry loop with [retries] retries leaves in the
    trace: an attempt, then a wait of one second and an attempt for each
    retry. *)
Fixpoint retry_trace (url : string) (retries : nat) : list Event :=
  match retries with
  | O => [EvNewProvider url]
  | S n => EvNewProvider url :: EvSleep Backoff.Second :: retry_trace url n
  end.

(** [s'] is [s] after such a run: apart from the log, only the trace and
    the count of network calls have moved. *)
Definition only_retried (url : string) (retries : nat) (s s' : World) : Prop :=
  w s' = w s /\ auth s' = auth s /\ transientStore s' = transientStore s /\
  cachedOIDCProviders s' = cachedOIDCProviders s /\
  cachedOIDCProvLock s' = cachedOIDCProvLock s /\
  oidc_NewProvider s' = oidc_NewProvider s /\
  uuid_New s' = uuid_New s /\ uuidCalls s' = uuidCalls s /\
  events s' = events s ++ retry_trace url retries /\
  netCalls s' = netCalls s + S retries.

(** The lock as each event of a trace finds it. *)
Fixpoint held_at (m : RWMutex) (evs : list Event) : list (RWMutex * Event) :=
  match evs with
  | [] => []
  | e :: rest => (m, e) :: held_at (lock_step m e) rest
  end.

Definition read_locked : RWMutex := {| readers := 1; writer := false |}.
Definition write_locked : RWMutex := {| readers := 0; writer := true |}.

(** The discipline [getProvider] keeps: the cache is read under the read
    lock and written under the write lock, and no lock is held while
    the network is called or waited for. *)
Definition disciplined (me : RWMutex * Event) : Prop :=
  match snd me with
  | EvCacheRead _ => fst me = read_locked
  | EvCacheWrite _ => fst me = write_locked
  | EvNewProvider _ | EvSleep _ => fst me = unlocked
  | _ => True
  end.

(** What [getProvider] leaves alone. *)
Definition provider_frame (s s' : World) : Prop :=
  w s' = w s /\ auth s' = auth s /\ transientStore s' = transientStore s /\
  oidc_NewProvider s' = oidc_NewProvider s /\
  uuid_New s' = uuid_New s /\ uuidCalls s' = uuidCalls s.

(** The policy [initOIDCProvider] builds, after [numTries] answers. *)
Definition retryPolicy (max num : N) : backOffTries ConstantBackOff :=
  {| delegate := NewConstantBackOff Backoff.Second; maxTries := max; numTries := num |}.

End Handlers.

Arguments World AuthSt oidc_Provider Sto : clear implicits.

(** *** Construction of the operations: [New] and [createStore] *)
Section Construction.

Variables AuthSt oidc_Provider tls_Config : Type.
Variable accesspolicy_Config : Type.
Context {Sto : Type} `{Store Sto}.
Variable env : Env oidc_Provider tls_Config.

(** [storage.Provider], as far as it is called here. *)
Record storage_Provider := { OpenStore : string -> result Sto }.

(** [oidcmodel.Config] *)
Record oidc_Config := { Providers : gmap string ProviderConfig }.

(** [Config].  [OIDC] is a pointer that [New] dereferences. *)
Record Config := {
  StoreProvider : storage_Provider;
  AccessPolicyConfig : option accesspolicy_Config;
  BaseURL : string;
  ClosePopupHTML : string;
  cfg_InteractionHandler : InteractionHandler AuthSt;
  UIEndpoint : string;
  OIDC : option oidc_Config;
  StartupTimeout : N;
  TransientStoreProvider : storage_Provider;
  TLSConfig : option tls_Config;
  DisableHTTPSigVerify : bool
}.

(** [authhandler.Config] and [authhandler.New], of another package. *)
Record authhandler_Config := {
  ah_StoreProvider : storage_Provider;
  ah_AccessPolicyConfig : option accesspolicy_Config;
  ContinuePath : string;
  ah_InteractionHandler : InteractionHandler AuthSt;
  DisableHTTPSig : bool
}.

Variable authhandler_New : authhandler_Config -> result (AuthHandler AuthSt).

Definition createStore (p : storage_Provider) : result Sto :=
  match OpenStore p transientStoreName with
  | Err e => Err (lib_Sprintf env "failed to open store [%s] : %w" [transientStoreName; e])
  | Ok s => Ok s
  end.

(** The entry of the catalogue made for one configured provider. *)
Definition catalogueEntry (kv : string * ProviderConfig) : authProvider :=
  {| ap_ID := fst kv; ap_Name := pc_Name (snd kv);
     SignUpIconURL := pc_SignUpIconURL (snd kv);
     SignInIconURL := pc_SignInIconURL (snd kv);
     Order := pc_Order (snd kv) |}.

(** What [New] hands back: the operation with its transient store and its
    provider cache. *)
Record Built := {
  built_operation : Operation AuthSt tls_Config;
  built_transientStore : Sto;
  built_cachedOIDCProviders : gmap string oidcProvider
}.

(** [New].  [None] is the panic of dereferencing a nil [config.OIDC].  Go
    ranges over the provider map in an order it does not fix; the model
    takes the enumeration of the map. *)
Definition New (config : Config) : option (result Built) :=
  match OIDC config with
  | None => None
  | Some oidc =>
      let authProviders := map catalogueEntry (map_to_list (Providers oidc)) in
      match authhandler_New
              {| ah_StoreProvider := StoreProvider config;
                 ah_AccessPolicyConfig := AccessPolicyConfig config;
                 ContinuePath := BaseURL config +:+ AuthContinuePath;
                 ah_InteractionHandler := cfg_InteractionHandler config;
                 DisableHTTPSig := DisableHTTPSigVerify config |} with
      | Err e => Some (Err e)
      | Ok auth =>
          match createStore (TransientStoreProvider config) with
          | Err e => Some (Err (lib_Sprintf env "failed to create transient store: %w" [e]))
          | Ok transientStore =>
              Some (Ok {| built_operation :=
                            {| authHandler := auth;
                               interactionHandler := cfg_InteractionHandler config;
                               uiEndpoint := UIEndpoint config;
                               closePopupHTML := ClosePopupHTML config;
                               authProviders := authProviders;
                               oidcProvidersConfig := Providers oidc;
                               tlsConfig := TLSConfig config;
                               callbackURL := "";
                               timeout := StartupTimeout config |};
                          built_transientStore := transientStore;
                          built_cachedOIDCProviders := ∅ |})
          end
      end
  end.

(** The world in which a freshly built operation serves its first request. *)
Definition firstWorld (b : Built) (a : AuthSt)
           (net : nat -> string -> result oidc_Provider) (uuid : nat -> string)
  : World AuthSt oidc_Provider Sto :=
  {| w := NewRecorder; logs := []; auth := a;
     transientStore := built_transientStore b;
     cachedOIDCProviders := built_cachedOIDCProviders b;
     cachedOIDCProvLock := unlocked; events := [];
     oidc_NewProvider := net; netCalls := 0; uuid_New := uuid; uuidCalls := 0 |}.

(** *** Vocabulary of the further statements *)

(** The provider cache holds configured providers only. *)
Definition cache_within_config (o : Operation AuthSt tls_Config)
           (s : World AuthSt oidc_Provider Sto) : Prop :=
  forall id, is_Some (cachedOIDCProviders s !! id) -> is_Some (oidcProvidersConfig o !! id).

(** The lock is free and the cache holds configured providers only. *)
Definition at_rest (o : Operation AuthSt tls_Config)
           (s : World AuthSt oidc_Provider Sto) : Prop :=
  cachedOIDCProvLock s = unlocked /\ cache_within_config o s.

(** [s'] has the transient store, the provider cache, its lock, the trace,
    the network and the UUID generator as [s] has them. *)
Definition adapter_frame (s s' : World AuthSt oidc_Provider Sto) : Prop :=
  transientStore s' = transientStore s /\
  cachedOIDCProviders s' = cachedOIDCProviders s /\
  cachedOIDCProvLock s' = cachedOIDCProvLock s /\ events s' = events s /\
  netCalls s' = netCalls s /\ uuidCalls s' = uuidCalls s.

(** [s'] differs from [s] in the response and the log at most. *)
Definition only_answered (s s' : World AuthSt oidc_Provider Sto) : Prop :=
  auth s' = auth s /\ adapter_frame s s'.

End Construction.

(** A run of [n] spaces, and strings without a space. *)
Fixpoint spaces (n : nat) : string :=
  match n with
  | O => EmptyString
  | S m => String GoStrings.space (spaces m)
  end.

Fixpoint no_space (s : string) : bool :=
  match s with
  | EmptyString => true
  | String c r => andb (negb (Ascii.eqb c GoStrings.space)) (no_space r)
  end.

(** Whether the last character is a space. *)
Fixpoint last_is_space (s : string) : bool :=
  match s with
  | EmptyString => false
  | String c r =>
      match r with
      | EmptyString => Ascii.eqb c GoStrings.space
      | _ => last_is_space r
      end
  end.

(** *** Stand-ins for the collaborators, as the package's tests use
    mocks: an auth handler that records the continuation tokens it is
    given, an identity provider that accepts one code, an in-memory
    transient store. *)
Module Doubles.

Definition transientJSON (p t : string) : json :=
  JObject [("provider", JString p); ("txnID", JString t)].

(** The two ways of writing one token request in [access_token]. *)
Definition tokenRequestJSON : json :=
  JObject [("access", JArray [JObject [("type", JString "photo-api")]])].
Definition singleForm : json := JObject [("access_token", tokenRequestJSON)].
Definition arrayForm : json := JObject [("access_token", JArray [tokenRequestJSON])].

(** An [AuthRequest] that asks for one token and has a nil entry. *)
Definition labelledRequest : TokenRequest :=
  {| Access := Some [{| IsReference := false; Ref := ""; Type_ := "photo-api";
                        Raw := Some (JObject [("actions", JArray [JString "read"])]) |}];
     Label := "photos"; Flags := Some [Bearer] |}.

Definition labelledAuthRequest : AuthRequest :=
  {| AccessToken := Some [Some labelledRequest; None]; Client := None; Interact := None |}.

Definition labelledForm : json :=
  JObject [("access_token",
            enc_slice enc_TokenRequestPtr (AccessToken labelledAuthRequest))].

(** Bodies are named rather than spelled out. *)
Definition scan (bytes : string) : result json :=
  if String.eqb bytes "EMPTY-OBJECT" then Ok (JObject [])
  else if String.eqb bytes "LABELLED-FORM" then Ok labelledForm
  else if String.eqb bytes "SINGLE-FORM" then Ok singleForm
  else if String.eqb bytes "ARRAY-FORM" then Ok arrayForm
  else if String.eqb bytes "CONTINUE-ref-1" then
    Ok (JObject [("interact_ref", JString "ref-1")])
  else if String.eqb bytes "INTROSPECT-tok" then
    Ok (JObject [("access_token", JString "tok")])
  else if String.eqb bytes "TRANSIENT-p1-t1" then Ok (transientJSON "p1" "t1")
  else Err "invalid character".

Definition marshal (j : json) : result string :=
  match j with
  | JObject [(_, JString "p1"); (_, JString "t1")] => Ok "TRANSIENT-p1-t1"
  | JObject [(_, JArray [JObject [_; (_, JString "photos"); _]; JNull])] => Ok "LABELLED-FORM"
  | _ => Err "unsupported value"
  end.

Definition idp (impl : oidcProviderImpl string unit) : oidcProvider :=
  {| AuthCodeURL := fun scopes state prov =>
       "https://idp.example/authorize?scope=" +:+ GoStrings.Join scopes
       +:+ "&state=" +:+ state +:+ "&provider=" +:+ prov;
     Exchange := fun code =>
       if String.eqb code "code-1" then Ok {| id_token := Some "raw-id-token" |}
       else Err "invalid_grant";
     VerifyIDToken := fun _ => Ok {| Claims_Sub := Ok "alice" |} |}.

(** A formatter that knows the verbs [%s] and [%w]. *)
Fixpoint format (f : string) (args : list string) : string :=
  match f with
  | String "%" (String c rest) =>
      if orb (Ascii.eqb c "s") (Ascii.eqb c "w")
      then hd "" args +:+ format rest (tl args)
      else String "%" (String c (format rest args))
  | String a rest => String a (format rest args)
  | EmptyString => EmptyString
  end.

(** The query of a URL as [Values.Encode] writes it: the pairs sorted by
    key, joined by ampersands.  The keys and values of these doubles need
    no escaping, and the addresses they are added to have no query. *)
Fixpoint insertPair (kv : string * string) (l : list (string * string))
  : list (string * string) :=
  match l with
  | [] => [kv]
  | x :: rest =>
      if String.ltb (fst kv) (fst x) then kv :: l else x :: insertPair kv rest
  end.

Fixpoint encodePairs (l : list (string * string)) : string :=
  match l with
  | [] => EmptyString
  | [kv] => fst kv +:+ "=" +:+ snd kv
  | kv :: rest => fst kv +:+ "=" +:+ snd kv +:+ "&" +:+ encodePairs rest
  end.

Definition withQuery (u : string) (q : list (string * string)) : result string :=
  Ok (u +:+ "?" +:+ encodePairs (fold_left (fun acc kv => insertPair kv acc) q [])).

Definition env : Env string unit :=
  {| lib_Sprintf := format;
     lib_json_scan := scan;
     lib_json_Marshal := marshal;
     lib_jwkUnmarshalJSON := fun _ => None;
     lib_url_with_query := withQuery;
     lib_http_Redirect_target := fun _ u => u;   (* the targets of these doubles are absolute *)
     lib_template_ParseFiles := fun _ => None;
     lib_template_Execute := fun _ _ => None;
     lib_Duration_String := fun _ => "1s";
     lib_httpsig_Verify := fun _ _ => Some "missing signature";
     lib_oidcProviderImpl_methods := idp |}.

Definition zeroAccessToken : AccessToken_ :=
  {| at_Value := ""; at_Label := ""; at_Manage := ""; at_Access := None;
     at_Expires := 0; at_Key := ""; at_Flags := None |}.

Definition someAuthResponse : AuthResponse :=
  {| Continue := {| rc_URI := ""; rc_AccessToken := zeroAccessToken; rc_Wait := 0 |};
     ar_AccessToken := None;
     ar_Interact := {| Redirect := ""; ri_Finish := "" |};
     InstanceID := "instance";
     Subject_ := {| SubIDs := None; Assertions := None |} |}.

Definition inactive : IntrospectResponse :=
  {| Active := false; is_Access := None; is_Key := None; is_Flags := None;
     SubjectData := [] |}.

(** The state of this auth handler is the list of continuation tokens it
    has been given.  A continuation succeeds once for the token [tok-1]. *)
Definition recorder : AuthHandler (list string) :=
  {| HandleAccessRequest := fun _ _ tok st => (Ok someAuthResponse, st ++ [tok]);
     HandleContinueRequest := fun _ tok _ st =>
       if existsb (String.eqb tok) st then (Err "continue token already used", st)
       else if String.eqb tok "tok-1" then (Ok someAuthResponse, st ++ [tok])
       else (Err "unknown continue token", st);
     HandleIntrospection := fun _ _ st => (Ok inactive, st) |}.

(** The same, except that it refuses the bypass verifier. *)
Definition strict : AuthHandler (list string) :=
  {| HandleAccessRequest := fun r v tok st =>
       match v with
       | skipVerify => (Err "no proof", st)
       | _ => HandleAccessRequest recorder r v tok st
       end;
     HandleContinueRequest := fun r tok v st =>
       match v with
       | skipVerify => (Err "no proof", st)
       | _ => HandleContinueRequest recorder r tok v st
       end;
     HandleIntrospection := fun r v st =>
       match v with
       | skipVerify => (Err "no proof", st)
       | _ => HandleIntrospection recorder r v st
       end |}.

Definition interaction : InteractionHandler (list string) :=
  {| CompleteInteraction := fun _ _ st =>
       (Ok ("ref-1", "hash-1",
            {| Start := None;
               Finish := {| Method := "redirect"; URI := "https://client.example/finish";
                            Nonce := "client-nonce" |} |}), st) |}.

Definition providerConfig : ProviderConfig :=
  {| pc_Name := "Provider One"; pc_SignUpIconURL := ""; pc_SignInIconURL := "";
     pc_Order := 1; URL := "https://idp.example"; ClientID := "client";
     ClientSecret := "secret"; Scopes := []; SkipIssuerCheck := false |}.

Definition operation (n : N) : Operation (list string) unit :=
  {| authHandler := recorder;
     interactionHandler := interaction;
     uiEndpoint := "https://ui.example";
     closePopupHTML := "closepopup.html";
     authProviders := [];
     oidcProvidersConfig := {[ "p1" := providerConfig ]};
     tlsConfig := None;
     callbackURL := "https://auth.example/oidc/callback";
     timeout := n |}.

Definition uuids (n : nat) : string :=
  "state-" +:+ string_of_list_ascii (repeat "i"%char n).

(** A world at rest whose network answers every discovery call, and one
    whose network refuses them all. *)
Definition world (net : nat -> string -> result string)
           (store : gmap string string) : World (list string) string (gmap string string) :=
  {| w := NewRecorder; logs := []; auth := []; transientStore := store;
     cachedOIDCProviders := ∅; cachedOIDCProvLock := unlocked; events := [];
     oidc_NewProvider := net; netCalls := 0;
     uuid_New := uuids; uuidCalls := 0 |}.

Definition online : nat -> string -> result string := fun _ url => Ok url.
Definition offline : nat -> string -> result string :=
  fun _ _ => Err "connection refused".

Definition request (hdr qry : list (string * string)) (b : ReadCloser) : Request :=
  {| req_Method := MethodPost; RequestURL := "/"; Header := hdr; Query := qry; Body := b |}.

Definition getRequest (qry : list (string * string)) : Request :=
  {| req_Method := MethodGet; RequestURL := "/"; Header := []; Query := qry;
     Body := Readable "" |}.

Definition photoRequest : TokenRequest :=
  {| Access := Some [{| IsReference := false; Ref := ""; Type_ := "photo-api"; Raw := None |}];
     Label := ""; Flags := None |}.

(** Requests. *)
Definition continueRequest : Request :=
  request [("Authorization", "GNAP tok-1")] [] (Readable "CONTINUE-ref-1").
Definition strangerRequest : Request :=
  request [("Authorization", "GNAP tok-9")] [] (Readable "CONTINUE-ref-1").
Definition twoSpacesRequest : Request :=
  request [("Authorization", "GNAP  tok-1")] [] (Readable "CONTINUE-ref-1").
Definition cutOffRequest : Request :=
  request [] [] (Failing "unexpected EOF").
Definition introspectRequest : Request :=
  request [] [] (Readable "INTROSPECT-tok").
Definition singleFormRequest : Request :=
  request [] [] (Readable "SINGLE-FORM").
Definition arrayFormRequest : Request :=
  request [] [] (Readable "ARRAY-FORM").
Definition loginRequest : Request :=
  getRequest [("provider", "p1"); ("txnID", "t1")].
Definition callbackRequest : Request :=
  getRequest [("state", "state-"); ("code", "code-1")].

(** The transient store after one login. *)
Definition oneLogin : gmap string string := {[ "state-" := "TRANSIENT-p1-t1" ]}.

(** A world in which the token [tok-1] has been used. *)
Definition usedWorld : World (list string) string (gmap string string) :=
  set_auth ["tok-1"] (world online ∅).

(** The next request on the same process gets a new response writer. *)
Definition next {A P St} (s : World A P St) : World A P St :=
  set_w (fun _ => NewRecorder) s.

(** A header with spaces around it, and a callback without its code. *)
Definition paddedRequest : Request :=
  request [("Authorization", "  GNAP tok-1 ")] [] (Readable "CONTINUE-ref-1").
Definition noCodeRequest : Request :=
  getRequest [("state", "state-")].

(** A network that refuses twice and then answers. *)
Definition flaky : nat -> string -> result string :=
  fun n url => if Nat.ltb n 2 then Err "connection refused" else Ok url.

(** The provider that [initOIDCProvider] makes of [providerConfig] for
    [operation], and a world that has it in its cache. *)
Definition provider1 : oidcProvider :=
  idp {| name := "p1"; clientID := "client"; clientSecret := "secret";
         callback := "https://auth.example/oidc/callback";
         skipIssuerCheck := false; op := Some "https://idp.example";
         httpClient := None |}.

Definition cachedWorld : World (list string) string (gmap string string) :=
  set_cache {[ "p1" := provider1 ]} (world offline oneLogin).

(** The world that a run leaves, the starting world if there is none. *)
Definition after {A}
           (m : World (list string) string (gmap string string)
                -> option (A * World (list string) string (gmap string string)))
           (s : World (list string) string (gmap string string))
  : World (list string) string (gmap string string) :=
  match m s with
  | Some (_, s') => s'
  | None => s
  end.

Definition afterLogin : World (list string) string (gmap string string) :=
  after (oidcLoginHandler env 4 (operation 3) loginRequest) (world online ∅).

(** Storage providers, [authhandler.New] and a configuration. *)
Definition memProvider : storage_Provider (Sto := gmap string string) :=
  {| OpenStore := fun _ => Ok ∅ |}.
Definition downProvider : storage_Provider (Sto := gmap string string) :=
  {| OpenStore := fun _ => Err "store down" |}.

Definition newAuthHandler
           (c : authhandler_Config (list string) unit (Sto := gmap string string))
  : result (AuthHandler (list string)) :=
  Ok recorder.

Definition config (transient : storage_Provider (Sto := gmap string string))
  : Config (list string) unit unit :=
  {| StoreProvider := memProvider;
     AccessPolicyConfig := None;
     BaseURL := "https://auth.example";
     ClosePopupHTML := "closepopup.html";
     cfg_InteractionHandler := interaction;
     UIEndpoint := "https://ui.example";
     OIDC := Some {| Providers := {[ "p1" := providerConfig ]} |};
     StartupTimeout := 3;
     TransientStoreProvider := transient;
     TLSConfig := None;
     DisableHTTPSigVerify := false |}.

End Doubles.

(** ** Facts about the string functions *)
Module GoStringsFacts.
Import GoStrings.

Lemma Split_not_nil (s : string) : Split s <> [].
Proof.
  induction s as [|c r IH]; simpl; [discriminate|].
  destruct (Ascii.eqb c space); [discriminate|].
  destruct (Split r); discriminate.
Qed.

(** Joining the components with single spaces gives the string back. *)
Lemma Join_Split (s : string) : Join (Split s) = s.
Proof.
  induction s as [|c r IH]; simpl; [reflexivity|].
  destruct (Ascii.eqb c space) eqn:Hc.
  - apply Ascii.eqb_eq in Hc. subst c.
    destruct (Split r) as [|h t] eqn:Hr; [destruct (Split_not_nil r Hr)|].
    rewrite <- IH. reflexivity.
  - destruct (Split r) as [|h t] eqn:Hr; [destruct (Split_not_nil r Hr)|].
    rewrite <- IH. destruct t; reflexivity.
Qed.

(** There is one component more than there are spaces. *)
Lemma length_Split (s : string) :
  length (Split s)
  = S (length (List.filter (fun c => Ascii.eqb c space) (list_ascii_of_string s))).
Proof.
  induction s as [|c r IH]; simpl; [reflexivity|].
  destruct (Ascii.eqb c space); simpl.
  - rewrite IH. reflexivity.
  - destruct (Split r) as [|h t] eqn:Hr; [destruct (Split_not_nil r Hr)|].
    simpl in *. exact IH.
Qed.

(** What is trimmed on the left does not start with a space, and a space at
    the end is trimmed on the right. *)
Lemma TrimLeft_head (s : string) c r : TrimLeft s = String c r -> c <> space.
Proof.
  induction s as [|a s IH]; simpl; [discriminate|].
  destruct (Ascii.eqb a space) eqn:Ha; [exact IH|].
  intros Heq. inversion Heq; subst. apply Ascii.eqb_neq. exact Ha.
Qed.

Lemma TrimRight_last (s : string) : TrimRight (s +:+ " ") = TrimRight s.
Proof.
  induction s as [|a s IH]; simpl; [reflexivity|].
  rewrite IH. reflexivity.
Qed.

Example Trim_both_sides : Trim "  GNAP tok  " = "GNAP tok".
Proof. reflexivity. Qed.

Example Trim_spaces_only : Trim "   " = "".
Proof. reflexivity. Qed.

Example Split_empty : Split "" = [""].
Proof. reflexivity. Qed.

Example Split_two_spaces : Split "GNAP  tok" = ["GNAP"; ""; "tok"].
Proof. reflexivity. Qed.

Example Split_three_components : Split "GNAP tok extra" = ["GNAP"; "tok"; "extra"].
Proof. reflexivity. Qed.

Lemma Split_GNAP (rest : string) : Split ("GNAP " +:+ rest) = "GNAP" :: Split rest.
Proof. reflexivity. Qed.

Lemma Split_no_space (t : string) : no_space t = true -> Split t = [t].
Proof.
  induction t as [|c r IH]; simpl; [reflexivity|].
  intros Hns. apply andb_true_iff in Hns. destruct Hns as [Hc Hr].
  apply negb_true_iff in Hc. rewrite Hc, (IH Hr). reflexivity.
Qed.

Lemma TrimLeft_spaces (n : nat) (y : string) : TrimLeft (spaces n +:+ y) = TrimLeft y.
Proof. induction n as [|n IH]; simpl; [reflexivity|exact IH]. Qed.

Lemma append_space_spaces (y : string) (n : nat) :
  y +:+ spaces (S n) = (y +:+ " ") +:+ spaces n.
Proof.
  induction y as [|c r IHr]; [reflexivity|].
  change (String c (r +:+ spaces (S n)) = String c ((r +:+ " ") +:+ spaces n)).
  rewrite IHr. reflexivity.
Qed.

Lemma append_empty (y : string) : y +:+ "" = y.
Proof.
  induction y as [|c r IHr]; [reflexivity|].
  change (String c (r +:+ "") = String c r). rewrite IHr. reflexivity.
Qed.

Lemma TrimRight_spaces (n : nat) (y : string) : TrimRight (y +:+ spaces n) = TrimRight y.
Proof.
  revert y. induction n as [|n IH]; intros y.
  - simpl. rewrite append_empty. reflexivity.
  - rewrite append_space_spaces, IH. apply TrimRight_last.
Qed.

Lemma TrimRight_no_space (t : string) : no_space t = true -> TrimRight t = t.
Proof.
  induction t as [|c r IH]; simpl; [reflexivity|].
  intros Hns. apply andb_true_iff in Hns. destruct Hns as [Hc Hr].
  apply negb_true_iff in Hc. rewrite (IH Hr). destruct r; [rewrite Hc|]; reflexivity.
Qed.

Lemma TrimRight_prefix (p t : string) :
  TrimRight t = t -> t <> "" -> TrimRight (p +:+ t) = p +:+ t.
Proof.
  intros Ht Hne. induction p as [|a p IH]; [exact Ht|].
  change (TrimRight (String a (p +:+ t)) = String a (p +:+ t)).
  simpl. rewrite IH. destruct (p +:+ t) eqn:Hpt; [|reflexivity].
  destruct p as [|a0 p0].
  - change (t = "") in Hpt. congruence.
  - change (String a0 (p0 +:+ t) = "") in Hpt. discriminate.
Qed.

Lemma Trim_padded_GNAP (a b : nat) (tok : string) :
  no_space tok = true -> tok <> "" ->
  Trim (spaces a +:+ ("GNAP " +:+ tok) +:+ spaces b) = "GNAP " +:+ tok.
Proof.
  intros Hns Hne. unfold Trim. rewrite TrimLeft_spaces.
  change (TrimLeft (("GNAP " +:+ tok) +:+ spaces b))
    with (("GNAP " +:+ tok) +:+ spaces b).
  rewrite TrimRight_spaces.
  apply TrimRight_prefix; [apply TrimRight_no_space; exact Hns|exact Hne].
Qed.

(** What [Trim] takes away is spaces, and what it leaves does not end in
    a space. *)
Lemma TrimLeft_decompose (s : string) : exists a, s = spaces a +:+ TrimLeft s.
Proof.
  induction s as [|c r [a IH]]; [exists 0; reflexivity|]. simpl.
  destruct (Ascii.eqb_spec c space) as [->|Hc].
  - exists (S a). change (String space r = String space (spaces a +:+ TrimLeft r)).
    rewrite <- IH. reflexivity.
  - exists 0. reflexivity.
Qed.

Lemma TrimRight_decompose (s : string) : exists b, s = TrimRight s +:+ spaces b.
Proof.
  induction s as [|c r [b IH]]; [exists 0; reflexivity|]. simpl.
  destruct (TrimRight r) as [|c' r'] eqn:Hr.
  - change (r = spaces b) in IH. subst r.
    destruct (Ascii.eqb_spec c space) as [->|Hc].
    + exists (S b). reflexivity.
    + exists b. reflexivity.
  - exists b. change (String c r = String c (String c' r' +:+ spaces b)).
    rewrite <- IH. reflexivity.
Qed.

Lemma append_assoc (x y z : string) : (x +:+ y) +:+ z = x +:+ (y +:+ z).
Proof.
  induction x as [|c r IH]; [reflexivity|].
  change (String c ((r +:+ y) +:+ z) = String c (r +:+ (y +:+ z))).
  rewrite IH. reflexivity.
Qed.

Lemma Trim_decompose (s : string) : exists a b, s = spaces a +:+ Trim s +:+ spaces b.
Proof.
  destruct (TrimLeft_decompose s) as [a Ha].
  destruct (TrimRight_decompose (TrimLeft s)) as [b Hb].
  exists a, b. unfold Trim. rewrite <- Hb. exact Ha.
Qed.

Lemma TrimRight_not_last_space (s : string) : last_is_space (TrimRight s) = false.
Proof.
  induction s as [|c r IH]; [reflexivity|]. simpl.
  destruct (TrimRight r) as [|c' r'] eqn:Hr.
  - destruct (Ascii.eqb c space) eqn:Hc; [reflexivity|]. simpl. exact Hc.
  - exact IH.
Qed.

Lemma TrimRight_id (s : string) : last_is_space s = false -> TrimRight s = s.
Proof.
  induction s as [|c r IH]; [reflexivity|]. simpl.
  destruct r as [|c' r'].
  - intros Hc. simpl. rewrite Hc. reflexivity.
  - intros Hr. rewrite (IH Hr). reflexivity.
Qed.

Lemma last_is_space_prefix (p t : string) :
  t <> "" -> last_is_space (p +:+ t) = last_is_space t.
Proof.
  intros Hne. induction p as [|a p IH]; [reflexivity|].
  change (last_is_space (String a (p +:+ t)) = last_is_space t).
  simpl. destruct (p +:+ t) eqn:Hpt; [|exact IH].
  destruct p; [change (t = "") in Hpt; contradiction|discriminate].
Qed.

(** A header of spaces, GNAP, a space, a rest that does not end in a
    space, and spaces is trimmed to GNAP, the space and the rest. *)
Lemma Trim_padded (a b : nat) (rest : string) :
  rest <> "" -> last_is_space rest = false ->
  Trim (spaces a +:+ ("GNAP " +:+ rest) +:+ spaces b) = "GNAP " +:+ rest.
Proof.
  intros Hne Hlast. unfold Trim. rewrite TrimLeft_spaces.
  change (TrimLeft (("GNAP " +:+ rest) +:+ spaces b))
    with (("GNAP " +:+ rest) +:+ spaces b).
  rewrite TrimRight_spaces.
  apply TrimRight_prefix; [apply TrimRight_id; exact Hlast|exact Hne].
Qed.

Lemma no_space_last (t : string) : no_space t = true -> last_is_space t = false.
Proof.
  induction t as [|c r IH]; [reflexivity|]. simpl.
  intros Hns. apply andb_true_iff in Hns. destruct Hns as [Hc Hr].
  destruct r; [apply negb_true_iff; exact Hc|exact (IH Hr)].
Qed.

End GoStringsFacts.

(** ** Properties *)
Section Properties.

Variables AuthSt oidc_Provider tls_Config : Type.
Context {Sto : Type} `{Store Sto}.
Variable env : Env oidc_Provider tls_Config.

Implicit Types (o : Operation AuthSt tls_Config) (req : Request).
Implicit Types (s : World AuthSt oidc_Provider Sto).

Ltac run :=
  unfold bind, modify, ret, gets, call, writeResponse, writeErrorResponse,
    Errorf, Debugf; simpl.

(** What the writer holds after [WriteHeader code] and [writeResponse v],
    when nothing had been sent before. *)
Lemma answered_after_WriteHeader s s' code v :
  status (w s) = None ->
  w s' = Write (WJSON v)
           (Header_Set "Content-Type" "application/json" (WriteHeader code (w s))) ->
  answered code v s s'.
Proof.
  intros Hnone Hw. unfold answered. rewrite Hw.
  unfold Write, Header_Set, WriteHeader. rewrite Hnone. simpl. auto.
Qed.

(** Without [WriteHeader], the first write sends 200. *)
Lemma answered_implicit_OK s s' v :
  status (w s) = None ->
  w s' = Write (WJSON v) (Header_Set "Content-Type" "application/json" (w s)) ->
  answered StatusOK v s s'.
Proof.
  intros Hnone Hw. unfold answered. rewrite Hw.
  unfold Write, Header_Set, WriteHeader. simpl. rewrite Hnone. simpl. auto.
Qed.

Lemma answered_text_after_WriteHeader s s' code msg :
  status (w s) = None ->
  w s' = Write (WText msg) (WriteHeader code (w s)) ->
  answered_text code msg s s'.
Proof.
  intros Hnone Hw. unfold answered_text. rewrite Hw.
  unfold Write, WriteHeader. rewrite Hnone. simpl. auto.
Qed.

(** What [http.Redirect] leaves in the response. *)
Lemma http_Redirect_status r url code rw :
  status rw = None -> status (http_Redirect env r url code rw) = Some code.
Proof.
  intros Hnone. unfold http_Redirect.
  destruct (hasKey "Content-Type" (header rw)); cbn [negb andb];
    destruct (String.eqb (req_Method r) "GET"); cbn [orb];
    try destruct (String.eqb (req_Method r) "HEAD");
    unfold Write, WriteHeader, Header_Set; cbn; rewrite Hnone; reflexivity.
Qed.

Lemma Get_Header_Set_eq k v rw : Get (header (Header_Set k v rw)) k = v.
Proof. unfold Header_Set. cbn. rewrite String.eqb_refl. reflexivity. Qed.

Lemma Get_Header_Set_ne k k' v rw :
  k <> k' -> Get (header (Header_Set k v rw)) k' = Get (header rw) k'.
Proof.
  intros Hne. unfold Header_Set. cbn.
  destruct (String.eqb_spec k k') as [Heq|_]; [contradiction|].
  induction (header rw) as [|[a b] l IH]; [reflexivity|]. cbn.
  destruct (String.eqb_spec a k) as [->|Hak]; cbn.
  - destruct (String.eqb_spec k k'); [contradiction|exact IH].
  - destruct (String.eqb a k'); [reflexivity|exact IH].
Qed.

Lemma header_WriteHeader code rw : header (WriteHeader code rw) = header rw.
Proof. unfold WriteHeader. destruct (status rw); reflexivity. Qed.

Lemma header_Write x rw : header (Write x rw) = header rw.
Proof. unfold Write. cbn. apply header_WriteHeader. Qed.

Lemma body_WriteHeader code rw : body (WriteHeader code rw) = body rw.
Proof. unfold WriteHeader. destruct (status rw); reflexivity. Qed.

Lemma http_Redirect_Location r url code rw :
  Get (header (http_Redirect env r url code rw)) "Location"
  = hexEscapeNonASCII (lib_http_Redirect_target env r url).
Proof.
  unfold http_Redirect.
  destruct (andb (negb (hasKey "Content-Type" (header rw))) (String.eqb (req_Method r) "GET"));
    destruct (andb (negb (hasKey "Content-Type" (header rw)))
                (orb (String.eqb (req_Method r) "GET") (String.eqb (req_Method r) "HEAD")));
    rewrite ?header_Write, header_WriteHeader;
    rewrite ?(@Get_Header_Set_ne "Content-Type" "Location") by discriminate;
    apply Get_Header_Set_eq.
Qed.

Lemma http_Redirect_body r url code rw :
  body (http_Redirect env r url code rw)
  = body rw ++ (if andb (negb (hasKey "Content-Type" (header rw)))
                        (String.eqb (req_Method r) "GET")
                then [WRedirect (lib_http_Redirect_target env r url)]
                else []).
Proof.
  unfold http_Redirect.
  destruct (andb (negb (hasKey "Content-Type" (header rw))) (String.eqb (req_Method r) "GET"));
    destruct (andb (negb (hasKey "Content-Type" (header rw)))
                (orb (String.eqb (req_Method r) "GET") (String.eqb (req_Method r) "HEAD")));
    unfold Write; cbn [body]; rewrite ?body_WriteHeader; cbn [body Header_Set];
    rewrite ?app_nil_r; reflexivity.
Qed.

(** The whole of [authRequestHandler], case by case in the order of its
    checks. *)
Lemma authRequestHandler_cases o req s :
  status (w s) = None ->
  exists s', authRequestHandler env o req s = Some (tt, s') /\
    match ReadAll (Body req) with
    | Err _ => answered StatusInternalServerError denied s s' /\ auth s' = auth s
    | Ok bytes =>
        match Unmarshal env (dec_AuthRequest (lib_jwkUnmarshalJSON env))
                zeroAuthRequest bytes with
        | Err _ => answered StatusBadRequest invalid s s' /\ auth s' = auth s
        | Ok ar =>
            let ra := HandleAccessRequest (authHandler o) ar
                        (httpsig_NewVerifier (withBody req bytes)) "" (auth s) in
            auth s' = snd ra /\
            match fst ra with
            | Err _ => answered StatusUnauthorized denied s s'
            | Ok resp => answered StatusOK (VAuthResponse resp) s s'
            end
        end
    end.
Proof.
  intros Hnone. unfold authRequestHandler.
  destruct (ReadAll (Body req)) as [bytes|e].
  - destruct (Unmarshal env _ zeroAuthRequest bytes) as [ar|e].
    + run. destruct (HandleAccessRequest _ _ _ _ _) as [[resp|e] a]; run.
      * eexists; split; [reflexivity|]. split; [reflexivity|].
        apply answered_implicit_OK; auto.
      * eexists; split; [reflexivity|]. split; [reflexivity|].
        apply answered_after_WriteHeader; auto.
    + run. eexists; split; [reflexivity|]. split; [|reflexivity].
      apply answered_after_WriteHeader; auto.
  - run. eexists; split; [reflexivity|]. split; [|reflexivity].
    apply answered_after_WriteHeader; auto.
Qed.

Lemma introspectHandler_cases o req s :
  status (w s) = None ->
  exists s', introspectHandler env o req s = Some (tt, s') /\
    match ReadAll (Body req) with
    | Err _ => answered StatusInternalServerError denied s s' /\ auth s' = auth s
    | Ok bytes =>
        match Unmarshal env (dec_IntrospectRequest (lib_jwkUnmarshalJSON env))
                zeroIntrospectRequest bytes with
        | Err _ => answered StatusBadRequest invalid s s' /\ auth s' = auth s
        | Ok ir =>
            let ra := HandleIntrospection (authHandler o) ir
                        (httpsig_NewVerifier (withBody req bytes)) (auth s) in
            auth s' = snd ra /\
            match fst ra with
            | Err _ => answered StatusUnauthorized denied s s'
            | Ok resp => answered StatusOK (VIntrospectResponse resp) s s'
            end
        end
    end.
Proof.
  intros Hnone. unfold introspectHandler.
  destruct (ReadAll (Body req)) as [bytes|e].
  - destruct (Unmarshal env _ zeroIntrospectRequest bytes) as [ir|e].
    + run. destruct (HandleIntrospection _ _ _ _) as [[resp|e] a]; run.
      * eexists; split; [reflexivity|]. split; [reflexivity|].
        apply answered_implicit_OK; auto.
      * eexists; split; [reflexivity|]. split; [reflexivity|].
        apply answered_after_WriteHeader; auto.
    + run. eexists; split; [reflexivity|]. split; [|reflexivity].
      apply answered_after_WriteHeader; auto.
  - run. eexists; split; [reflexivity|]. split; [|reflexivity].
    apply answered_after_WriteHeader; auto.
Qed.

Lemma authContinueHandler_cases o req s :
  status (w s) = None ->
  exists s', authContinueHandler env o req s = Some (tt, s') /\
    if badTokHeader (tokHeader req)
    then answered StatusUnauthorized denied s s' /\ auth s' = auth s
    else
      match ReadAll (Body req) with
      | Err _ => answered StatusInternalServerError denied s s' /\ auth s' = auth s
      | Ok bytes =>
          match Unmarshal env dec_ContinueRequest zeroContinueRequest bytes with
          | Err _ => answered StatusBadRequest invalid s s' /\ auth s' = auth s
          | Ok cr =>
              let ra := HandleContinueRequest (authHandler o) cr
                          (nth 1 (tokHeader req) "")
                          (httpsig_NewVerifier (withBody req bytes)) (auth s) in
              auth s' = snd ra /\
              match fst ra with
              | Err _ => answered StatusUnauthorized denied s s'
              | Ok resp => answered StatusOK (VAuthResponse resp) s s'
              end
          end
      end.
Proof.
  intros Hnone. unfold authContinueHandler.
  destruct (badTokHeader (tokHeader req)).
  - run. eexists; split; [reflexivity|]. split; [|reflexivity].
    apply answered_after_WriteHeader; auto.
  - destruct (ReadAll (Body req)) as [bytes|e].
    + destruct (Unmarshal env _ zeroContinueRequest bytes) as [cr|e].
      * run. destruct (HandleContinueRequest _ _ _ _ _) as [[resp|e] a]; run.
        -- eexists; split; [reflexivity|]. split; [reflexivity|].
           apply answered_implicit_OK; auto.
        -- eexists; split; [reflexivity|]. split; [reflexivity|].
           apply answered_after_WriteHeader; auto.
      * run. eexists; split; [reflexivity|]. split; [|reflexivity].
        apply answered_after_WriteHeader; auto.
    + run. eexists; split; [reflexivity|]. split; [|reflexivity].
      apply answered_after_WriteHeader; auto.
Qed.

Lemma Unmarshal_invalid_JSON {T} (d : Decoder T) (zero : T) bytes e :
  lib_json_scan env bytes = Err e -> Unmarshal env d zero bytes = Err e.
Proof. intros Hscan. unfold Unmarshal. rewrite Hscan. reflexivity. Qed.

Lemma badTokHeader_false (th : list string) :
  badTokHeader th = false <-> 2 <= length th /\ nth 0 th "" = "GNAP".
Proof.
  unfold badTokHeader. rewrite orb_false_iff, negb_false_iff.
  rewrite Nat.ltb_ge, String.eqb_eq. tauto.
Qed.

(** C1.  The bypass verifier accepts every client key; it is what
    [InternalIntrospectHandler] hands to the auth handler; no route of
    [GetRESTHandlers] ever hands it over, since each route behaves the
    same when the auth handler is replaced by one that differs only on
    the bypass verifier; and [introspectHandler] calls the auth handler
    with the httpsig verifier made from the request it is serving. *)
Theorem C1_bypass_verifier_scoped :
  (forall key, Verify env skipVerify key = None) /\
  (forall o ir a,
     InternalIntrospectHandler o ir a
     = HandleIntrospection (authHandler o) ir skipVerify a) /\
  (forall fuel o ah,
     same_off_skipVerify (authHandler o) ah ->
     Forall2 (fun h h' => Path h = Path h' /\ Method_ h = Method_ h' /\
                          forall req s, Handle h req s = Handle h' req s)
             (GetRESTHandlers env fuel o)
             (GetRESTHandlers env fuel (with_authHandler ah o))) /\
  (forall o req s bytes ir,
     Body req = Readable bytes ->
     Unmarshal env (dec_IntrospectRequest (lib_jwkUnmarshalJSON env))
       zeroIntrospectRequest bytes = Ok ir ->
     exists r s',
       introspectHandler env o req s = Some (r, s') /\
       auth s' = snd (HandleIntrospection (authHandler o) ir
                        (httpsig_NewVerifier (withBody req bytes)) (auth s))).
Proof.
  split; [reflexivity|]. split; [reflexivity|]. split.
  - intros fuel o ah (Hacc & Hcont & Hint).
    unfold GetRESTHandlers, NewHTTPHandler.
    repeat (constructor;
            [simpl; split; [reflexivity|split; [reflexivity|intros req s]]|]);
      try reflexivity; try apply List.Forall2_nil.
    + unfold authRequestHandler. simpl.
      destruct (ReadAll (Body req)); [|reflexivity].
      destruct (Unmarshal _ _ _ _); [|reflexivity].
      unfold bind, call. rewrite Hacc by discriminate. reflexivity.
    + unfold authContinueHandler. simpl.
      destruct (badTokHeader _); [reflexivity|].
      destruct (ReadAll (Body req)); [|reflexivity].
      destruct (Unmarshal _ _ _ _); [|reflexivity].
      unfold bind, call. rewrite Hcont by discriminate. reflexivity.
    + unfold introspectHandler. simpl.
      destruct (ReadAll (Body req)); [|reflexivity].
      destruct (Unmarshal _ _ _ _); [|reflexivity].
      unfold bind, call. rewrite Hint by discriminate. reflexivity.
  - intros o req s bytes ir Hbody Hdec.
    unfold introspectHandler. rewrite Hbody. simpl. rewrite Hdec.
    run. destruct (HandleIntrospection _ _ _ _) as [[resp|e] a]; run;
      eexists; eexists; split; reflexivity.
Qed.

(** C3, as amended.  On the three POST endpoints a body that cannot be
    read is answered 500 [request_denied], a body that does not decode
    (invalid JSON included) 400 [invalid_request], an error of the
    underlying handler 401 [request_denied], a success 200 with the
    response object.  On /gnap/continue the [Authorization] header is
    checked before the body is read: without a well-formed GNAP header
    the answer is 401 [request_denied] whatever the body is. *)
Theorem C3_error_table o req s :
  status (w s) = None ->
  (exists s', authRequestHandler env o req s = Some (tt, s') /\
     match ReadAll (Body req) with
     | Err _ => answered StatusInternalServerError denied s s'
     | Ok bytes =>
         match Unmarshal env (dec_AuthRequest (lib_jwkUnmarshalJSON env))
                 zeroAuthRequest bytes with
         | Err _ => answered StatusBadRequest invalid s s'
         | Ok ar =>
             match fst (HandleAccessRequest (authHandler o) ar
                          (httpsig_NewVerifier (withBody req bytes)) "" (auth s)) with
             | Err _ => answered StatusUnauthorized denied s s'
             | Ok resp => answered StatusOK (VAuthResponse resp) s s'
             end
         end
     end) /\
  (exists s', introspectHandler env o req s = Some (tt, s') /\
     match ReadAll (Body req) with
     | Err _ => answered StatusInternalServerError denied s s'
     | Ok bytes =>
         match Unmarshal env (dec_IntrospectRequest (lib_jwkUnmarshalJSON env))
                 zeroIntrospectRequest bytes with
         | Err _ => answered StatusBadRequest invalid s s'
         | Ok ir =>
             match fst (HandleIntrospection (authHandler o) ir
                          (httpsig_NewVerifier (withBody req bytes)) (auth s)) with
             | Err _ => answered StatusUnauthorized denied s s'
             | Ok resp => answered StatusOK (VIntrospectResponse resp) s s'
             end
         end
     end) /\
  (exists s', authContinueHandler env o req s = Some (tt, s') /\
     if badTokHeader (tokHeader req)
     then answered StatusUnauthorized denied s s'
     else
       match ReadAll (Body req) with
       | Err _ => answered StatusInternalServerError denied s s'
       | Ok bytes =>
           match Unmarshal env dec_ContinueRequest zeroContinueRequest bytes with
           | Err _ => answered StatusBadRequest invalid s s'
           | Ok cr =>
               match fst (HandleContinueRequest (authHandler o) cr
                            (nth 1 (tokHeader req) "")
                            (httpsig_NewVerifier (withBody req bytes)) (auth s)) with
               | Err _ => answered StatusUnauthorized denied s s'
               | Ok resp => answered StatusOK (VAuthResponse resp) s s'
               end
           end
       end) /\
  (forall bytes e,
     lib_json_scan env bytes = Err e ->
     Unmarshal env (dec_AuthRequest (lib_jwkUnmarshalJSON env)) zeroAuthRequest bytes
       = Err e /\
     Unmarshal env (dec_IntrospectRequest (lib_jwkUnmarshalJSON env))
       zeroIntrospectRequest bytes = Err e /\
     Unmarshal env dec_ContinueRequest zeroContinueRequest bytes = Err e).
Proof.
  intros Hnone. repeat split.
  - destruct (authRequestHandler_cases o req s Hnone) as (s' & Hrun & Hcases).
    exists s'. split; [exact Hrun|].
    destruct (ReadAll (Body req)); [|tauto].
    destruct (Unmarshal _ _ _ _); [exact (proj2 Hcases)|tauto].
  - destruct (introspectHandler_cases o req s Hnone) as (s' & Hrun & Hcases).
    exists s'. split; [exact Hrun|].
    destruct (ReadAll (Body req)); [|tauto].
    destruct (Unmarshal _ _ _ _); [exact (proj2 Hcases)|tauto].
  - destruct (authContinueHandler_cases o req s Hnone) as (s' & Hrun & Hcases).
    exists s'. split; [exact Hrun|].
    destruct (badTokHeader _); [tauto|].
    destruct (ReadAll (Body req)); [|tauto].
    destruct (Unmarshal _ _ _ _); [exact (proj2 Hcases)|tauto].
  - apply Unmarshal_invalid_JSON; assumption.
  - apply Unmarshal_invalid_JSON; assumption.
  - apply Unmarshal_invalid_JSON; assumption.
Qed.

(** C6, as amended.  [authRequestHandler] always calls
    [HandleAccessRequest] with the empty continuation token: the auth
    handler's state after a request whose body decodes is the one that
    call leaves, and the handler behaves the same under any auth handler
    that agrees with the installed one on the empty token. *)
Theorem C6_auth_request_passes_empty_token o req s :
  (forall bytes ar,
     Body req = Readable bytes ->
     Unmarshal env (dec_AuthRequest (lib_jwkUnmarshalJSON env)) zeroAuthRequest bytes
       = Ok ar ->
     exists s',
       authRequestHandler env o req s = Some (tt, s') /\
       auth s' = snd (HandleAccessRequest (authHandler o) ar
                        (httpsig_NewVerifier (withBody req bytes)) "" (auth s))) /\
  (forall ah,
     (forall ar v, HandleAccessRequest ah ar v "" = HandleAccessRequest (authHandler o) ar v "") ->
     authRequestHandler env (with_authHandler ah o) req s = authRequestHandler env o req s).
Proof.
  split.
  - intros bytes ar Hbody Hdec.
    unfold authRequestHandler. rewrite Hbody. simpl. rewrite Hdec.
    run. destruct (HandleAccessRequest _ _ _ _ _) as [[resp|e] a]; run;
      eexists; split; reflexivity.
  - intros ah Hsame. unfold authRequestHandler. simpl.
    destruct (ReadAll (Body req)); [|reflexivity].
    destruct (Unmarshal _ _ _ _); [|reflexivity].
    unfold bind, call. rewrite Hsame. reflexivity.
Qed.

(** C10.  On POST /gnap/continue the [Authorization] header is trimmed
    of spaces and split at single spaces.  The request passes the check
    exactly when there are at least two components and the first is
    GNAP; otherwise it is answered 401 [request_denied] without the body
    or the auth handler being touched.  The token handed to
    [HandleContinueRequest] is the second component, whatever follows
    it; after GNAP and two spaces the second component is empty.  The
    spaces around the header do not count: a header of any number of
    spaces, GNAP, one space, a token without spaces and any number of
    spaces has the two components GNAP and the token, and that token is
    the one handed over. *)
Theorem C10_continue_token_is_second_component o req s :
  status (w s) = None ->
  let th := GoStrings.Split (GoStrings.Trim (Get (Header req) "Authorization")) in
  (badTokHeader th = false <-> 2 <= length th /\ nth 0 th "" = "GNAP") /\
  (badTokHeader th = true ->
     exists s', authContinueHandler env o req s = Some (tt, s') /\
                answered StatusUnauthorized denied s s' /\ auth s' = auth s) /\
  (badTokHeader th = false ->
     forall bytes cr,
       Body req = Readable bytes ->
       Unmarshal env dec_ContinueRequest zeroContinueRequest bytes = Ok cr ->
       exists s', authContinueHandler env o req s = Some (tt, s') /\
                  auth s' = snd (HandleContinueRequest (authHandler o) cr (nth 1 th "")
                                   (httpsig_NewVerifier (withBody req bytes)) (auth s))) /\
  (forall a b rest, th = a :: b :: rest -> nth 1 th "" = b) /\
  (forall tok,
     GoStrings.Trim (Get (Header req) "Authorization") = "GNAP  " +:+ tok ->
     nth 0 th "" = "GNAP" /\ nth 1 th "" = "" /\ badTokHeader th = false) /\
  (forall (a b : nat) tok,
     no_space tok = true -> tok <> "" ->
     Get (Header req) "Authorization" = spaces a +:+ ("GNAP " +:+ tok) +:+ spaces b ->
     th = ["GNAP"; tok] /\
     forall bytes cr,
       Body req = Readable bytes ->
       Unmarshal env dec_ContinueRequest zeroContinueRequest bytes = Ok cr ->
       exists s', authContinueHandler env o req s = Some (tt, s') /\
                  auth s' = snd (HandleContinueRequest (authHandler o) cr tok
                                   (httpsig_NewVerifier (withBody req bytes)) (auth s))).
Proof.
  intros Hnone th.
  destruct (authContinueHandler_cases o req s Hnone) as (s' & Hrun & Hcases).
  fold th in Hcases. unfold tokHeader in Hcases. fold th in Hcases.
  split; [apply badTokHeader_false|]. split; [|split; [|split; [|split]]].
  - intros Hbad. rewrite Hbad in Hcases. exists s'. tauto.
  - intros Hgood bytes cr Hbody Hdec. rewrite Hgood in Hcases.
    rewrite Hbody in Hcases. simpl in Hcases. rewrite Hdec in Hcases.
    exists s'. split; [exact Hrun|]. apply Hcases.
  - intros a b rest Hth. rewrite Hth. reflexivity.
  - intros tok Htrim. subst th. rewrite Htrim. simpl.
    destruct (GoStrings.Split tok) eqn:Hsplit.
    + simpl. auto.
    + simpl. auto.
  - intros a b tok Hns Hne Hhdr.
    assert (Hth : th = ["GNAP"; tok]).
    { subst th. rewrite Hhdr, (GoStringsFacts.Trim_padded_GNAP a b Hns Hne).
      rewrite GoStringsFacts.Split_GNAP, (GoStringsFacts.Split_no_space _ Hns).
      reflexivity. }
    split; [exact Hth|].
    intros bytes cr Hbody Hdec. rewrite Hth in Hcases.
    cbn [badTokHeader length Nat.ltb Nat.leb nth orb negb String.eqb Ascii.eqb Bool.eqb]
      in Hcases.
    rewrite Hbody in Hcases. cbn [ReadAll] in Hcases. rewrite Hdec in Hcases.
    exists s'. split; [exact Hrun|]. apply Hcases.
Qed.

(** *** The retry loop of [initOIDCProvider] *)

Lemma only_retried_one_more url n s s1 s' :
  events s1 = events s ++ [EvNewProvider url; EvSleep Backoff.Second] ->
  netCalls s1 = S (netCalls s) ->
  w s1 = w s -> auth s1 = auth s -> transientStore s1 = transientStore s ->
  cachedOIDCProviders s1 = cachedOIDCProviders s ->
  cachedOIDCProvLock s1 = cachedOIDCProvLock s ->
  oidc_NewProvider s1 = oidc_NewProvider s ->
  uuid_New s1 = uuid_New s -> uuidCalls s1 = uuidCalls s ->
  only_retried url n s1 s' -> only_retried url (S n) s s'.
Proof.
  intros Hev Hnet Hw Ha Ht Hc Hl Ho Hu Huc
         (Hw' & Ha' & Ht' & Hc' & Hl' & Ho' & Hu' & Huc' & Hev' & Hnet').
  unfold only_retried. repeat split; try congruence.
  - rewrite Hev', Hev. rewrite <- app_assoc. reflexivity.
  - rewrite Hnet', Hnet. lia.
Qed.

(** With a positive maximum [m] of which [k] answers are used up, the
    loop returns within [m - k] retries: with the provider of the first
    attempt that succeeds, or with the error of the last attempt when
    every attempt has failed. *)
Lemma retry_loop_bounded providerID config (m : N) :
  (0 < m)%N ->
  forall (d : nat) (k : N) (fuel : nat) s idp0,
    (k <= m)%N -> d = N.to_nat m - N.to_nat k -> S d <= fuel ->
    exists err s' idp retries,
      retry_loop (newProviderAttempt config) (notifyRetry env providerID)
        (@timerWait AuthSt oidc_Provider Sto) fuel (retryPolicy m k) (s, idp0)
      = Some (err, (s', idp)) /\
      retries <= d /\
      only_retried (URL config) retries s s' /\
      (forall i, i < retries ->
         is_ok (oidc_NewProvider s (netCalls s + i) (URL config)) = false) /\
      match err with
      | None => exists p, idp = Some p /\
                  oidc_NewProvider s (netCalls s + retries) (URL config) = Ok p
      | Some e => retries = d /\
                  oidc_NewProvider s (netCalls s + retries) (URL config) = Err e
      end.
Proof.
  intros Hm. induction d as [|d IH]; intros k fuel s idp0 Hk Hd Hfuel.
  - destruct fuel as [|fuel]; [lia|]. simpl.
    unfold newProviderAttempt at 1. simpl.
    destruct (oidc_NewProvider s (netCalls s) (URL config)) as [p|e] eqn:Hnet.
    + exists None, (set_netCalls (S (netCalls s)) (emit (EvNewProvider (URL config)) s)),
        (Some p), 0.
      split; [reflexivity|]. split; [lia|]. split.
      { unfold only_retried. simpl. repeat split; auto. lia. }
      split; [intros i Hi; lia|].
      exists p. split; [reflexivity|]. rewrite Nat.add_0_r. exact Hnet.
    + assert (Hkm : k = m) by lia. subst k.
      replace (0 <? m)%N with true by (symmetry; apply N.ltb_lt; exact Hm).
      replace (m <=? m)%N with true by (symmetry; apply N.leb_le; lia).
      exists (Some e), (set_netCalls (S (netCalls s)) (emit (EvNewProvider (URL config)) s)),
        None, 0.
      split; [reflexivity|]. split; [lia|]. split.
      { unfold only_retried. simpl. repeat split; auto. lia. }
      split; [intros i Hi; lia|].
      split; [reflexivity|]. rewrite Nat.add_0_r. exact Hnet.
  - destruct fuel as [|fuel]; [lia|]. simpl.
    unfold newProviderAttempt at 1. simpl.
    destruct (oidc_NewProvider s (netCalls s) (URL config)) as [p|e] eqn:Hnet.
    + exists None, (set_netCalls (S (netCalls s)) (emit (EvNewProvider (URL config)) s)),
        (Some p), 0.
      split; [reflexivity|]. split; [lia|]. split.
      { unfold only_retried. simpl. repeat split; auto. lia. }
      split; [intros i Hi; lia|].
      exists p. split; [reflexivity|]. rewrite Nat.add_0_r. exact Hnet.
    + replace (0 <? m)%N with true by (symmetry; apply N.ltb_lt; exact Hm).
      replace (m <=? k)%N with false by (symmetry; apply N.leb_gt; lia).
      set (s1 := fst (timerWait Backoff.Second
                        (notifyRetry env providerID e Backoff.Second
                           (set_netCalls (S (netCalls s))
                              (emit (EvNewProvider (URL config)) s), None)))).
      destruct (IH (k + 1)%N fuel s1 None) as (err & s' & idp & retries & Hrun & Hle & Hfr & Hfail & Hout);
        [lia|lia|lia|].
      exists err, s', idp, (S retries).
      split; [exact Hrun|]. split; [lia|]. split.
      { eapply only_retried_one_more; [..|exact Hfr]; try reflexivity.
        subst s1. simpl. rewrite <- app_assoc. reflexivity. }
      assert (Hnet1 : netCalls s1 = S (netCalls s)) by reflexivity.
      assert (Horc : oidc_NewProvider s1 = oidc_NewProvider s) by reflexivity.
      split.
      { intros i Hi. destruct i as [|i].
        - rewrite Nat.add_0_r, Hnet. reflexivity.
        - specialize (Hfail i ltac:(lia)). rewrite Horc, Hnet1 in Hfail.
          replace (netCalls s + S i) with (S (netCalls s) + i) by lia. exact Hfail. }
      rewrite Horc, Hnet1 in Hout.
      replace (netCalls s + S retries) with (S (netCalls s) + retries) by lia.
      destruct err as [e'|].
      * destruct Hout as [Hr Ho]. split; [lia|exact Ho].
      * exact Hout.
Qed.

(** The policy either stops or asks for one second. *)
Lemma retryPolicy_next (m k : N) :
  NextBackOff (retryPolicy m k) = (None, retryPolicy m k) \/
  exists k', NextBackOff (retryPolicy m k) = (Some Backoff.Second, retryPolicy m k').
Proof.
  simpl. destruct (0 <? m)%N.
  - destruct (m <=? k)%N; [left; reflexivity|right; eexists; reflexivity].
  - right; eexists; reflexivity.
Qed.

(** Whenever the loop returns, whatever the maximum, it has made some
    attempts with waits of one second between them and nothing else. *)
Lemma retry_loop_trace providerID config (m : N) :
  forall (fuel : nat) (k : N) s idp0 err s' idp,
    retry_loop (newProviderAttempt config) (notifyRetry env providerID)
      (@timerWait AuthSt oidc_Provider Sto) fuel (retryPolicy m k) (s, idp0)
    = Some (err, (s', idp)) ->
    exists retries, only_retried (URL config) retries s s'.
Proof.
  induction fuel as [|fuel IH]; intros k s idp0 err s' idp Hrun; [discriminate|].
  cbn [retry_loop] in Hrun.
  unfold newProviderAttempt at 1 in Hrun. cbn [fst] in Hrun.
  destruct (oidc_NewProvider _ _ _) as [p|e] eqn:Hnet.
  - inversion Hrun; subst. exists 0. unfold only_retried. simpl.
    repeat split; auto. lia.
  - destruct (retryPolicy_next m k) as [Hstop|[k' Hnext]].
    + rewrite Hstop in Hrun. inversion Hrun; subst. exists 0.
      unfold only_retried. simpl. repeat split; auto. lia.
    + rewrite Hnext in Hrun. apply IH in Hrun. destruct Hrun as [n Hfr].
      exists (S n). eapply only_retried_one_more; [..|exact Hfr]; try reflexivity.
      simpl. rewrite <- app_assoc. reflexivity.
Qed.

(** With a maximum of zero the policy never stops: while the network
    refuses, the loop goes on. *)
Lemma retry_loop_unbounded providerID config :
  forall (fuel : nat) (k : N) s idp0,
    (forall n, is_ok (oidc_NewProvider s n (URL config)) = false) ->
    retry_loop (newProviderAttempt config) (notifyRetry env providerID)
      (@timerWait AuthSt oidc_Provider Sto) fuel (retryPolicy 0 k) (s, idp0)
    = None.
Proof.
  induction fuel as [|fuel IH]; intros k s idp0 Hoff; [reflexivity|].
  cbn [retry_loop]. unfold newProviderAttempt at 1. cbn [fst].
  specialize (Hoff (netCalls s)) as Hnow.
  change (oidc_NewProvider (emit (EvNewProvider (URL config)) s))
    with (oidc_NewProvider s).
  change (netCalls (emit (EvNewProvider (URL config)) s)) with (netCalls s).
  destruct (oidc_NewProvider s (netCalls s) (URL config)) as [p|e]; [discriminate|].
  apply IH. exact Hoff.
Qed.

Lemma initOIDCProvider_trace fuel o providerID config s r s' :
  initOIDCProvider env fuel o providerID config s = Some (r, s') ->
  exists retries, only_retried (URL config) retries s s'.
Proof.
  unfold initOIDCProvider, RetryNotify. intros Hrun.
  destruct (retry_loop _ _ _ _ _ _) as [[err [s1 idp]]|] eqn:Hloop; [|discriminate].
  apply (retry_loop_trace _ _ (timeout o) fuel 0%N) in Hloop.
  destruct err; inversion Hrun; subst; exact Hloop.
Qed.

(** *** Traces and the lock *)

Lemma held_at_app m l1 l2 :
  held_at m (l1 ++ l2) = held_at m l1 ++ held_at (lock_after l1 m) l2.
Proof.
  revert m. induction l1 as [|e l1 IH]; intros m; simpl; [reflexivity|].
  rewrite IH. reflexivity.
Qed.

Lemma lock_after_app m l1 l2 :
  lock_after (l1 ++ l2) m = lock_after l2 (lock_after l1 m).
Proof. unfold lock_after. apply fold_left_app. Qed.

Lemma retry_trace_lock url n m : lock_after (retry_trace url n) m = m.
Proof. induction n as [|n IH]; simpl; [reflexivity|exact IH]. Qed.

Lemma retry_trace_disciplined url n :
  Forall disciplined (held_at unlocked (retry_trace url n)).
Proof.
  induction n as [|n IH]; simpl.
  - repeat constructor.
  - constructor; [reflexivity|]. constructor; [reflexivity|]. exact IH.
Qed.

Lemma retry_trace_events url n : Forall retry_event (retry_trace url n).
Proof.
  induction n as [|n IH]; simpl; repeat constructor. exact IH.
Qed.

Lemma retry_trace_no_CacheRead url n : List.filter is_CacheRead (retry_trace url n) = [].
Proof. induction n as [|n IH]; simpl; [reflexivity|exact IH]. Qed.

(** *** [getProvider] *)

Lemma getProvider_frame fuel o providerID s r s' :
  getProvider env fuel o providerID s = Some (r, s') -> provider_frame s s'.
Proof.
  unfold getProvider, bind, RLock, RUnlock, Lock, Unlock, modify, gets, ret.
  destruct (writer (cachedOIDCProvLock s)) eqn:Hw; [discriminate|].
  cbn -[initOIDCProvider].
  set (s0 := emit EvRUnlock (emit (EvCacheRead providerID) (emit EvRLock s))).
  destruct (cachedOIDCProviders s !! providerID) as [p|].
  { intros Hrun; inversion Hrun; subst. repeat split. }
  destruct (oidcProvidersConfig o !! providerID) as [cfg|].
  2: { intros Hrun; inversion Hrun; subst. repeat split. }
  destruct (initOIDCProvider env fuel o providerID cfg s0) as [[a s1]|] eqn:Hinit;
    [|discriminate].
  apply initOIDCProvider_trace in Hinit.
  destruct Hinit as (n & Hw1 & Ha1 & Ht1 & _ & _ & Ho1 & Hu1 & Huc1 & _ & _).
  destruct a as [p|e].
  - destruct (writer (cachedOIDCProvLock s1) || _); [discriminate|].
    cbn. intros Hrun; inversion Hrun; subst.
    unfold provider_frame. cbn. rewrite Hw1, Ha1, Ht1, Ho1, Hu1, Huc1. repeat split.
  - intros Hrun; inversion Hrun; subst.
    unfold provider_frame. rewrite Hw1, Ha1, Ht1, Ho1, Hu1, Huc1. repeat split.
Qed.

(** A run of [getProvider] that starts with the lock free: the lookup,
    then, for a provider that is configured and not yet cached, the
    attempts of the initialization, then the store into the cache when
    the initialization has succeeded. *)
Lemma getProvider_run fuel o providerID s r s' :
  cachedOIDCProvLock s = unlocked ->
  getProvider env fuel o providerID s = Some (r, s') ->
  cachedOIDCProvLock s' = unlocked /\
  exists net stored,
    events s' = events s ++ [EvRLock; EvCacheRead providerID; EvRUnlock] ++ net ++ stored /\
    match cachedOIDCProviders s !! providerID with
    | Some p =>
        r = Ok p /\ net = [] /\ stored = [] /\
        cachedOIDCProviders s' = cachedOIDCProviders s
    | None =>
        match oidcProvidersConfig o !! providerID with
        | None =>
            is_ok r = false /\ net = [] /\ stored = [] /\
            cachedOIDCProviders s' = cachedOIDCProviders s
        | Some cfg =>
            exists retries,
              net = retry_trace (URL cfg) retries /\
              match r with
              | Ok p =>
                  stored = [EvLock; EvCacheWrite providerID; EvUnlock] /\
                  cachedOIDCProviders s' = <[providerID := p]> (cachedOIDCProviders s)
              | Err _ =>
                  stored = [] /\ cachedOIDCProviders s' = cachedOIDCProviders s
              end
        end
    end.
Proof.
  intros Hfree.
  unfold getProvider, bind, RLock, RUnlock, Lock, Unlock, modify, gets, ret.
  rewrite Hfree. cbn -[initOIDCProvider].
  set (s0 := emit EvRUnlock (emit (EvCacheRead providerID) (emit EvRLock s))).
  assert (Hl0 : cachedOIDCProvLock s0 = unlocked)
    by (subst s0; cbn; rewrite Hfree; reflexivity).
  assert (He0 : events s0 = events s ++ [EvRLock; EvCacheRead providerID; EvRUnlock])
    by (subst s0; cbn; rewrite <- !app_assoc; reflexivity).
  destruct (cachedOIDCProviders s !! providerID) as [p|].
  { intros Hrun; inversion Hrun; subst. split; [exact Hl0|].
    exists [], []. rewrite He0. simpl. auto. }
  destruct (oidcProvidersConfig o !! providerID) as [cfg|].
  2: { intros Hrun; inversion Hrun; subst. split; [exact Hl0|].
       exists [], []. rewrite He0. simpl. auto. }
  destruct (initOIDCProvider env fuel o providerID cfg s0) as [[a s1]|] eqn:Hinit;
    [|discriminate].
  apply initOIDCProvider_trace in Hinit.
  destruct Hinit as (n & _ & _ & _ & Hc1 & Hl1 & _ & _ & _ & He1 & _).
  rewrite Hl0 in Hl1. rewrite He0 in He1.
  destruct a as [p|e].
  - rewrite Hl1. cbn. intros Hrun; inversion Hrun; subst.
    split; [cbn; rewrite Hl1; reflexivity|].
    exists (retry_trace (URL cfg) n), [EvLock; EvCacheWrite providerID; EvUnlock].
    split.
    + cbn. rewrite He1. rewrite <- !app_assoc. reflexivity.
    + exists n. split; [reflexivity|]. split; [reflexivity|]. cbn. rewrite Hc1. reflexivity.
  - intros Hrun; inversion Hrun; subst. split; [exact Hl1|].
    exists (retry_trace (URL cfg) n), []. split.
    + rewrite He1. rewrite app_nil_r. rewrite <- !app_assoc. reflexivity.
    + exists n. split; [reflexivity|]. split; [reflexivity|]. exact Hc1.
Qed.

Lemma initOIDCProvider_returns fuel o providerID config s :
  (0 < timeout o)%N ->
  S (N.to_nat (timeout o)) <= fuel ->
  exists r s',
    initOIDCProvider env fuel o providerID config s = Some (r, s') /\
    cachedOIDCProvLock s' = cachedOIDCProvLock s.
Proof.
  intros Hpos Hfuel.
  destruct (retry_loop_bounded providerID config Hpos (d := N.to_nat (timeout o))
              (k := 0%N) (fuel := fuel) s None)
    as (err & s' & idp & retries & Hrun & _ & Hfr & _); [lia|lia|lia|].
  unfold initOIDCProvider, RetryNotify.
  change (Reset (WithMaxRetries (NewConstantBackOff Second) (timeout o)))
    with (retryPolicy (timeout o) 0).
  rewrite Hrun. destruct Hfr as (_ & _ & _ & _ & Hl & _).
  destruct err; eexists; eexists; (split; [reflexivity|exact Hl]).
Qed.

(** C9, as amended.  With a positive startup timeout count [n] and
    fuel for [n + 1] rounds, [initOIDCProvider] returns.  It has made at
    most [n] retries, that is at most [n + 1] network calls, with a wait
    of one second before each retry; every attempt before the last has
    failed; it returns a provider exactly when the last attempt has
    succeeded, and an error after [n] failed retries.  In particular it
    returns an error when all [n + 1] attempts fail. *)
Theorem C9_bounded_retry fuel o providerID config s :
  (0 < timeout o)%N ->
  S (N.to_nat (timeout o)) <= fuel ->
  exists r s' retries,
    initOIDCProvider env fuel o providerID config s = Some (r, s') /\
    retries <= N.to_nat (timeout o) /\
    only_retried (URL config) retries s s' /\
    (forall i, i < retries ->
       is_ok (oidc_NewProvider s (netCalls s + i) (URL config)) = false) /\
    is_ok r = is_ok (oidc_NewProvider s (netCalls s + retries) (URL config)) /\
    (is_ok r = false -> retries = N.to_nat (timeout o)) /\
    ((forall i, i <= N.to_nat (timeout o) ->
        is_ok (oidc_NewProvider s (netCalls s + i) (URL config)) = false) ->
     is_ok r = false).
Proof.
  intros Hpos Hfuel.
  destruct (retry_loop_bounded providerID config Hpos (d := N.to_nat (timeout o))
              (k := 0%N) (fuel := fuel) s None)
    as (err & s' & idp & retries & Hrun & Hle & Hfr & Hfail & Hout); [lia|lia|lia|].
  unfold initOIDCProvider, RetryNotify.
  change (Reset (WithMaxRetries (NewConstantBackOff Second) (timeout o)))
    with (retryPolicy (timeout o) 0).
  rewrite Hrun.
  destruct err as [e|].
  - destruct Hout as [Hr Ho].
    eexists; exists s', retries. split; [reflexivity|].
    split; [exact Hle|]. split; [exact Hfr|]. split; [exact Hfail|].
    split; [rewrite Ho; reflexivity|]. split; [intros _; exact Hr|]. reflexivity.
  - destruct Hout as (p & Hidp & Ho).
    eexists; exists s', retries. split; [reflexivity|].
    split; [exact Hle|]. split; [exact Hfr|]. split; [exact Hfail|].
    split; [rewrite Ho; reflexivity|]. split; [discriminate|].
    intros Hall. specialize (Hall retries Hle). rewrite Ho in Hall. discriminate.
Qed.

(** With the lock free, a positive count and enough fuel, [getProvider]
    returns. *)
Lemma getProvider_returns fuel o providerID s :
  cachedOIDCProvLock s = unlocked ->
  (0 < timeout o)%N -> S (N.to_nat (timeout o)) <= fuel ->
  exists r s', getProvider env fuel o providerID s = Some (r, s').
Proof.
  intros Hfree Hpos Hfuel.
  unfold getProvider, bind, RLock, RUnlock, Lock, Unlock, modify, gets, ret.
  rewrite Hfree. cbn -[initOIDCProvider].
  set (s0 := emit EvRUnlock (emit (EvCacheRead providerID) (emit EvRLock s))).
  destruct (cachedOIDCProviders s !! providerID); [eauto|].
  destruct (oidcProvidersConfig o !! providerID) as [cfg|]; [|eauto].
  destruct (@initOIDCProvider_returns fuel o providerID cfg s0 Hpos Hfuel)
    as (r & s1 & Hrun & Hl1).
  rewrite Hrun. destruct r; [|eauto].
  assert (Hl0 : cachedOIDCProvLock s0 = unlocked)
    by (subst s0; cbn; rewrite Hfree; reflexivity).
  rewrite Hl1, Hl0. cbn. eauto.
Qed.

(** C5, as amended.  A run of [getProvider] that starts with the lock
    free reads the cache once, under the shared read lock, and releases
    that lock before anything else.  The network calls of a first-time
    initialization and the waits between them happen with no lock held
    at all, neither the read lock nor the write lock.  The exclusive
    lock is taken only afterwards, around the store of the new provider
    into the cache, and the cache is not read again under it.  The lock
    is free again at the end. *)
Theorem C5_provider_cache_locking fuel o providerID s r s' :
  cachedOIDCProvLock s = unlocked ->
  getProvider env fuel o providerID s = Some (r, s') ->
  exists net stored,
    events s' = events s ++ [EvRLock; EvCacheRead providerID; EvRUnlock] ++ net ++ stored /\
    Forall retry_event net /\
    (stored = [] \/ stored = [EvLock; EvCacheWrite providerID; EvUnlock]) /\
    Forall disciplined
      (held_at unlocked ([EvRLock; EvCacheRead providerID; EvRUnlock] ++ net ++ stored)) /\
    length (List.filter is_CacheRead
              ([EvRLock; EvCacheRead providerID; EvRUnlock] ++ net ++ stored)) = 1 /\
    cachedOIDCProvLock s' = unlocked.
Proof.
  intros Hfree Hrun.
  destruct (getProvider_run fuel o providerID s Hfree Hrun)
    as (Hfree' & net & stored & Hev & Hshape).
  assert (Hnet : net = [] \/ exists url n, net = retry_trace url n).
  { destruct (cachedOIDCProviders s !! providerID).
    - left. tauto.
    - destruct (oidcProvidersConfig o !! providerID) as [cfg|].
      + destruct Hshape as (n & Hn & _). right. eauto.
      + left. tauto. }
  assert (Hstored : stored = [] \/ stored = [EvLock; EvCacheWrite providerID; EvUnlock]).
  { destruct (cachedOIDCProviders s !! providerID).
    - left. tauto.
    - destruct (oidcProvidersConfig o !! providerID) as [cfg|].
      + destruct Hshape as (n & _ & Hr). destruct r; tauto.
      + left. tauto. }
  exists net, stored. split; [exact Hev|].
  assert (Hnet_ev : Forall retry_event net).
  { destruct Hnet as [->|(url & n & ->)]; [constructor|apply retry_trace_events]. }
  assert (Hnet_lock : lock_after net unlocked = unlocked).
  { destruct Hnet as [->|(url & n & ->)]; [reflexivity|apply retry_trace_lock]. }
  assert (Hnet_disc : Forall disciplined (held_at unlocked net)).
  { destruct Hnet as [->|(url & n & ->)]; [constructor|apply retry_trace_disciplined]. }
  assert (Hnet_read : List.filter is_CacheRead net = []).
  { destruct Hnet as [->|(url & n & ->)]; [reflexivity|apply retry_trace_no_CacheRead]. }
  split; [exact Hnet_ev|]. split; [exact Hstored|]. split; [|split; [|exact Hfree']].
  - change ([EvRLock; EvCacheRead providerID; EvRUnlock] ++ net ++ stored)
      with (EvRLock :: EvCacheRead providerID :: EvRUnlock :: (net ++ stored)).
    cbn [held_at lock_step readers writer unlocked pred].
    constructor; [exact I|]. constructor; [reflexivity|]. constructor; [exact I|].
    change {| readers := 0; writer := false |} with unlocked.
    rewrite held_at_app, Hnet_lock. apply Forall_app. split; [exact Hnet_disc|].
    destruct Hstored as [->| ->]; [constructor|].
    repeat constructor.
  - rewrite !List.filter_app, Hnet_read.
    destruct Hstored as [->| ->]; reflexivity.
Qed.

Lemma eqb_empty_false (x : string) : x <> "" -> String.eqb x "" = false.
Proof. intros Hne. apply String.eqb_neq. exact Hne. Qed.

Lemma loginScopes_spec (cfg : ProviderConfig) :
  loginScopes cfg
  = ScopeOpenID :: match Scopes cfg with
                   | [] => ["profile"; "email"]
                   | configured => configured
                   end.
Proof. unfold loginScopes. destruct (Scopes cfg); reflexivity. Qed.

(** C8, as amended.  GET /oidc/login on a fresh response writer; [s0]
    is the world once the request has been logged.  When [provider] or
    [txnID] is missing the answer is 400, no state is drawn and the
    transient store is left as it was.  When both are present and
    [getProvider] fails, as it does for an unknown provider and for a
    configured one whose discovery fails, the answer is 400 with the
    error of [getProvider], no state is drawn and nothing is stored.  When
    [getProvider] yields the provider and the provider is configured, the
    handler draws the next value of the UUID generator as [state] and
    puts the record [{provider, txnID}] under it; if the store takes it,
    the answer is a 302 whose [Location] is what [http.Redirect] makes of
    the provider's authorize URL for that state and the scopes [openid]
    followed by the configured scopes, or by [profile] and [email] when
    none is configured; if the store refuses it, the answer is 500 and no
    redirect is sent. *)
Theorem C8_oidc_login fuel o req s s0 :
  status (w s) = None ->
  Debugf env "handling request: %s" [RequestURL req] s = Some (tt, s0) ->
  let providerID := Get (Query req) providerQueryParam in
  let txnID := Get (Query req) txnQueryParam in
  (providerID = "" \/ txnID = "" ->
     exists s', oidcLoginHandler env fuel o req s = Some (tt, s') /\
                status (w s') = Some StatusBadRequest /\
                transientStore s' = transientStore s /\
                uuidCalls s' = uuidCalls s) /\
  (forall e s1,
     providerID <> "" -> txnID <> "" ->
     getProvider env fuel o providerID s0 = Some (Err e, s1) ->
     exists s', oidcLoginHandler env fuel o req s = Some (tt, s') /\
                answered_text StatusBadRequest
                  (lib_Sprintf env "get provider: %s" [e]) s s' /\
                transientStore s' = transientStore s /\
                uuidCalls s' = uuidCalls s) /\
  (forall provider s1 cfg dataBytes,
     providerID <> "" -> txnID <> "" ->
     getProvider env fuel o providerID s0 = Some (Ok provider, s1) ->
     oidcProvidersConfig o !! providerID = Some cfg ->
     lib_json_Marshal env
       (enc_oidcTransientData {| Provider := providerID; TxnID := txnID |})
       = Ok dataBytes ->
     let state := uuid_New s (uuidCalls s) in
     (forall st',
        store_Put (transientStore s) state dataBytes = Ok st' ->
        exists s', oidcLoginHandler env fuel o req s = Some (tt, s') /\
                   transientStore s' = st' /\
                   uuidCalls s' = S (uuidCalls s) /\
                   status (w s') = Some StatusFound /\
                   Get (header (w s')) "Location"
                   = hexEscapeNonASCII
                       (lib_http_Redirect_target env req
                          (AuthCodeURL provider
                             (ScopeOpenID :: match Scopes cfg with
                                             | [] => ["profile"; "email"]
                                             | configured => configured
                                             end)
                             state providerID))) /\
     (forall e,
        store_Put (transientStore s) state dataBytes = Err e ->
        exists s', oidcLoginHandler env fuel o req s = Some (tt, s') /\
                   transientStore s' = transientStore s /\
                   status (w s') = Some StatusInternalServerError)).
Proof.
  intros Hnone Hdebug providerID txnID.
  assert (Hs0 : w s0 = w s /\ transientStore s0 = transientStore s /\
                uuid_New s0 = uuid_New s /\ uuidCalls s0 = uuidCalls s).
  { unfold Debugf, Errorf, modify in Hdebug. inversion Hdebug; subst. repeat split. }
  destruct Hs0 as (Hw0 & Ht0 & Hu0 & Huc0).
  split; [|split].
  - intros Hmissing.
    unfold oidcLoginHandler. fold providerID. fold txnID.
    unfold bind at 1. rewrite Hdebug.
    destruct (String.eqb providerID "") eqn:Hp.
    + run. eexists. split; [reflexivity|]. cbn. rewrite Hw0, Ht0, Huc0.
      unfold WriteHeader. rewrite Hnone. auto.
    + destruct Hmissing as [Hp'|Ht']; [rewrite Hp' in Hp; discriminate|].
      rewrite Ht'. cbn [String.eqb].
      run. eexists. split; [reflexivity|]. cbn. rewrite Hw0, Ht0, Huc0.
      unfold WriteHeader. rewrite Hnone. auto.
  - intros e s1 Hp Ht Hget.
    destruct (getProvider_frame _ _ _ _ Hget) as (Hw1 & _ & Ht1 & _ & _ & Huc1).
    unfold oidcLoginHandler. fold providerID. fold txnID.
    unfold bind at 1. rewrite Hdebug.
    rewrite (eqb_empty_false Hp), (eqb_empty_false Ht).
    unfold bind at 1. rewrite Hget.
    run. eexists. split; [reflexivity|]. cbn.
    rewrite Ht1, Ht0, Huc1, Huc0. split; [|split; reflexivity].
    apply answered_text_after_WriteHeader; [exact Hnone|].
    cbn. rewrite Hw1, Hw0. reflexivity.
  - intros provider s1 cfg dataBytes Hp Ht Hget Hcfg Hmarshal.
    destruct (getProvider_frame _ _ _ _ Hget) as (Hw1 & _ & Ht1 & _ & Hu1 & Huc1).
    assert (Hhead : oidcLoginHandler env fuel o req s
                    = bind (transientStore_Put (uuid_New s (uuidCalls s)) dataBytes)
                        (fun perr =>
                           match perr with
                           | Some e =>
                               writeErrorResponse env StatusInternalServerError
                                 (lib_Sprintf env
                                    "failed to write state data to transient store: %s" [e]) []
                           | None =>
                               let redirectURL :=
                                 AuthCodeURL provider (loginScopes cfg)
                                   (uuid_New s (uuidCalls s)) providerID in
                               bind (modify (set_w (http_Redirect env req redirectURL StatusFound)))
                                 (fun _ => Debugf env "redirected to: %s" [redirectURL])
                           end)
                        (set_uuidCalls (S (uuidCalls s1)) s1)).
    { unfold oidcLoginHandler. fold providerID. fold txnID.
      unfold bind at 1. rewrite Hdebug.
      rewrite (eqb_empty_false Hp), (eqb_empty_false Ht).
      unfold bind at 1. rewrite Hget. rewrite Hcfg.
      unfold bind at 1. unfold uuid_New_String at 1.
      rewrite Hu1, Huc1, Hu0, Huc0. rewrite Hmarshal. reflexivity. }
    rewrite Hhead. clear Hhead.
    split.
    + intros st' Hput. unfold bind at 1, transientStore_Put at 1.
      cbn [transientStore set_uuidCalls]. rewrite Ht1, Ht0, Hput.
      unfold bind, modify, Debugf, Errorf.
      eexists. split; [reflexivity|].
      cbn [transientStore uuidCalls w set_w set_logs set_transientStore set_uuidCalls].
      split; [reflexivity|]. split; [rewrite Huc1, Huc0; reflexivity|].
      split; [apply http_Redirect_status; rewrite Hw1, Hw0; exact Hnone|].
      rewrite http_Redirect_Location, loginScopes_spec. reflexivity.
    + intros e Hput. unfold bind at 1, transientStore_Put at 1.
      cbn [transientStore set_uuidCalls]. rewrite Ht1, Ht0, Hput.
      run. eexists. split; [reflexivity|]. cbn.
      rewrite Ht1, Ht0. split; [reflexivity|].
      rewrite Hw1, Hw0. unfold WriteHeader. rewrite Hnone. reflexivity.
Qed.

(** C4, as amended.  GET /oidc/callback only reads the transient store:
    whatever the request and however far the handler gets, the store is
    afterwards what it was before, so every state value, the one just
    presented included, is looked up with the same result as before. *)
Theorem C4_callback_keeps_transient_record fuel o req s s' :
  oidcCallbackHandler env fuel o req s = Some (tt, s') ->
  transientStore s' = transientStore s /\
  forall state, store_Get (transientStore s') state = store_Get (transientStore s) state.
Proof.
  intros Hrun.
  assert (Hstore : transientStore s' = transientStore s);
    [|split; [exact Hstore|intros state; rewrite Hstore; reflexivity]].
  revert Hrun. unfold oidcCallbackHandler.
  destruct (String.eqb (Get (Query req) "state") "").
  { run. intros Hrun; inversion Hrun; subst; reflexivity. }
  destruct (String.eqb (Get (Query req) "code") "").
  { run. intros Hrun; inversion Hrun; subst; reflexivity. }
  unfold bind at 1, transientStore_Get, gets.
  destruct (store_Get (transientStore s) (Get (Query req) "state")) as [dataBytes|e].
  2: { run. intros Hrun; inversion Hrun; subst; reflexivity. }
  destruct (Unmarshal env dec_oidcTransientData _ dataBytes) as [data|e].
  2: { run. intros Hrun; inversion Hrun; subst; reflexivity. }
  unfold bind at 1.
  destruct (getProvider env fuel o (Provider data) s) as [[pr s1]|] eqn:Hget;
    [|discriminate].
  destruct (getProvider_frame _ _ _ _ Hget) as (_ & _ & Ht1 & _).
  destruct pr as [provider|e].
  2: { run. intros Hrun; inversion Hrun; subst; exact Ht1. }
  destruct (Exchange provider _) as [oauthToken|e].
  2: { run. intros Hrun; inversion Hrun; subst; exact Ht1. }
  destruct (id_token oauthToken) as [rawIDToken|].
  2: { run. intros Hrun; inversion Hrun; subst; exact Ht1. }
  destruct (VerifyIDToken provider rawIDToken) as [oidcToken|e].
  2: { run. intros Hrun; inversion Hrun; subst; exact Ht1. }
  destruct (Claims_Sub oidcToken) as [sub|e].
  2: { run. intros Hrun; inversion Hrun; subst; exact Ht1. }
  unfold bind at 1, call.
  destruct (CompleteInteraction _ _ _ _) as [[[[interactRef responseHash] clientInteract]|e] a].
  2: { run. intros Hrun; inversion Hrun; subst; exact Ht1. }
  destruct (lib_url_with_query env _ _) as [redirect|e].
  2: { run. intros Hrun; inversion Hrun; subst; exact Ht1. }
  destruct (lib_template_ParseFiles env _) as [e|].
  { run. intros Hrun; inversion Hrun; subst; exact Ht1. }
  destruct (lib_template_Execute env _ _) as [e|];
    run; intros Hrun; inversion Hrun; subst; exact Ht1.
Qed.

(** What the writer holds after a continuation that the auth handler
    has turned down: it does not depend on the error. *)
Lemma authContinueHandler_denied o req s bytes cr e a :
  badTokHeader (tokHeader req) = false ->
  Body req = Readable bytes ->
  Unmarshal env dec_ContinueRequest zeroContinueRequest bytes = Ok cr ->
  HandleContinueRequest (authHandler o) cr (nth 1 (tokHeader req) "")
    (httpsig_NewVerifier (withBody req bytes)) (auth s) = (Err e, a) ->
  exists s',
    authContinueHandler env o req s = Some (tt, s') /\
    w s' = Write (WJSON denied)
             (Header_Set "Content-Type" "application/json"
                (WriteHeader StatusUnauthorized (w s))).
Proof.
  intros Hh Hb Hd Hc. unfold authContinueHandler.
  rewrite Hh, Hb. cbn [ReadAll]. rewrite Hd.
  unfold bind at 1. unfold call at 1. rewrite Hc.
  run. eexists. split; reflexivity.
Qed.

(** C2, as amended.  On POST /gnap/continue two requests that the auth
    handler turns down, for whatever reasons [e1] and [e2], leave equal
    response writers when they started from equal ones: status 401 and
    the body [{error: request_denied}].  GET /oidc/callback does not
    answer in that way: when the transient store does not yield the
    presented state, the answer is 400 with a plain-text message made
    from the store's error. *)
Theorem C2_continue_denials_are_uniform :
  (forall o1 o2 req1 req2 s1 s2 bytes1 bytes2 cr1 cr2 e1 e2 a1 a2,
     w s1 = w s2 -> status (w s1) = None ->
     badTokHeader (tokHeader req1) = false ->
     badTokHeader (tokHeader req2) = false ->
     Body req1 = Readable bytes1 -> Body req2 = Readable bytes2 ->
     Unmarshal env dec_ContinueRequest zeroContinueRequest bytes1 = Ok cr1 ->
     Unmarshal env dec_ContinueRequest zeroContinueRequest bytes2 = Ok cr2 ->
     HandleContinueRequest (authHandler o1) cr1 (nth 1 (tokHeader req1) "")
       (httpsig_NewVerifier (withBody req1 bytes1)) (auth s1) = (Err e1, a1) ->
     HandleContinueRequest (authHandler o2) cr2 (nth 1 (tokHeader req2) "")
       (httpsig_NewVerifier (withBody req2 bytes2)) (auth s2) = (Err e2, a2) ->
     exists s1' s2',
       authContinueHandler env o1 req1 s1 = Some (tt, s1') /\
       authContinueHandler env o2 req2 s2 = Some (tt, s2') /\
       w s1' = w s2' /\
       answered StatusUnauthorized denied s1 s1') /\
  (forall fuel o req s e,
     status (w s) = None ->
     Get (Query req) "state" <> "" -> Get (Query req) "code" <> "" ->
     store_Get (transientStore s) (Get (Query req) "state") = Err e ->
     exists s',
       oidcCallbackHandler env fuel o req s = Some (tt, s') /\
       answered_text StatusBadRequest
         (lib_Sprintf env
            (lib_Sprintf env "failed to get state data to transient store: %s" [e]) [])
         s s').
Proof.
  split.
  - intros o1 o2 req1 req2 s1 s2 bytes1 bytes2 cr1 cr2 e1 e2 a1 a2
           Hw Hnone Hh1 Hh2 Hb1 Hb2 Hd1 Hd2 Hc1 Hc2.
    destruct (authContinueHandler_denied o1 req1 s1 Hh1 Hb1 Hd1 Hc1) as (s1' & Hrun1 & Hw1).
    destruct (authContinueHandler_denied o2 req2 s2 Hh2 Hb2 Hd2 Hc2) as (s2' & Hrun2 & Hw2).
    exists s1', s2'. split; [exact Hrun1|]. split; [exact Hrun2|].
    split; [rewrite Hw1, Hw2, Hw; reflexivity|].
    apply answered_after_WriteHeader; [exact Hnone|exact Hw1].
  - intros fuel o req s e Hnone Hstate Hcode Hget.
    unfold oidcCallbackHandler.
    rewrite (eqb_empty_false Hstate), (eqb_empty_false Hcode).
    unfold bind at 1, transientStore_Get, gets. rewrite Hget.
    run. eexists. split; [reflexivity|].
    apply answered_text_after_WriteHeader; [exact Hnone|reflexivity].
Qed.

(** *** Decoders and their context *)

Lemma agree_refl {T} (r : stored T) : agree r r.
Proof. destruct r as [[v saved]|e]; cbn; tauto. Qed.

Lemma agree_saveError {T} (v : T) e1 e2 : agree (saveError v e1) (saveError v e2).
Proof. cbn. split; [reflexivity|]. split; discriminate. Qed.

Lemma agree_sbind {A B} (r1 r2 : stored A) (k1 k2 : A -> stored B) :
  agree r1 r2 -> (forall a, agree (k1 a) (k2 a)) -> agree (sbind r1 k1) (sbind r2 k2).
Proof.
  intros Hr Hk. destruct r1 as [[a1 sv1]|e1], r2 as [[a2 sv2]|e2]; cbn in Hr |- *;
    try contradiction; [|exact Hr].
  destruct Hr as [<- Hsv]. specialize (Hk a1).
  destruct (k1 a1) as [[b1 sv1']|e1'], (k2 a1) as [[b2 sv2']|e2']; cbn in Hk |- *;
    try contradiction; [|exact Hk].
  destruct Hk as [<- Hsv']. split; [reflexivity|].
  destruct sv1, sv2, sv1', sv2'; intuition congruence.
Qed.

Lemma ctx_free_dec_string goType : ctx_free (dec_string goType).
Proof.
  intros c1 c2 j v. destruct j; cbv beta iota delta [dec_string];
    first [apply agree_refl|apply agree_saveError].
Qed.

Lemma ctx_free_dec_bool : ctx_free dec_bool.
Proof.
  intros c1 c2 j v. destruct j; cbv beta iota delta [dec_bool];
    first [apply agree_refl|apply agree_saveError].
Qed.

Lemma ctx_free_dec_raw : ctx_free dec_raw.
Proof. intros c1 c2 j v. apply agree_refl. Qed.

Lemma ctx_free_dec_ptr {T} (zero : T) (d : Decoder T) :
  ctx_free d -> ctx_free (dec_ptr zero d).
Proof.
  intros Hd c1 c2 j v. unfold dec_ptr.
  destruct j; try apply agree_refl;
    (apply agree_sbind; [apply Hd|intros a; apply agree_refl]).
Qed.

Lemma agree_dec_elems {T} (zero : T) (d : Decoder T) c1 c2 :
  ctx_free d ->
  forall js cur, agree (dec_elems zero d c1 js cur) (dec_elems zero d c2 js cur).
Proof.
  intros Hd. induction js as [|j js IH]; intros cur; [apply agree_refl|].
  cbn [dec_elems]. apply agree_sbind; [apply Hd|]. intros a.
  apply agree_sbind; [apply IH|]. intros l. apply agree_refl.
Qed.

Lemma ctx_free_dec_slice {T} goType (zero : T) (d : Decoder T) :
  ctx_free d -> ctx_free (dec_slice goType zero d).
Proof.
  intros Hd c1 c2 j v. unfold dec_slice.
  destruct j; try apply agree_refl; try apply agree_saveError.
  apply agree_sbind; [apply agree_dec_elems, Hd|intros l; apply agree_refl].
Qed.

Lemma ctx_free_dec_struct {T} goType structName
      (field : (string -> errorContext) -> string -> json -> T -> stored T) :
  (forall at1 at2 k v t, agree (field at1 k v t) (field at2 k v t)) ->
  ctx_free (dec_struct goType structName field).
Proof.
  intros Hfield c1 c2 j v. unfold dec_struct.
  destruct j; try apply agree_refl; try apply agree_saveError.
  assert (Hfold : forall ms acc1 acc2,
            agree acc1 acc2 ->
            agree (fold_left (fun acc kv =>
                                sbind acc (field (enter structName c1) (fst kv) (snd kv)))
                             ms acc1)
                  (fold_left (fun acc kv =>
                                sbind acc (field (enter structName c2) (fst kv) (snd kv)))
                             ms acc2)).
  { induction ms as [|kv ms IH]; intros acc1 acc2 Hacc; [exact Hacc|].
    cbn [fold_left]. apply IH. apply agree_sbind; [exact Hacc|]. intros a. apply Hfield. }
  apply Hfold, agree_refl.
Qed.

Ltac field_agree :=
  repeat match goal with
         | |- agree (if ?b then _ else _) (if ?b then _ else _) => destruct b
         | |- agree (sbind _ _) (sbind _ _) =>
             apply agree_sbind; [|intros ?; apply agree_refl]
         | |- agree (sret _) (sret _) => apply agree_refl
         end.

Lemma ctx_free_dec_TokenAccess : ctx_free dec_TokenAccess.
Proof.
  apply ctx_free_dec_struct. intros at1 at2 k v t. field_agree.
  - apply ctx_free_dec_bool.
  - apply ctx_free_dec_string.
  - apply ctx_free_dec_string.
  - apply ctx_free_dec_raw.
Qed.

Lemma ctx_free_dec_TokenRequest : ctx_free dec_TokenRequest.
Proof.
  apply ctx_free_dec_struct. intros at1 at2 k v t. field_agree.
  - apply ctx_free_dec_slice, ctx_free_dec_TokenAccess.
  - apply ctx_free_dec_string.
  - apply ctx_free_dec_slice, ctx_free_dec_string.
Qed.

(** A value that decodes without error on its own is stored without
    error in any context. *)
Lemma decode_in_context {T} (d : Decoder T) ctx j zero v :
  ctx_free d -> decode d j zero = Ok v -> d ctx j zero = Ok (v, None).
Proof.
  intros Hd. unfold decode. specialize (Hd noContext ctx j zero).
  destruct (d noContext j zero) as [[v1 [e1|]]|e1]; try discriminate.
  intros Hv; inversion Hv; subst.
  destruct (d ctx j zero) as [[v2 sv2]|e2]; cbn in Hd; [|contradiction].
  destruct Hd as [<- Hsv]. rewrite (proj1 Hsv eq_refl). reflexivity.
Qed.

(** C7.  What the decoder does with the two ways of writing one token
    request.  An object in [access_token] is a type error for the slice
    field, whatever the object holds, and [authRequestHandler] answers
    such a body with 400 [invalid_request] without calling the auth
    handler.  The array of one object decodes to the sequence of one
    token request.  When [access_token] is encoded it is an array. *)
Theorem C7_single_access_token_is_rejected :
  (forall jwk members r,
     decode (dec_AuthRequest jwk) (JObject [("access_token", JObject members)]) r
     = Err (UnmarshalTypeError
              {| ec_Struct := "AuthRequest"; FieldStack := ["access_token"] |}
              "object" "[]*gnap.TokenRequest")) /\
  (forall jwk members t,
     decode dec_TokenRequest (JObject members) zeroTokenRequest = Ok t ->
     decode (dec_AuthRequest jwk) (JObject [("access_token", JArray [JObject members])])
       zeroAuthRequest
     = Ok {| AccessToken := Some [Some t]; Client := None; Interact := None |}) /\
  (forall o req s bytes members,
     status (w s) = None ->
     Body req = Readable bytes ->
     lib_json_scan env bytes = Ok (JObject [("access_token", JObject members)]) ->
     exists s', authRequestHandler env o req s = Some (tt, s') /\
                answered StatusBadRequest invalid s s' /\ auth s' = auth s) /\
  (forall r j, enc_access_token r = Some j -> exists l, j = JArray l).
Proof.
  split; [|split; [|split]].
  - intros jwk members r. reflexivity.
  - intros jwk members t Hdec.
    pose proof (@decode_in_context _ dec_TokenRequest
                  (enter "AuthRequest" noContext "access_token")
                  (JObject members) zeroTokenRequest t ctx_free_dec_TokenRequest Hdec)
      as Hin.
    unfold decode, dec_AuthRequest, dec_struct.
    cbn -[dec_TokenRequest enter]. rewrite Hin. reflexivity.
  - intros o req s bytes members Hnone Hbody Hscan.
    destruct (authRequestHandler_cases o req s Hnone) as (s' & Hrun & Hcases).
    rewrite Hbody in Hcases. cbn [ReadAll] in Hcases.
    unfold Unmarshal in Hcases. rewrite Hscan in Hcases.
    exists s'. split; [exact Hrun|exact Hcases].
  - intros r j. unfold enc_access_token.
    destruct (Nat.eqb (len (AccessToken r)) 0) eqn:Hlen; [discriminate|].
    destruct (AccessToken r) as [l|]; [|discriminate].
    cbn. intros Hj; inversion Hj. eauto.
Qed.

End Properties.

(** ** The statements at work on the stand-ins *)

Lemma recorder_strict_same_off_skipVerify :
  same_off_skipVerify Doubles.recorder Doubles.strict.
Proof.
  repeat split; intros; destruct v; try reflexivity; contradiction.
Qed.

(** The routes behave the same under the two stand-in auth handlers, which
    differ on the bypass verifier only. *)
Lemma C1_witness :
  Forall2 (fun h h' => Path h = Path h' /\ Method_ h = Method_ h' /\
                       forall req s, Handle h req s = Handle h' req s)
          (GetRESTHandlers Doubles.env 4 (Doubles.operation 3))
          (GetRESTHandlers Doubles.env 4
             (with_authHandler Doubles.strict (Doubles.operation 3))).
Proof.
  apply (proj1 (proj2 (proj2
           (C1_bypass_verifier_scoped (list string) (Sto := gmap string string)
              Doubles.env))) 4 (Doubles.operation 3) Doubles.strict).
  exact recorder_strict_same_off_skipVerify.
Defined.

(** A replayed token and an unknown token are answered alike. *)
Lemma C2_witness :
  exists s1' s2',
    authContinueHandler Doubles.env (Doubles.operation 3) Doubles.continueRequest
      Doubles.usedWorld = Some (tt, s1') /\
    authContinueHandler Doubles.env (Doubles.operation 3) Doubles.strangerRequest
      (Doubles.world Doubles.online ∅) = Some (tt, s2') /\
    w s1' = w s2' /\
    answered StatusUnauthorized denied Doubles.usedWorld s1'.
Proof.
  apply (proj1 (C2_continue_denials_are_uniform (list string)
                  (Sto := gmap string string) Doubles.env)
           (Doubles.operation 3) (Doubles.operation 3)
           Doubles.continueRequest Doubles.strangerRequest
           Doubles.usedWorld (Doubles.world Doubles.online ∅)
           "CONTINUE-ref-1" "CONTINUE-ref-1"
           {| InteractRef := "ref-1" |} {| InteractRef := "ref-1" |}
           "continue token already used" "unknown continue token"
           ["tok-1"] []);
    reflexivity.
Defined.

(** A callback with a state that the transient store does not hold is
    answered 400 with the store's error in a plain-text body, not with
    [request_denied]. *)
Lemma C2_unknown_state_not_request_denied :
  exists s',
    oidcCallbackHandler Doubles.env 4 (Doubles.operation 3) Doubles.callbackRequest
      (Doubles.world Doubles.online ∅) = Some (tt, s') /\
    status (w s') = Some StatusBadRequest /\
    body (w s') = [WText "failed to get state data to transient store: data not found"] /\
    body (w s') <> [WJSON denied].
Proof.
  eexists. split; [vm_compute; reflexivity|].
  split; [reflexivity|]. split; [reflexivity|]. discriminate.
Qed.

(** A continuation with the token [tok-1] and a body that decodes is
    answered 200 with the response of the auth handler. *)
Lemma C3_witness :
  exists s',
    authContinueHandler Doubles.env (Doubles.operation 3) Doubles.continueRequest
      (Doubles.world Doubles.online ∅) = Some (tt, s') /\
    answered StatusOK (VAuthResponse Doubles.someAuthResponse)
      (Doubles.world Doubles.online ∅) s'.
Proof.
  destruct (C3_error_table Doubles.env (Doubles.operation 3) Doubles.continueRequest
              (Doubles.world Doubles.online ∅) eq_refl)
    as (_ & _ & (s' & Hrun & Hrow) & _).
  exists s'. split; [exact Hrun|exact Hrow].
Defined.

(** A request to /gnap/continue whose body cannot be read and which has
    no [Authorization] header is answered 401, not 500. *)
Lemma C3_unreadable_body_without_header_is_401 :
  ReadAll (Body Doubles.cutOffRequest) = Err "unexpected EOF" /\
  exists s',
    authContinueHandler Doubles.env (Doubles.operation 3) Doubles.cutOffRequest
      (Doubles.world Doubles.online ∅) = Some (tt, s') /\
    status (w s') = Some StatusUnauthorized /\
    status (w s') <> Some StatusInternalServerError.
Proof.
  split; [reflexivity|].
  eexists. split; [vm_compute; reflexivity|].
  split; [reflexivity|]. discriminate.
Qed.

(** A callback for the state of an earlier login leaves the record of
    that login in the store. *)
Lemma C4_witness :
  exists s',
    oidcCallbackHandler Doubles.env 4 (Doubles.operation 3) Doubles.callbackRequest
      (Doubles.world Doubles.online Doubles.oneLogin) = Some (tt, s') /\
    store_Get (transientStore s') "state-" = Ok "TRANSIENT-p1-t1".
Proof.
  destruct (oidcCallbackHandler Doubles.env 4 (Doubles.operation 3)
              Doubles.callbackRequest (Doubles.world Doubles.online Doubles.oneLogin))
    as [[[] s']|] eqn:Hrun; [|vm_compute in Hrun; discriminate].
  exists s'. split; [reflexivity|].
  rewrite (proj2 (C4_callback_keeps_transient_record Doubles.env 4 (Doubles.operation 3)
                    Doubles.callbackRequest _ Hrun) "state-").
  reflexivity.
Defined.

(** Two callbacks with the same state: the first gets past the lookup and
    completes; the record is still in the store afterwards, and the second
    callback completes in the same way. *)
Lemma C4_second_callback_succeeds :
  match oidcCallbackHandler Doubles.env 4 (Doubles.operation 3) Doubles.callbackRequest
          (Doubles.world Doubles.online Doubles.oneLogin) with
  | None => False
  | Some (_, s1) =>
      body (w s1) = [WTemplate "closepopup.html"
                       "https://client.example/finish?hash=hash-1&interact_ref=ref-1"] /\
      store_Get (transientStore s1) "state-" = Ok "TRANSIENT-p1-t1" /\
      match oidcCallbackHandler Doubles.env 4 (Doubles.operation 3)
              Doubles.callbackRequest (Doubles.next s1) with
      | None => False
      | Some (_, s2) => status (w s2) = Some StatusOK /\ body (w s2) = body (w s1)
      end
  end.
Proof. vm_compute. repeat split. Qed.

(** A first-time initialization on a network that answers. *)
Lemma C5_witness :
  exists r s',
    getProvider Doubles.env 4 (Doubles.operation 3) "p1"
      (Doubles.world Doubles.online ∅) = Some (r, s') /\
    cachedOIDCProvLock s' = unlocked /\
    Forall disciplined (held_at unlocked (events s')).
Proof.
  destruct (getProvider Doubles.env 4 (Doubles.operation 3) "p1"
              (Doubles.world Doubles.online ∅))
    as [[r s']|] eqn:Hrun; [|vm_compute in Hrun; discriminate].
  destruct (C5_provider_cache_locking Doubles.env 4 (Doubles.operation 3) "p1"
              (Doubles.world Doubles.online ∅) eq_refl Hrun)
    as (net & stored & Hev & _ & _ & Hdisc & _ & Hfree).
  exists r, s'. split; [reflexivity|]. split; [exact Hfree|].
  rewrite Hev. exact Hdisc.
Defined.

(** The trace of that initialization: the network is called after the
    read lock has been released and before the write lock is taken, with
    the lock free, and the cache is read once only. *)
Lemma C5_initialization_outside_write_lock :
  match getProvider Doubles.env 4 (Doubles.operation 3) "p1"
          (Doubles.world Doubles.online ∅) with
  | None => False
  | Some (r, s') =>
      is_ok r = true /\
      events s' = [EvRLock; EvCacheRead "p1"; EvRUnlock;
                   EvNewProvider "https://idp.example";
                   EvLock; EvCacheWrite "p1"; EvUnlock] /\
      nth_error (held_at unlocked (events s')) 3
      = Some (unlocked, EvNewProvider "https://idp.example") /\
      writer unlocked = false
  end.
Proof. vm_compute. repeat split. Qed.

(** The recording auth handler, behind /gnap/auth, sees the empty token. *)
Lemma C6_witness :
  exists s',
    authRequestHandler Doubles.env (Doubles.operation 3) Doubles.arrayFormRequest
      (Doubles.world Doubles.online ∅) = Some (tt, s') /\
    auth s' = [""].
Proof.
  destruct (proj1 (C6_auth_request_passes_empty_token Doubles.env (Doubles.operation 3)
                     Doubles.arrayFormRequest (Doubles.world Doubles.online ∅))
              "ARRAY-FORM"
              {| AccessToken := Some [Some Doubles.photoRequest];
                 Client := None; Interact := None |}
              eq_refl eq_refl)
    as (s' & Hrun & Hauth).
  exists s'. split; [exact Hrun|]. rewrite Hauth. reflexivity.
Defined.

(** No request to /gnap/auth makes the recording auth handler see a
    continuation token that is not empty. *)
Lemma C6_no_request_passes_a_token :
  ~ exists req (s s' : World (list string) string (gmap string string)) t,
      authRequestHandler Doubles.env (Doubles.operation 3) req s = Some (tt, s') /\
      auth s' = auth s ++ [t] /\ t <> "".
Proof.
  intros (req & s & s' & t & Hrun & Hauth & Hne).
  unfold authRequestHandler in Hrun.
  assert (Hstay : auth s' = auth s -> False).
  { intros Heq. rewrite Heq in Hauth.
    apply (f_equal (@length string)) in Hauth. rewrite length_app in Hauth.
    simpl in Hauth. lia. }
  destruct (ReadAll (Body req)) as [bytes|e].
  - destruct (Unmarshal Doubles.env _ zeroAuthRequest bytes) as [ar|e].
    + unfold bind, call, modify, writeResponse in Hrun. cbn in Hrun.
      inversion Hrun; subst. cbn in Hauth.
      apply app_inv_head in Hauth. inversion Hauth. congruence.
    + unfold bind, modify, writeResponse, Errorf in Hrun. cbn in Hrun.
      inversion Hrun; subst. apply Hstay. reflexivity.
  - unfold bind, modify, writeResponse, Errorf in Hrun. cbn in Hrun.
    inversion Hrun; subst. apply Hstay. reflexivity.
Qed.

(** The object form is refused with 400; the array form of the same token
    request decodes to one element. *)
Lemma C7_witness :
  (exists s',
     authRequestHandler Doubles.env (Doubles.operation 3) Doubles.singleFormRequest
       (Doubles.world Doubles.online ∅) = Some (tt, s') /\
     answered StatusBadRequest invalid (Doubles.world Doubles.online ∅) s' /\
     auth s' = []) /\
  decode (dec_AuthRequest (fun _ => None)) Doubles.arrayForm zeroAuthRequest
  = Ok {| AccessToken := Some [Some Doubles.photoRequest];
          Client := None; Interact := None |}.
Proof.
  destruct (C7_single_access_token_is_rejected (list string) (Sto := gmap string string)
              Doubles.env) as (_ & Harray & Hhandler & _).
  split.
  - apply (Hhandler (Doubles.operation 3) Doubles.singleFormRequest
             (Doubles.world Doubles.online ∅) "SINGLE-FORM"
             [("access", JArray [JObject [("type", JString "photo-api")]])]);
      reflexivity.
  - apply (Harray (fun _ => None)
             [("access", JArray [JObject [("type", JString "photo-api")]])]
             Doubles.photoRequest).
    reflexivity.
Defined.

(** A login for the configured provider [p1], which has no scopes of its
    own, on a network that answers. *)
Lemma C8_witness :
  (exists s',
     oidcLoginHandler Doubles.env 4 (Doubles.operation 3) Doubles.loginRequest
       (Doubles.world Doubles.online ∅) = Some (tt, s') /\
     transientStore s' = Doubles.oneLogin /\
     status (w s') = Some StatusFound /\
     Get (header (w s')) "Location"
     = "https://idp.example/authorize?scope=openid profile email&state=state-&provider=p1") /\
  (exists s',
     oidcLoginHandler Doubles.env 4 (Doubles.operation 3) Doubles.loginRequest
       (Doubles.world Doubles.offline ∅) = Some (tt, s') /\
     status (w s') = Some StatusBadRequest /\
     transientStore s' = ∅ /\ uuidCalls s' = 0).
Proof.
  split.
  - destruct (getProvider Doubles.env 4 (Doubles.operation 3) "p1"
                (set_logs (fun l => l ++ ["handling request: /"])
                   (Doubles.world Doubles.online ∅)))
      as [[[provider|e] s1]|] eqn:Hget;
      [|vm_compute in Hget; discriminate|vm_compute in Hget; discriminate].
    destruct (proj1 (proj2 (proj2 (C8_oidc_login (env := Doubles.env) 4 (Doubles.operation 3)
                                     Doubles.loginRequest
                                     (s := Doubles.world Doubles.online ∅) eq_refl eq_refl))
                       provider s1 Doubles.providerConfig "TRANSIENT-p1-t1"
                       ltac:(discriminate) ltac:(discriminate) Hget eq_refl eq_refl)
                Doubles.oneLogin eq_refl)
      as (s' & Hrun & Hstore & _ & Hstatus & Hloc).
    exists s'. split; [exact Hrun|]. split; [exact Hstore|]. split; [exact Hstatus|].
    rewrite Hloc. vm_compute in Hget. inversion Hget. reflexivity.
  - destruct (getProvider Doubles.env 4 (Doubles.operation 3) "p1"
                (set_logs (fun l => l ++ ["handling request: /"])
                   (Doubles.world Doubles.offline ∅)))
      as [[[provider|e] s1]|] eqn:Hget;
      [vm_compute in Hget; discriminate| |vm_compute in Hget; discriminate].
    destruct (proj1 (proj2 (C8_oidc_login (env := Doubles.env) 4 (Doubles.operation 3)
                              Doubles.loginRequest
                              (s := Doubles.world Doubles.offline ∅) eq_refl eq_refl))
                e s1 ltac:(discriminate) ltac:(discriminate) Hget)
      as (s' & Hrun & [Hstatus _] & Hstore & Huuid).
    exists s'. split; [exact Hrun|]. split; [exact Hstatus|].
    split; [exact Hstore|exact Huuid].
Defined.

(** GET /oidc/login for the configured provider [p1] and the transaction
    [t1], when discovery fails: the answer is 400, no state is drawn and
    nothing is stored. *)
Lemma C8_known_provider_unreachable_is_400 :
  oidcProvidersConfig (Doubles.operation 3) !! "p1" = Some Doubles.providerConfig /\
  match oidcLoginHandler Doubles.env 4 (Doubles.operation 3) Doubles.loginRequest
          (Doubles.world Doubles.offline ∅) with
  | Some (_, s') =>
      status (w s') = Some StatusBadRequest /\
      Get (header (w s')) "Location" = "" /\
      transientStore s' = ∅ /\ uuidCalls s' = 0
  | None => False
  end.
Proof. vm_compute. repeat split. Qed.

(** Three retries allowed, a network that refuses every call: four
    attempts, then the error. *)
Lemma C9_witness :
  exists r s',
    initOIDCProvider Doubles.env 4 (Doubles.operation 3) "p1" Doubles.providerConfig
      (Doubles.world Doubles.offline ∅) = Some (r, s') /\
    is_ok r = false /\ netCalls s' = 4.
Proof.
  destruct (C9_bounded_retry Doubles.env (fuel := 4) (Doubles.operation 3) "p1"
              Doubles.providerConfig (Doubles.world Doubles.offline ∅)
              eq_refl (le_n 4))
    as (r & s' & retries & Hrun & _ & Hfr & _ & _ & Hlast & Hall).
  assert (Hr : is_ok r = false) by (apply Hall; intros i _; reflexivity).
  exists r, s'. split; [exact Hrun|]. split; [exact Hr|].
  destruct Hfr as (_ & _ & _ & _ & _ & _ & _ & _ & _ & Hnet).
  rewrite Hnet, (Hlast Hr). reflexivity.
Defined.

(** A count of zero, a network that refuses every call: no amount of fuel
    sees [initOIDCProvider] return. *)
Lemma C9_zero_count_retries_without_end :
  ~ exists fuel r,
      initOIDCProvider Doubles.env fuel (Doubles.operation 0) "p1" Doubles.providerConfig
        (Doubles.world Doubles.offline ∅) = Some r.
Proof.
  intros (fuel & r & Hrun).
  unfold initOIDCProvider, RetryNotify in Hrun.
  change (Reset (WithMaxRetries (NewConstantBackOff Second) (timeout (Doubles.operation 0))))
    with (retryPolicy 0 0) in Hrun.
  rewrite retry_loop_unbounded in Hrun; [discriminate|].
  intros n. reflexivity.
Qed.

(** A continuation with [GNAP tok-1], and one with two spaces after GNAP. *)
Lemma C10_witness :
  (exists s',
     authContinueHandler Doubles.env (Doubles.operation 3) Doubles.continueRequest
       (Doubles.world Doubles.online ∅) = Some (tt, s') /\
     auth s' = ["tok-1"]) /\
  nth 1 (tokHeader Doubles.twoSpacesRequest) "" = "" /\
  (tokHeader Doubles.paddedRequest = ["GNAP"; "tok-1"] /\
   exists s',
     authContinueHandler Doubles.env (Doubles.operation 3) Doubles.paddedRequest
       (Doubles.world Doubles.online ∅) = Some (tt, s') /\
     auth s' = ["tok-1"]).
Proof.
  split; [|split].
  - destruct (C10_continue_token_is_second_component Doubles.env (Doubles.operation 3)
                Doubles.continueRequest (Doubles.world Doubles.online ∅) eq_refl)
      as (_ & _ & Hgood & _).
    destruct (Hgood eq_refl "CONTINUE-ref-1" {| InteractRef := "ref-1" |} eq_refl eq_refl)
      as (s' & Hrun & Hauth).
    exists s'. split; [exact Hrun|]. rewrite Hauth. reflexivity.
  - destruct (C10_continue_token_is_second_component Doubles.env (Doubles.operation 3)
                Doubles.twoSpacesRequest (Doubles.world Doubles.online ∅) eq_refl)
      as (_ & _ & _ & _ & Htwo & _).
    exact (proj1 (proj2 (Htwo "tok-1" eq_refl))).
  - destruct (C10_continue_token_is_second_component Doubles.env (Doubles.operation 3)
                Doubles.paddedRequest (Doubles.world Doubles.online ∅) eq_refl)
      as (_ & _ & _ & _ & _ & Hpadded).
    destruct (Hpadded 2 1 "tok-1" eq_refl ltac:(discriminate) eq_refl) as [Hth Hrun].
    split; [exact Hth|].
    destruct (Hrun "CONTINUE-ref-1" {| InteractRef := "ref-1" |} eq_refl eq_refl)
      as (s' & Hs & Hauth).
    exists s'. split; [exact Hs|]. rewrite Hauth. reflexivity.
Defined.

End Operations.

(** * Further properties of the operations *)
Module Extras.
Import JSON Models Backoff Operations GoStrings GoStringsFacts.

#[local] Arguments http_Redirect : simpl never.

(** ** Encoding and decoding *)

(** Decoding what the handler of /oidc/login encodes gives the record
    back, empty fields included. *)
Lemma oidcTransientData_round_trip (d : oidcTransientData) :
  decode dec_oidcTransientData (enc_oidcTransientData d) {| Provider := ""; TxnID := "" |}
  = Ok d.
Proof.
  destruct d as [p t]. unfold enc_oidcTransientData. cbn [Provider TxnID].
  destruct (String.eqb_spec p ""), (String.eqb_spec t ""); subst; reflexivity.
Qed.

Ltac eval_names :=
  repeat match goal with
         | |- context [names ?k ?f] =>
             let b := eval vm_compute in (names k f) in
             change (names k f) with b
         end.

Lemma dec_elems_round_trip {T} (zero : T) (d : Decoder T) ctx (enc : T -> json)
      (l : list T) :
  Forall (fun x => d ctx (enc x) zero = Ok (x, None)) l ->
  dec_elems zero d ctx (map enc l) [] = Ok (l, None).
Proof.
  induction 1 as [|x l Hx _ IH]; [reflexivity|].
  cbn [map dec_elems hd tl]. rewrite Hx. cbn [sbind]. rewrite IH. reflexivity.
Qed.

Lemma TokenAccess_round_trip ctx (a : TokenAccess) :
  Raw a <> None -> dec_TokenAccess ctx (enc_TokenAccess a) zeroTokenAccess = Ok (a, None).
Proof.
  destruct a as [isRef ref type raw]. cbn [Raw]. intros Hraw.
  destruct raw as [j|]; [reflexivity|congruence].
Qed.

Lemma TokenRequest_round_trip ctx (t : TokenRequest) :
  Forall (fun a => Raw a <> None) (elems (Access t)) ->
  Flags t <> Some [] ->
  dec_TokenRequest ctx (enc_TokenRequest t) zeroTokenRequest = Ok (t, None).
Proof.
  destruct t as [access label flags]. cbn [Access Flags elems]. intros Hacc Hflags.
  assert (Haccess : forall c,
    dec_slice "[]gnap.TokenAccess" zeroTokenAccess dec_TokenAccess c
      (enc_slice enc_TokenAccess access) None = Ok (access, None)).
  { intros c. destruct access as [l|]; [|reflexivity]. cbn [enc_slice dec_slice elems].
    rewrite (@dec_elems_round_trip _ zeroTokenAccess dec_TokenAccess c enc_TokenAccess l);
      [reflexivity|].
    eapply Forall_impl; [exact Hacc|]. intros a Ha. apply TokenAccess_round_trip, Ha. }
  assert (Hfl : forall c l,
    dec_slice "[]gnap.AccessFlag" "" (dec_string "gnap.AccessFlag") c
      (enc_slice JString (Some l)) None = Ok (Some l, None)).
  { intros c l. cbn [enc_slice dec_slice elems].
    rewrite (@dec_elems_round_trip _ "" (dec_string "gnap.AccessFlag") c JString l);
      [reflexivity|].
    apply Forall_forall. reflexivity. }
  unfold enc_TokenRequest, dec_TokenRequest, dec_struct.
  cbn [Access Label Flags].
  destruct (String.eqb_spec label "") as [->|Hl];
    (destruct flags as [[|f fl]|]; [congruence| |]);
    cbn -[dec_slice enc_slice names enter]; eval_names;
    cbn -[dec_slice enc_slice names enter]; rewrite Haccess;
    cbn -[dec_slice enc_slice names enter]; rewrite ?Hfl; reflexivity.
Qed.

Section Adapter.

Variables AuthSt oidc_Provider tls_Config : Type.
Variable accesspolicy_Config : Type.
Context {Sto : Type} `{Store Sto}.
Variable env : Env oidc_Provider tls_Config.

Implicit Types (o : Operation AuthSt tls_Config) (req : Request).
Implicit Types (s : World AuthSt oidc_Provider Sto).

Ltac run :=
  unfold bind, modify, ret, gets, call, writeResponse, writeErrorResponse,
    Errorf, Debugf; simpl.

(** X2.  Given that the scanner reads back the value the encoder wrote:
    the bytes that [json.Marshal] writes for the [access_token] member of
    an [AuthRequest] are decoded by [json.Unmarshal] into the same slice,
    nil entries included, when every [Raw] of the token requests is set
    and no [Flags] is an empty slice that is not nil.  (A nil [Raw] comes
    back as the text [null], an empty [Flags] as nil.)  A [Raw] is
    compared as the value its bytes denote: the encoder compacts and
    escapes the bytes of a raw message. *)
Theorem access_token_round_trip (r : AuthRequest) (j : json) :
  enc_access_token r = Some j ->
  (forall t, Some t ∈ elems (AccessToken r) ->
     Forall (fun a => Raw a <> None) (elems (Access t)) /\ Flags t <> Some []) ->
  (forall bytes,
     lib_json_Marshal env (JObject [("access_token", j)]) = Ok bytes ->
     lib_json_scan env bytes = Ok (JObject [("access_token", j)])) ->
  forall bytes,
    lib_json_Marshal env (JObject [("access_token", j)]) = Ok bytes ->
    Unmarshal env (dec_AuthRequest (lib_jwkUnmarshalJSON env)) zeroAuthRequest bytes
    = Ok {| AccessToken := AccessToken r; Client := None; Interact := None |}.
Proof.
  unfold enc_access_token. destruct r as [tokens client interact]. cbn [AccessToken].
  destruct tokens as [l|]; [|discriminate]. cbn [len elems].
  destruct (Nat.eqb (length l) 0); [discriminate|].
  intros Hj Hnormal Hscan bytes Hbytes. inversion Hj; subst; clear Hj.
  unfold Unmarshal. rewrite (Hscan bytes Hbytes). cbn [rbind].
  unfold decode, dec_AuthRequest, dec_struct.
  cbn -[dec_elems enc_TokenRequestPtr dec_ptr enter].
  rewrite (@dec_elems_round_trip _ None (dec_ptr zeroTokenRequest dec_TokenRequest)
             (enter "AuthRequest" noContext "access_token")
             enc_TokenRequestPtr l); [reflexivity|].
  apply Forall_forall. intros [t|] Hin; [|reflexivity].
  destruct (Hnormal t Hin) as [Hacc Hflags].
  unfold dec_ptr, enc_TokenRequestPtr. cbn [default].
  rewrite (TokenRequest_round_trip _ t Hacc Hflags).
  unfold enc_TokenRequest. reflexivity.
Qed.

(** ** The [Authorization] header of /gnap/continue *)

(** X1.  Which headers [authContinueHandler] lets through, told of the
    header as it arrives: exactly those made of any number of spaces,
    GNAP, one space, a rest that is not empty and does not end in a
    space, and any number of spaces.  For such a header the token handed
    to [HandleContinueRequest] is what stands in the rest before its
    first space; every other header is answered 401 [request_denied]
    without the auth handler being called. *)
Theorem continue_header_accepted_iff o req s :
  status (w s) = None ->
  let header := Get (Header req) "Authorization" in
  let wellFormed :=
    exists (a b : nat) rest,
      header = spaces a +:+ ("GNAP " +:+ rest) +:+ spaces b /\
      rest <> "" /\ last_is_space rest = false in
  (badTokHeader (tokHeader req) = false <-> wellFormed) /\
  (forall (a b : nat) rest bytes cr,
     header = spaces a +:+ ("GNAP " +:+ rest) +:+ spaces b ->
     rest <> "" -> last_is_space rest = false ->
     Body req = Readable bytes ->
     Unmarshal env dec_ContinueRequest zeroContinueRequest bytes = Ok cr ->
     exists s',
       authContinueHandler env o req s = Some (tt, s') /\
       auth s' = snd (HandleContinueRequest (authHandler o) cr (hd "" (Split rest))
                        (httpsig_NewVerifier (withBody req bytes)) (auth s))) /\
  (~ wellFormed ->
   exists s',
     authContinueHandler env o req s = Some (tt, s') /\
     answered StatusUnauthorized denied s s' /\ auth s' = auth s).
Proof.
  intros Hnone header wellFormed.
  assert (Hpadded : forall (a b : nat) rest,
            header = spaces a +:+ ("GNAP " +:+ rest) +:+ spaces b ->
            rest <> "" -> last_is_space rest = false ->
            tokHeader req = "GNAP" :: Split rest).
  { intros a b rest Hh Hne Hlast. unfold tokHeader. fold header.
    rewrite Hh, (Trim_padded a b Hne Hlast). apply Split_GNAP. }
  assert (Hiff : badTokHeader (tokHeader req) = false <-> wellFormed).
  { split.
    - intros Hok. apply badTokHeader_false in Hok. destruct Hok as [Hlen Hfirst].
      unfold tokHeader in Hlen, Hfirst. fold header in Hlen, Hfirst.
      destruct (Trim_decompose header) as (a & b & Hdec).
      pose proof (TrimRight_not_last_space (TrimLeft header)) as Hlast.
      fold (Trim header) in Hlast.
      destruct (Split (Trim header)) as [|x [|y l]] eqn:Hs; simpl in Hlen; try lia.
      simpl in Hfirst. subst x.
      assert (Htrim : Trim header = "GNAP " +:+ Join (y :: l)).
      { rewrite <- (Join_Split (Trim header)), Hs. reflexivity. }
      assert (Hne : Join (y :: l) <> "").
      { intros Hempty. rewrite Htrim, Hempty in Hlast. discriminate. }
      exists a, b, (Join (y :: l)). split; [rewrite <- Htrim; exact Hdec|].
      split; [exact Hne|].
      rewrite Htrim in Hlast.
      rewrite (last_is_space_prefix "GNAP " Hne) in Hlast. exact Hlast.
    - intros (a & b & rest & Hh & Hne & Hlast).
      rewrite (Hpadded a b rest Hh Hne Hlast). apply badTokHeader_false.
      destruct (Split rest) as [|x l] eqn:Hr; [destruct (Split_not_nil rest Hr)|].
      simpl. split; [lia|reflexivity]. }
  destruct (authContinueHandler_cases env o req s Hnone) as (s' & Hrun & Hcases).
  split; [exact Hiff|]. split.
  - intros a b rest bytes cr Hh Hne Hlast Hbody Hdec.
    assert (Hok : badTokHeader (tokHeader req) = false)
      by (apply Hiff; exists a, b, rest; auto).
    rewrite Hok, Hbody in Hcases. cbn [ReadAll] in Hcases. rewrite Hdec in Hcases.
    rewrite (Hpadded a b rest Hh Hne Hlast) in Hcases.
    exists s'. split; [exact Hrun|].
    destruct (Split rest); exact (proj1 Hcases).
  - intros Hbad.
    destruct (badTokHeader (tokHeader req)) eqn:Hb.
    + exists s'. split; [exact Hrun|exact Hcases].
    + destruct (Hbad (proj1 Hiff eq_refl)).
Qed.

(** X3.  A header made of GNAP, one space and a token without spaces, with any
    number of spaces before and after, has exactly the two components GNAP
    and the token, and the token reaches [HandleContinueRequest] as it is. *)
Theorem continue_padded_header o req s (a b : nat) (tok : string) :
  no_space tok = true -> tok <> "" ->
  Get (Header req) "Authorization" = spaces a +:+ ("GNAP " +:+ tok) +:+ spaces b ->
  tokHeader req = ["GNAP"; tok] /\
  forall bytes cr,
    Body req = Readable bytes ->
    Unmarshal env dec_ContinueRequest zeroContinueRequest bytes = Ok cr ->
    exists s',
      authContinueHandler env o req s = Some (tt, s') /\
      auth s' = snd (HandleContinueRequest (authHandler o) cr tok
                       (httpsig_NewVerifier (withBody req bytes)) (auth s)).
Proof.
  intros Hns Hne Hhdr.
  assert (Hth : tokHeader req = ["GNAP"; tok]).
  { unfold tokHeader. rewrite Hhdr, (Trim_padded_GNAP a b Hns Hne), Split_GNAP.
    rewrite (Split_no_space _ Hns). reflexivity. }
  split; [exact Hth|].
  intros bytes cr Hbody Hdec. unfold authContinueHandler.
  rewrite Hth. cbn [badTokHeader length Nat.ltb Nat.leb nth orb negb String.eqb Ascii.eqb Bool.eqb].
  rewrite Hbody. cbn [ReadAll]. rewrite Hdec.
  run. destruct (HandleContinueRequest _ _ _ _ _) as [[resp|e] st]; run;
    eexists; split; reflexivity.
Qed.

Lemma authRequestHandler_frame o req s :
  exists s', authRequestHandler env o req s = Some (tt, s') /\ adapter_frame s s'.
Proof.
  unfold authRequestHandler.
  destruct (ReadAll (Body req)) as [bytes|e].
  - destruct (Unmarshal env _ zeroAuthRequest bytes) as [ar|e].
    + run. destruct (HandleAccessRequest _ _ _ _ _) as [[resp|e] st]; run;
        eexists; (split; [reflexivity|repeat split]).
    + run. eexists; (split; [reflexivity|repeat split]).
  - run. eexists; (split; [reflexivity|repeat split]).
Qed.

Lemma authContinueHandler_frame o req s :
  exists s', authContinueHandler env o req s = Some (tt, s') /\ adapter_frame s s'.
Proof.
  unfold authContinueHandler.
  destruct (badTokHeader (tokHeader req)).
  { run. eexists; (split; [reflexivity|repeat split]). }
  destruct (ReadAll (Body req)) as [bytes|e].
  - destruct (Unmarshal env _ zeroContinueRequest bytes) as [cr|e].
    + run. destruct (HandleContinueRequest _ _ _ _ _) as [[resp|e] st]; run;
        eexists; (split; [reflexivity|repeat split]).
    + run. eexists; (split; [reflexivity|repeat split]).
  - run. eexists; (split; [reflexivity|repeat split]).
Qed.

Lemma introspectHandler_frame o req s :
  exists s', introspectHandler env o req s = Some (tt, s') /\ adapter_frame s s'.
Proof.
  unfold introspectHandler.
  destruct (ReadAll (Body req)) as [bytes|e].
  - destruct (Unmarshal env _ zeroIntrospectRequest bytes) as [ir|e].
    + run. destruct (HandleIntrospection _ _ _ _) as [[resp|e] st]; run;
        eexists; (split; [reflexivity|repeat split]).
    + run. eexists; (split; [reflexivity|repeat split]).
  - run. eexists; (split; [reflexivity|repeat split]).
Qed.

(** X4.  The three GNAP endpoints always return, and whatever they answer they
    leave the transient store, the provider cache and its lock, the network
    and the UUID generator alone. *)
Theorem gnap_endpoints_frame o req s :
  (exists s', authRequestHandler env o req s = Some (tt, s') /\ adapter_frame s s') /\
  (exists s', authContinueHandler env o req s = Some (tt, s') /\ adapter_frame s s') /\
  (exists s', introspectHandler env o req s = Some (tt, s') /\ adapter_frame s s').
Proof.
  split; [|split].
  - apply authRequestHandler_frame.
  - apply authContinueHandler_frame.
  - apply introspectHandler_frame.
Qed.

(** X5.  GET /gnap/interact does not look at what [txnID] holds: when the UI
    address parses it answers 302, with [Location] set to what
    [http.Redirect] makes of the address of the sign-up page with the
    [txnID] of the query (empty if there is none): the target rewritten
    against the request path when it is relative, and escaped; to a GET
    whose response had no [Content-Type] the note with the link is
    written as the body, and nothing otherwise.  When the UI address does
    not parse the answer is 500.  Either way only the response and the log
    change. *)
Theorem interact_redirects_to_sign_up o req s :
  status (w s) = None ->
  exists s',
    interactHandler env o req s = Some (tt, s') /\
    only_answered s s' /\
    match lib_url_with_query env (uiEndpoint o +:+ "/sign-up")
            [(txnQueryParam, Get (Query req) txnQueryParam)] with
    | Ok redirURL =>
        status (w s') = Some StatusFound /\
        Get (header (w s')) "Location"
        = hexEscapeNonASCII (lib_http_Redirect_target env req redirURL) /\
        body (w s')
        = body (w s)
          ++ (if andb (negb (hasKey "Content-Type" (header (w s))))
                      (String.eqb (req_Method req) "GET")
              then [WRedirect (lib_http_Redirect_target env req redirURL)]
              else [])
    | Err _ =>
        answered_text StatusInternalServerError
          (lib_Sprintf env "failed to construct redirect url" []) s s'
    end.
Proof.
  intros Hnone. unfold interactHandler.
  destruct (lib_url_with_query env _ _) as [u|e].
  - unfold modify. eexists. split; [reflexivity|]. split; [repeat split|].
    cbn [w set_w].
    split; [apply http_Redirect_status; exact Hnone|].
    split; [apply http_Redirect_Location|apply http_Redirect_body].
  - run. eexists. split; [reflexivity|]. split; [repeat split|].
    apply answered_text_after_WriteHeader; [exact Hnone|reflexivity].
Qed.

(** ** [New] *)

Variable authhandler_New :
  authhandler_Config AuthSt accesspolicy_Config (Sto := Sto) -> result (AuthHandler AuthSt).

(** The configuration [New] gives to [authhandler.New]. *)
Local Abbreviation authConfig config :=
  {| ah_StoreProvider := StoreProvider config;
     ah_AccessPolicyConfig := AccessPolicyConfig config;
     ContinuePath := BaseURL config +:+ "/gnap/continue";
     ah_InteractionHandler := cfg_InteractionHandler config;
     DisableHTTPSig := DisableHTTPSigVerify config |}.

(** X6.  When [New] returns an error: with a configuration that has its OIDC
    part, [New] fails with the error of [authhandler.New], passed on as it
    is, or, when the auth handler could be made, with the error of opening
    the store [gnap_transient], wrapped twice.  Without the OIDC part [New]
    does not return at all. *)
Theorem New_errors (config : Config AuthSt tls_Config accesspolicy_Config) (e : string) :
  (OIDC config = None -> New env authhandler_New config = None) /\
  (New env authhandler_New config = Some (Err e) <->
   OIDC config <> None /\
   (authhandler_New (authConfig config) = Err e \/
    exists auth e0,
      authhandler_New (authConfig config) = Ok auth /\
      OpenStore (TransientStoreProvider config) "gnap_transient" = Err e0 /\
      e = lib_Sprintf env "failed to create transient store: %w"
            [lib_Sprintf env "failed to open store [%s] : %w" ["gnap_transient"; e0]])).
Proof.
  unfold New, createStore. split.
  - intros Hnil. rewrite Hnil. reflexivity.
  - destruct (OIDC config) as [oidc|]; [|split; [discriminate|intros [Hc _]; congruence]].
    change (BaseURL config +:+ AuthContinuePath) with (BaseURL config +:+ "/gnap/continue").
    change transientStoreName with "gnap_transient".
    destruct (authhandler_New _) as [auth|e1].
    + destruct (OpenStore _ _) as [st|e0].
      * split; [discriminate|]. intros [_ [Hc|(a & e' & _ & Hc & _)]]; discriminate.
      * split.
        -- intros Heq. inversion Heq; subst. split; [discriminate|].
           right. exists auth, e0. auto.
        -- intros [_ [Hc|(a & e' & _ & Hc & He)]]; [discriminate|].
           inversion Hc; subst. reflexivity.
    + split.
      * intros Heq. inversion Heq; subst. split; [discriminate|]. left. reflexivity.
      * intros [_ [Hc|(a & e' & Hc & _)]]; [inversion Hc; reflexivity|discriminate].
Qed.

Lemma map_fmap {A B} (f : A -> B) (l : list A) : map f l = f <$> l.
Proof. induction l as [|x l IH]; simpl; [reflexivity|]. rewrite IH. reflexivity. Qed.

(** X7.  What [New] builds: the auth handler that [authhandler.New] made for the
    continue address [BaseURL/gnap/continue], the opened transient store,
    an empty provider cache, the configured providers, an empty callback
    address (no statement of [New] sets it), and a catalogue with
    one entry for each configured provider and no other, which is what
    GET /oidc/providers then answers, with status 200, to any request. *)
Theorem New_builds (config : Config AuthSt tls_Config accesspolicy_Config) (b : Built AuthSt tls_Config) :
  New env authhandler_New config = Some (Ok b) ->
  exists oidc,
    OIDC config = Some oidc /\
    authhandler_New (authConfig config) = Ok (authHandler (built_operation b)) /\
    OpenStore (TransientStoreProvider config) "gnap_transient" = Ok (built_transientStore b) /\
    built_cachedOIDCProviders b = ∅ /\
    oidcProvidersConfig (built_operation b) = Providers oidc /\
    timeout (built_operation b) = StartupTimeout config /\
    callbackURL (built_operation b) = "" /\
    (forall p, p ∈ authProviders (built_operation b) <->
               exists id cfg, Providers oidc !! id = Some cfg /\ p = catalogueEntry (id, cfg)) /\
    NoDup (map ap_ID (authProviders (built_operation b))) /\
    length (authProviders (built_operation b)) = size (Providers oidc) /\
    (forall req s,
       status (w s) = None ->
       exists s',
         authProvidersHandler (oidc_Provider := oidc_Provider) (built_operation b) req s = Some (tt, s') /\
         answered StatusOK (VAuthProviders (authProviders (built_operation b))) s s' /\
         only_answered s s').
Proof.
  unfold New, createStore. intros Hnew.
  destruct (OIDC config) as [oidc|]; [|discriminate].
  change (BaseURL config +:+ AuthContinuePath) with (BaseURL config +:+ "/gnap/continue") in Hnew.
  change transientStoreName with "gnap_transient" in Hnew.
  destruct (authhandler_New _) as [auth|e1]; [|discriminate].
  destruct (OpenStore _ _) as [st|e0]; [|discriminate].
  inversion Hnew; subst; clear Hnew. cbn.
  exists oidc. repeat (split; [reflexivity|]).
  split; [|split; [|split]].
  - intros p. rewrite map_fmap, list_elem_of_fmap. split.
    + intros ([id cfg] & Hp & Hin). apply elem_of_map_to_list in Hin. eauto.
    + intros (id & cfg & Hin & Hp). exists (id, cfg). split; [exact Hp|].
      apply elem_of_map_to_list. exact Hin.
  - rewrite map_map. cbn. rewrite map_fmap. apply NoDup_fst_map_to_list.
  - rewrite length_map. apply length_map_to_list.
  - intros req s Hnone. unfold authProvidersHandler. run.
    eexists. split; [reflexivity|]. split; [|repeat split].
    apply answered_implicit_OK; [exact Hnone|reflexivity].
Qed.

(** ** The provider cache *)

Lemma getProvider_hit fuel o providerID s (p : oidcProvider) :
  cachedOIDCProvLock s = unlocked ->
  cachedOIDCProviders s !! providerID = Some p ->
  getProvider env fuel o providerID s
  = Some (Ok p, emit EvRUnlock (emit (EvCacheRead providerID) (emit EvRLock s))).
Proof.
  intros Hfree Hhit.
  unfold getProvider, bind, RLock, RUnlock, modify, gets, ret.
  rewrite Hfree. cbn -[initOIDCProvider]. rewrite Hhit. reflexivity.
Qed.

(** X8.  A cached provider is returned as it is, for any fuel and whether or not
    it is configured: three lock and lookup events, no network call, the
    cache unchanged. *)
Theorem getProvider_cache_hit fuel o providerID s (p : oidcProvider) :
  cachedOIDCProvLock s = unlocked ->
  cachedOIDCProviders s !! providerID = Some p ->
  exists s',
    getProvider env fuel o providerID s = Some (Ok p, s') /\
    events s' = events s ++ [EvRLock; EvCacheRead providerID; EvRUnlock] /\
    netCalls s' = netCalls s /\
    cachedOIDCProviders s' = cachedOIDCProviders s /\
    cachedOIDCProvLock s' = unlocked /\
    provider_frame s s'.
Proof.
  intros Hfree Hhit. eexists.
  split; [exact (@getProvider_hit fuel o providerID s p Hfree Hhit)|].
  cbn. rewrite Hfree, <- !app_assoc. repeat split.
Qed.

Lemma getProvider_caches fuel o providerID s (p : oidcProvider) s' :
  cachedOIDCProvLock s = unlocked ->
  getProvider env fuel o providerID s = Some (Ok p, s') ->
  cachedOIDCProviders s' !! providerID = Some p.
Proof.
  intros Hfree Hrun.
  destruct (getProvider_run env fuel o providerID s Hfree Hrun)
    as (_ & net & stored & _ & Hshape).
  destruct (cachedOIDCProviders s !! providerID) as [q|] eqn:Hc.
  { destruct Hshape as (Hq & _ & _ & ->). inversion Hq; subst. exact Hc. }
  destruct (oidcProvidersConfig o !! providerID) as [cfg|].
  - destruct Hshape as (n & _ & _ & ->). apply lookup_insert_eq.
  - destruct Hshape as (Hr & _). discriminate.
Qed.

(** X9.  What a run of [getProvider] does to the cache: the provider it returns
    is cached under the identifier asked for; a failure leaves the cache as
    it was; no other identifier is touched. *)
Theorem getProvider_cache_update fuel o providerID s r s' :
  cachedOIDCProvLock s = unlocked ->
  getProvider env fuel o providerID s = Some (r, s') ->
  (forall p, r = Ok p -> cachedOIDCProviders s' !! providerID = Some p) /\
  (is_ok r = false -> cachedOIDCProviders s' = cachedOIDCProviders s) /\
  (forall other, other <> providerID ->
     cachedOIDCProviders s' !! other = cachedOIDCProviders s !! other).
Proof.
  intros Hfree Hrun.
  destruct (getProvider_run env fuel o providerID s Hfree Hrun)
    as (_ & net & stored & _ & Hshape).
  destruct (cachedOIDCProviders s !! providerID) as [q|] eqn:Hc.
  { destruct Hshape as (-> & _ & _ & Hsame). rewrite Hsame.
    split; [intros p Hp; inversion Hp; subst; exact Hc|]. split; [discriminate|reflexivity]. }
  destruct (oidcProvidersConfig o !! providerID) as [cfg|].
  2: { destruct Hshape as (Herr & _ & _ & Hsame). rewrite Hsame.
       split; [intros p Hp; subst; discriminate|]. split; reflexivity. }
  destruct Hshape as (n & _ & Hr). destruct r as [p|e].
  - destruct Hr as [_ Hins]. rewrite Hins.
    split; [intros q Hq; inversion Hq; subst; apply lookup_insert_eq|].
    split; [discriminate|]. intros other Hne. apply lookup_insert_ne. congruence.
  - destruct Hr as [_ Hsame]. rewrite Hsame.
    split; [discriminate|]. split; reflexivity.
Qed.

(** X10.  Memoization: once [getProvider] has returned a provider, the next call
    for the same identifier returns the same provider, whatever its fuel,
    without calling the network. *)
Theorem getProvider_memoizes fuel fuel' o providerID s (p : oidcProvider) s1 :
  cachedOIDCProvLock s = unlocked ->
  getProvider env fuel o providerID s = Some (Ok p, s1) ->
  exists s2,
    getProvider env fuel' o providerID s1 = Some (Ok p, s2) /\
    netCalls s2 = netCalls s1 /\
    cachedOIDCProviders s2 = cachedOIDCProviders s1.
Proof.
  intros Hfree Hrun.
  destruct (getProvider_run env fuel o providerID s Hfree Hrun) as (Hfree1 & _).
  pose proof (@getProvider_caches fuel o providerID s p s1 Hfree Hrun) as Hcached.
  eexists. split; [exact (@getProvider_hit fuel' o providerID s1 p Hfree1 Hcached)|].
  split; reflexivity.
Qed.

(** X11.  A provider that is neither cached nor configured: [getProvider] returns
    the error [provider not supported] after the lookup alone, without a
    network call and without taking the write lock. *)
Theorem getProvider_unknown fuel o providerID s :
  cachedOIDCProvLock s = unlocked ->
  cachedOIDCProviders s !! providerID = None ->
  oidcProvidersConfig o !! providerID = None ->
  exists s',
    getProvider env fuel o providerID s
    = Some (Err (lib_Sprintf env "provider not supported: %s" [providerID]), s') /\
    events s' = events s ++ [EvRLock; EvCacheRead providerID; EvRUnlock] /\
    netCalls s' = netCalls s /\
    cachedOIDCProviders s' = cachedOIDCProviders s /\
    cachedOIDCProvLock s' = unlocked.
Proof.
  intros Hfree Hmiss Hcfg.
  unfold getProvider, bind, RLock, RUnlock, modify, gets, ret.
  rewrite Hfree. cbn -[initOIDCProvider]. rewrite Hmiss, Hcfg.
  eexists. split; [reflexivity|]. cbn. rewrite Hfree, <- !app_assoc.
  repeat split.
Qed.

(** ** GET /oidc/login *)

(** The world once the request has been logged. *)
Local Abbreviation logged req s :=
  (set_logs (fun l => l ++ [lib_Sprintf env "handling request: %s" [RequestURL req]]) s).

Ltac status_done Hnone :=
  cbn; unfold Write, WriteHeader; cbn; rewrite ?Hnone; cbn; rewrite ?Hnone; reflexivity.

(** Every run of [oidcLoginHandler], by the place where it ends. *)
Lemma oidcLoginHandler_cases fuel o req s s' :
  status (w s) = None ->
  oidcLoginHandler env fuel o req s = Some (tt, s') ->
  auth s' = auth s /\
  ((adapter_frame s s' /\ status (w s') = Some StatusBadRequest) \/
   exists pr s1,
     getProvider env fuel o (Get (Query req) providerQueryParam) (logged req s)
     = Some (pr, s1) /\
     cachedOIDCProviders s' = cachedOIDCProviders s1 /\
     cachedOIDCProvLock s' = cachedOIDCProvLock s1 /\
     events s' = events s1 /\ netCalls s' = netCalls s1 /\
     (((status (w s') = Some StatusBadRequest \/
        status (w s') = Some StatusInternalServerError) /\
       transientStore s' = transientStore s) \/
      (status (w s') = Some StatusFound /\ is_ok pr = true /\
       exists dataBytes,
         lib_json_Marshal env
           (enc_oidcTransientData
              {| Provider := Get (Query req) providerQueryParam;
                 TxnID := Get (Query req) txnQueryParam |}) = Ok dataBytes /\
         store_Put (transientStore s) (uuid_New s (uuidCalls s)) dataBytes
         = Ok (transientStore s')))).
Proof.
  intros Hnone. unfold oidcLoginHandler.
  unfold bind at 1. unfold Debugf at 1, Errorf at 1, modify at 1.
  set (s0 := logged req s).
  destruct (String.eqb (Get (Query req) providerQueryParam) "").
  { run. intros Hrun; inversion Hrun; subst. split; [reflexivity|]. left.
    split; [repeat split|]. status_done Hnone. }
  destruct (String.eqb (Get (Query req) txnQueryParam) "").
  { run. intros Hrun; inversion Hrun; subst. split; [reflexivity|]. left.
    split; [repeat split|]. status_done Hnone. }
  unfold bind at 1.
  destruct (getProvider env fuel o _ s0) as [[pr s1]|] eqn:Hget; [|discriminate].
  destruct (getProvider_frame env _ _ _ _ Hget) as (Hw1 & Ha1 & Ht1 & _ & Hu1 & Huc1).
  assert (Hnone1 : status (w s1) = None) by (rewrite Hw1; exact Hnone).
  destruct pr as [provider|e].
  2: { run. intros Hrun; inversion Hrun; subst. split; [exact Ha1|]. right.
       exists (Err e), s1. split; [reflexivity|]. repeat (split; [reflexivity|]).
       left. split; [|exact Ht1]. left. status_done Hnone1. }
  destruct (oidcProvidersConfig o !! _) as [cfg|].
  2: { run. intros Hrun; inversion Hrun; subst. split; [exact Ha1|]. right.
       exists (Ok provider), s1. split; [reflexivity|]. repeat (split; [reflexivity|]).
       left. split; [|exact Ht1]. right. status_done Hnone1. }
  unfold bind at 1. unfold uuid_New_String at 1.
  destruct (lib_json_Marshal env _) as [dataBytes|e] eqn:Hmarshal.
  2: { run. intros Hrun; inversion Hrun; subst. split; [exact Ha1|]. right.
       exists (Ok provider), s1. split; [reflexivity|]. repeat (split; [reflexivity|]).
       left. split; [|exact Ht1]. right. status_done Hnone1. }
  unfold bind at 1. unfold transientStore_Put at 1. cbn [transientStore set_uuidCalls].
  rewrite Hu1, Huc1, Ht1. change (uuid_New s0) with (uuid_New s).
  change (uuidCalls s0) with (uuidCalls s). change (transientStore s0) with (transientStore s).
  destruct (store_Put (transientStore s) _ dataBytes) as [st|e] eqn:Hput.
  - run. intros Hrun; inversion Hrun; subst. split; [exact Ha1|]. right.
    exists (Ok provider), s1. split; [reflexivity|]. repeat (split; [reflexivity|]).
    right. split.
    + cbn. apply http_Redirect_status. exact Hnone1.
    + split; [reflexivity|]. exists dataBytes. split; [reflexivity|exact Hput].
  - run. intros Hrun; inversion Hrun; subst. split; [exact Ha1|]. right.
    exists (Ok provider), s1. split; [reflexivity|]. repeat (split; [reflexivity|]).
    left. split; [|exact Ht1]. right. status_done Hnone1.
Qed.

(** X12.  GET /oidc/login answers 302, 400 or 500 and nothing else; it never
    calls the auth handler; it leaves the transient store as it was unless
    it answers 302, and then the store is the one the put of the new record
    under the new state has made. *)
Theorem login_stores_only_with_redirect fuel o req s s' :
  status (w s) = None ->
  oidcLoginHandler env fuel o req s = Some (tt, s') ->
  auth s' = auth s /\
  (status (w s') = Some StatusFound \/ status (w s') = Some StatusBadRequest \/
   status (w s') = Some StatusInternalServerError) /\
  (status (w s') <> Some StatusFound -> transientStore s' = transientStore s) /\
  (status (w s') = Some StatusFound ->
   exists dataBytes,
     lib_json_Marshal env
       (enc_oidcTransientData
          {| Provider := Get (Query req) providerQueryParam;
             TxnID := Get (Query req) txnQueryParam |}) = Ok dataBytes /\
     store_Put (transientStore s) (uuid_New s (uuidCalls s)) dataBytes
     = Ok (transientStore s')).
Proof.
  intros Hnone Hrun.
  destruct (oidcLoginHandler_cases fuel o req s Hnone Hrun) as (Hauth & Hcases).
  split; [exact Hauth|].
  destruct Hcases as [[(Hst & _) Hs]|(pr & s1 & _ & _ & _ & _ & _ & [[Hs Hst]|(Hs & _ & Hput)])].
  - rewrite Hs. split; [auto|]. split; [intros _; exact Hst|discriminate].
  - split; [destruct Hs as [-> | ->]; auto|].
    split; [intros _; exact Hst|]. destruct Hs as [-> | ->]; discriminate.
  - rewrite Hs. split; [auto|]. split; [congruence|intros _; exact Hput].
Qed.

(** ** GET /oidc/callback *)

(** Every run of [oidcCallbackHandler], step by step in the order of its
    checks; [s1] is the world after [getProvider]. *)
Lemma oidcCallbackHandler_cases fuel o req s s' :
  status (w s) = None ->
  oidcCallbackHandler env fuel o req s = Some (tt, s') ->
  transientStore s' = transientStore s /\ uuidCalls s' = uuidCalls s /\
  if String.eqb (Get (Query req) "state") "" then
    only_answered s s' /\ status (w s') = Some StatusBadRequest
  else if String.eqb (Get (Query req) "code") "" then
    only_answered s s' /\ status (w s') = Some StatusBadRequest
  else
  match store_Get (transientStore s) (Get (Query req) "state") with
  | Err _ => only_answered s s' /\ status (w s') = Some StatusBadRequest
  | Ok dataBytes =>
  match Unmarshal env dec_oidcTransientData {| Provider := ""; TxnID := "" |} dataBytes with
  | Err _ => only_answered s s' /\ status (w s') = Some StatusInternalServerError
  | Ok data =>
  exists pr s1,
    getProvider env fuel o (Provider data) s = Some (pr, s1) /\
    cachedOIDCProviders s' = cachedOIDCProviders s1 /\
    cachedOIDCProvLock s' = cachedOIDCProvLock s1 /\
    events s' = events s1 /\ netCalls s' = netCalls s1 /\
  match pr with
  | Err _ => auth s' = auth s /\ status (w s') = Some StatusBadRequest
  | Ok provider =>
  match Exchange provider (Get (Query req) "code") with
  | Err _ => auth s' = auth s /\ status (w s') = Some StatusBadGateway
  | Ok oauthToken =>
  match id_token oauthToken with
  | None => auth s' = auth s /\ status (w s') = Some StatusBadGateway
  | Some rawIDToken =>
  match VerifyIDToken provider rawIDToken with
  | Err _ => auth s' = auth s /\ status (w s') = Some StatusForbidden
  | Ok oidcToken =>
  match Claims_Sub oidcToken with
  | Err _ => auth s' = auth s /\ status (w s') = Some StatusInternalServerError
  | Ok sub =>
  let ra := CompleteInteraction (interactionHandler o) (TxnID data)
              {| cr_SubjectData := [("sub", sub)] |} (auth s) in
  auth s' = snd ra /\
  match fst ra with
  | Err _ => status (w s') = Some StatusInternalServerError
  | Ok (interactRef, responseHash, clientInteract) =>
  match lib_url_with_query env (URI (Finish clientInteract))
          [(interactRefQueryParam, interactRef); (responseHashQueryParam, responseHash)] with
  | Err _ => status (w s') = Some StatusBadRequest
  | Ok redirect =>
  match lib_template_ParseFiles env (closePopupHTML o) with
  | Some _ => status (w s') = Some StatusInternalServerError
  | None =>
      status (w s') = Some StatusOK /\
      body (w s') = body (w s) ++ [WTemplate (closePopupHTML o) redirect]
  end end end end end end end end end end.
Proof.
  intros Hnone. unfold oidcCallbackHandler.
  destruct (String.eqb (Get (Query req) "state") "").
  { run. intros Hrun; inversion Hrun; subst. repeat (split; [reflexivity|]).
    split; [repeat split|status_done Hnone]. }
  destruct (String.eqb (Get (Query req) "code") "").
  { run. intros Hrun; inversion Hrun; subst. repeat (split; [reflexivity|]).
    split; [repeat split|status_done Hnone]. }
  unfold bind at 1, transientStore_Get, gets.
  destruct (store_Get (transientStore s) (Get (Query req) "state")) as [dataBytes|e].
  2: { run. intros Hrun; inversion Hrun; subst. repeat (split; [reflexivity|]).
       split; [repeat split|status_done Hnone]. }
  destruct (Unmarshal env dec_oidcTransientData _ dataBytes) as [data|e].
  2: { run. intros Hrun; inversion Hrun; subst. repeat (split; [reflexivity|]).
       split; [repeat split|status_done Hnone]. }
  unfold bind at 1.
  destruct (getProvider env fuel o (Provider data) s) as [[pr s1]|] eqn:Hget;
    [|discriminate].
  destruct (getProvider_frame env _ _ _ _ Hget) as (Hw1 & Ha1 & Ht1 & _ & _ & Huc1).
  assert (Hnone1 : status (w s1) = None) by (rewrite Hw1; exact Hnone).
  destruct pr as [provider|e].
  2: { run. intros Hrun; inversion Hrun; subst. split; [exact Ht1|]. split; [exact Huc1|].
       exists (Err e), s1. repeat (split; [reflexivity|]).
       split; [exact Ha1|status_done Hnone1]. }
  destruct (Exchange provider _) as [oauthToken|e] eqn:Hex.
  2: { run. intros Hrun; inversion Hrun; subst. split; [exact Ht1|]. split; [exact Huc1|].
       exists (Ok provider), s1. repeat (split; [reflexivity|]). rewrite Hex.
       split; [exact Ha1|status_done Hnone1]. }
  destruct (id_token oauthToken) as [rawIDToken|] eqn:Hid.
  2: { run. intros Hrun; inversion Hrun; subst. split; [exact Ht1|]. split; [exact Huc1|].
       exists (Ok provider), s1. repeat (split; [reflexivity|]). rewrite Hex, Hid.
       split; [exact Ha1|status_done Hnone1]. }
  destruct (VerifyIDToken provider rawIDToken) as [oidcToken|e] eqn:Hv.
  2: { run. intros Hrun; inversion Hrun; subst. split; [exact Ht1|]. split; [exact Huc1|].
       exists (Ok provider), s1. repeat (split; [reflexivity|]). rewrite Hex, Hid, Hv.
       split; [exact Ha1|status_done Hnone1]. }
  destruct (Claims_Sub oidcToken) as [sub|e] eqn:Hcl.
  2: { run. intros Hrun; inversion Hrun; subst. split; [exact Ht1|]. split; [exact Huc1|].
       exists (Ok provider), s1. repeat (split; [reflexivity|]). rewrite Hex, Hid, Hv, Hcl.
       split; [exact Ha1|status_done Hnone1]. }
  unfold bind at 1, call. rewrite Ha1.
  destruct (CompleteInteraction _ _ _ _)
    as [[[[interactRef responseHash] clientInteract]|e] a] eqn:Hci.
  2: { run. intros Hrun; inversion Hrun; subst. split; [exact Ht1|]. split; [exact Huc1|].
       exists (Ok provider), s1. repeat (split; [reflexivity|]). rewrite Hex, Hid, Hv, Hcl.
       cbn zeta. rewrite Hci. split; [reflexivity|status_done Hnone1]. }
  destruct (lib_url_with_query env _ _) as [redirect|e] eqn:Hurl.
  2: { run. intros Hrun; inversion Hrun; subst. split; [exact Ht1|]. split; [exact Huc1|].
       exists (Ok provider), s1. repeat (split; [reflexivity|]). rewrite Hex, Hid, Hv, Hcl.
       cbn zeta. rewrite Hci. cbn [fst snd]. rewrite Hurl.
       split; [reflexivity|status_done Hnone1]. }
  destruct (lib_template_ParseFiles env _) as [e|] eqn:Htp.
  { run. intros Hrun; inversion Hrun; subst. split; [exact Ht1|]. split; [exact Huc1|].
    exists (Ok provider), s1. repeat (split; [reflexivity|]). rewrite Hex, Hid, Hv, Hcl.
    cbn zeta. rewrite Hci. cbn [fst snd]. rewrite Hurl.
    split; [reflexivity|status_done Hnone1]. }
  destruct (lib_template_Execute env _ _) as [e|];
    run; intros Hrun; inversion Hrun; subst; (split; [exact Ht1|]); (split; [exact Huc1|]);
    exists (Ok provider), s1; repeat (split; [reflexivity|]); rewrite Hex, Hid, Hv, Hcl;
    cbn zeta; rewrite Hci; cbn [fst snd]; rewrite Hurl;
    (split; [reflexivity|]); (split; [status_done Hnone1|]);
    cbn; unfold WriteHeader; rewrite Hnone1; cbn; rewrite Hw1; reflexivity.
Qed.

(** X13.  A callback without [state], or with [state] and without [code], is
    answered 400 with the message [missing state] or [missing code], for
    any fuel, before the store, the provider cache or the interaction
    handler is touched. *)
Theorem callback_missing_parameters fuel o req s :
  status (w s) = None ->
  Get (Query req) "state" = "" \/ Get (Query req) "code" = "" ->
  exists s',
    oidcCallbackHandler env fuel o req s = Some (tt, s') /\
    only_answered s s' /\
    answered_text StatusBadRequest
      (lib_Sprintf env
         (if String.eqb (Get (Query req) "state") "" then "missing state" else "missing code")
         []) s s'.
Proof.
  intros Hnone Hmissing. unfold oidcCallbackHandler.
  destruct (String.eqb (Get (Query req) "state") "") eqn:Hstate.
  - run. eexists. split; [reflexivity|]. split; [repeat split|].
    apply answered_text_after_WriteHeader; [exact Hnone|reflexivity].
  - destruct Hmissing as [Hs|Hc]; [rewrite Hs in Hstate; discriminate|].
    rewrite Hc. cbn [String.eqb].
    run. eexists. split; [reflexivity|]. split; [repeat split|].
    apply answered_text_after_WriteHeader; [exact Hnone|reflexivity].
Qed.

(** X14.  The interaction is completed only for a verified subject: either the
    callback leaves the state behind the interaction handler as it was and
    answers 400, 403, 500 or 502, or the record of the presented state was
    found and decoded, its provider resolved, the code exchanged, the
    [id_token] verified and its [sub] claim read, and the state is the one
    [CompleteInteraction] leaves for the transaction of the record and that
    subject; only then can the answer be 200, and only if
    [CompleteInteraction] has succeeded. *)
Theorem callback_completes_only_verified fuel o req s s' :
  status (w s) = None ->
  oidcCallbackHandler env fuel o req s = Some (tt, s') ->
  (auth s' = auth s /\
   (status (w s') = Some StatusBadRequest \/ status (w s') = Some StatusForbidden \/
    status (w s') = Some StatusInternalServerError \/
    status (w s') = Some StatusBadGateway)) \/
  exists dataBytes data provider s1 oauthToken rawIDToken oidcToken sub,
    store_Get (transientStore s) (Get (Query req) "state") = Ok dataBytes /\
    Unmarshal env dec_oidcTransientData {| Provider := ""; TxnID := "" |} dataBytes = Ok data /\
    getProvider env fuel o (Provider data) s = Some (Ok provider, s1) /\
    Exchange provider (Get (Query req) "code") = Ok oauthToken /\
    id_token oauthToken = Some rawIDToken /\
    VerifyIDToken provider rawIDToken = Ok oidcToken /\
    Claims_Sub oidcToken = Ok sub /\
    auth s' = snd (CompleteInteraction (interactionHandler o) (TxnID data)
                     {| cr_SubjectData := [("sub", sub)] |} (auth s)) /\
    (status (w s') = Some StatusOK ->
     is_ok (fst (CompleteInteraction (interactionHandler o) (TxnID data)
                   {| cr_SubjectData := [("sub", sub)] |} (auth s))) = true).
Proof.
  intros Hnone Hrun.
  destruct (oidcCallbackHandler_cases fuel o req s Hnone Hrun) as (_ & _ & Hcases).
  destruct (String.eqb (Get (Query req) "state") "").
  { left. destruct Hcases as [[Ha _] Hs]. auto. }
  destruct (String.eqb (Get (Query req) "code") "").
  { left. destruct Hcases as [[Ha _] Hs]. auto. }
  destruct (store_Get _ _) as [dataBytes|e] eqn:Hsg.
  2: { left. destruct Hcases as [[Ha _] Hs]. auto. }
  destruct (Unmarshal env _ _ dataBytes) as [data|e] eqn:Hdec.
  2: { left. destruct Hcases as [[Ha _] Hs]. auto 6. }
  destruct Hcases as (pr & s1 & Hget & _ & _ & _ & _ & Hcases).
  destruct pr as [provider|e]; [|left; destruct Hcases; auto].
  destruct (Exchange provider _) as [oauthToken|e] eqn:Hex; [|left; destruct Hcases; auto 6].
  destruct (id_token oauthToken) as [rawIDToken|] eqn:Hid; [|left; destruct Hcases; auto 6].
  destruct (VerifyIDToken provider rawIDToken) as [oidcToken|e] eqn:Hv;
    [|left; destruct Hcases; auto].
  destruct (Claims_Sub oidcToken) as [sub|e] eqn:Hcl; [|left; destruct Hcases; auto 6].
  right. exists dataBytes, data, provider, s1, oauthToken, rawIDToken, oidcToken, sub.
  repeat (split; [first [reflexivity|assumption]|]).
  cbn zeta in Hcases. destruct Hcases as [Hauth Hrest]. split; [exact Hauth|].
  destruct (fst (CompleteInteraction _ _ _ _)) as [[[ref hash] ci]|e]; [reflexivity|].
  intros H200. rewrite Hrest in H200. discriminate.
Qed.

(** X15.  After the subject has been verified: the state behind the interaction
    handler is the one [CompleteInteraction] leaves, whatever is answered.
    The answer is 500 when [CompleteInteraction] fails, 400 when the finish
    address of the client does not parse, 500 when the page template does
    not parse, and otherwise 200 with the page that sends the browser to
    the finish address with [interact_ref] and [hash] added to its query.
    In the second and third case the interaction stays completed. *)
Theorem callback_after_verification fuel o req s dataBytes data provider s1
        oauthToken rawIDToken oidcToken sub :
  status (w s) = None ->
  Get (Query req) "state" <> "" -> Get (Query req) "code" <> "" ->
  store_Get (transientStore s) (Get (Query req) "state") = Ok dataBytes ->
  Unmarshal env dec_oidcTransientData {| Provider := ""; TxnID := "" |} dataBytes = Ok data ->
  getProvider env fuel o (Provider data) s = Some (Ok provider, s1) ->
  Exchange provider (Get (Query req) "code") = Ok oauthToken ->
  id_token oauthToken = Some rawIDToken ->
  VerifyIDToken provider rawIDToken = Ok oidcToken ->
  Claims_Sub oidcToken = Ok sub ->
  exists s',
    oidcCallbackHandler env fuel o req s = Some (tt, s') /\
    let ra := CompleteInteraction (interactionHandler o) (TxnID data)
                {| cr_SubjectData := [("sub", sub)] |} (auth s) in
    auth s' = snd ra /\
    match fst ra with
    | Err _ => status (w s') = Some StatusInternalServerError
    | Ok (interactRef, responseHash, clientInteract) =>
        match lib_url_with_query env (URI (Finish clientInteract))
                [("interact_ref", interactRef); ("hash", responseHash)] with
        | Err _ => status (w s') = Some StatusBadRequest
        | Ok redirect =>
            match lib_template_ParseFiles env (closePopupHTML o) with
            | Some _ => status (w s') = Some StatusInternalServerError
            | None =>
                status (w s') = Some StatusOK /\
                body (w s') = body (w s) ++ [WTemplate (closePopupHTML o) redirect]
            end
        end
    end.
Proof.
  intros Hnone Hstate Hcode Hget Hdec Hprov Hex Hid Hv Hcl.
  destruct (getProvider_frame env _ _ _ _ Hprov) as (Hw1 & Ha1 & _).
  assert (Hnone1 : status (w s1) = None) by (rewrite Hw1; exact Hnone).
  unfold oidcCallbackHandler.
  rewrite (eqb_empty_false Hstate), (eqb_empty_false Hcode).
  unfold bind at 1, transientStore_Get, gets. rewrite Hget, Hdec.
  unfold bind at 1. rewrite Hprov, Hex, Hid, Hv, Hcl.
  unfold bind at 1, call. rewrite Ha1. cbn zeta.
  change interactRefQueryParam with "interact_ref".
  change responseHashQueryParam with "hash".
  destruct (CompleteInteraction _ _ _ _)
    as [[[[interactRef responseHash] clientInteract]|e] a].
  2: { run. eexists. split; [reflexivity|]. split; [reflexivity|status_done Hnone1]. }
  cbn [fst snd].
  destruct (lib_url_with_query env _ _) as [redirect|e].
  2: { run. eexists. split; [reflexivity|]. split; [reflexivity|status_done Hnone1]. }
  destruct (lib_template_ParseFiles env _) as [e|].
  { run. eexists. split; [reflexivity|]. split; [reflexivity|status_done Hnone1]. }
  destruct (lib_template_Execute env _ _) as [e|]; run;
    (eexists; split; [reflexivity|]; split; [reflexivity|]; split; [status_done Hnone1|]);
    cbn; unfold WriteHeader; rewrite Hnone1; cbn; rewrite Hw1; reflexivity.
Qed.

(** ** Between requests *)

Lemma getProvider_at_rest fuel o providerID s r s' :
  at_rest o s ->
  getProvider env fuel o providerID s = Some (r, s') ->
  at_rest o s'.
Proof.
  intros [Hfree Hin] Hrun.
  destruct (getProvider_run env fuel o providerID s Hfree Hrun)
    as (Hfree' & net & stored & _ & Hshape).
  split; [exact Hfree'|]. intros id.
  destruct (cachedOIDCProviders s !! providerID) as [q|].
  { destruct Hshape as (_ & _ & _ & ->). apply Hin. }
  destruct (oidcProvidersConfig o !! providerID) as [cfg|] eqn:Hcfg.
  2: { destruct Hshape as (_ & _ & _ & ->). apply Hin. }
  destruct Hshape as (n & _ & Hr). destruct r as [p|e].
  - destruct Hr as [_ ->]. destruct (decide (id = providerID)) as [->|Hne].
    + intros _. rewrite Hcfg. eauto.
    + rewrite lookup_insert_ne by congruence. apply Hin.
  - destruct Hr as [_ ->]. apply Hin.
Qed.

Lemma at_rest_frame o s s' :
  cachedOIDCProviders s' = cachedOIDCProviders s ->
  cachedOIDCProvLock s' = cachedOIDCProvLock s ->
  at_rest o s -> at_rest o s'.
Proof.
  unfold at_rest, cache_within_config. intros -> ->. exact (fun x => x).
Qed.

(** X16.  What holds between requests: the lock of the provider cache is free and
    every cached provider is a configured one.  It holds in the first
    world of the operations that [New] builds, and every route of
    [GetRESTHandlers] that returns keeps it. *)
Theorem routes_keep_cache_at_rest fuel o :
  (forall config b a net uuid,
     New env authhandler_New config = Some (Ok b) ->
     at_rest (built_operation b)
       (firstWorld (oidc_Provider := oidc_Provider) b a net uuid)) /\
  Forall (fun h => forall req s s',
            status (w s) = None -> at_rest o s ->
            Handle h req s = Some (tt, s') -> at_rest o s')
         (GetRESTHandlers env fuel o).
Proof.
  split.
  { intros config b a net uuid Hnew. unfold New in Hnew.
    destruct (OIDC config); [|discriminate].
    destruct (authhandler_New _); [|discriminate].
    destruct (createStore _); [|discriminate].
    inversion Hnew; subst; clear Hnew. split; [reflexivity|].
    intros id [p Hp]. cbn in Hp. rewrite lookup_empty in Hp. discriminate. }
  unfold GetRESTHandlers, NewHTTPHandler.
  repeat first [apply Forall_nil_2|apply Forall_cons_2]; cbn [Handle]; intros req s s' Hnone Hrest Hrun.
  - destruct (authRequestHandler_frame o req s) as (s2 & Hr & Hf).
    rewrite Hr in Hrun. inversion Hrun; subst.
    destruct Hf as (_ & Hc & Hl & _). exact (@at_rest_frame o _ _ Hc Hl Hrest).
  - revert Hrun. unfold interactHandler.
    destruct (lib_url_with_query env _ _); run; intros Hrun; inversion Hrun; subst;
      exact Hrest.
  - destruct (authContinueHandler_frame o req s) as (s2 & Hr & Hf).
    rewrite Hr in Hrun. inversion Hrun; subst.
    destruct Hf as (_ & Hc & Hl & _). exact (@at_rest_frame o _ _ Hc Hl Hrest).
  - destruct (introspectHandler_frame o req s) as (s2 & Hr & Hf).
    rewrite Hr in Hrun. inversion Hrun; subst.
    destruct Hf as (_ & Hc & Hl & _). exact (@at_rest_frame o _ _ Hc Hl Hrest).
  - revert Hrun. unfold authProvidersHandler. run. intros Hrun; inversion Hrun; subst.
    exact Hrest.
  - destruct (oidcLoginHandler_cases fuel o req s Hnone Hrun)
      as (_ & [[(_ & Hc & Hl & _) _]|(pr & s1 & Hget & Hc & Hl & _)]).
    + exact (@at_rest_frame o _ _ Hc Hl Hrest).
    + apply (@at_rest_frame o _ _ Hc Hl).
      exact (@getProvider_at_rest _ _ _ (logged req s) _ _ Hrest Hget).
  - destruct (oidcCallbackHandler_cases fuel o req s Hnone Hrun) as (_ & _ & Hcases).
    assert (Hframe : only_answered s s' -> at_rest o s').
    { intros (_ & _ & Hc & Hl & _). exact (@at_rest_frame o _ _ Hc Hl Hrest). }
    destruct (String.eqb (Get (Query req) "state") ""); [apply Hframe, Hcases|].
    destruct (String.eqb (Get (Query req) "code") ""); [apply Hframe, Hcases|].
    destruct (store_Get _ _) as [dataBytes|e]; [|apply Hframe, Hcases].
    destruct (Unmarshal env _ _ dataBytes) as [data|e]; [|apply Hframe, Hcases].
    destruct Hcases as (pr & s1 & Hget & Hc & Hl & _).
    apply (@at_rest_frame o _ _ Hc Hl).
    exact (@getProvider_at_rest _ _ _ _ _ _ Hrest Hget).
Qed.

Lemma oidcLoginHandler_returns fuel o req s :
  (0 < timeout o)%N -> S (N.to_nat (timeout o)) <= fuel ->
  cachedOIDCProvLock s = unlocked ->
  exists s', oidcLoginHandler env fuel o req s = Some (tt, s').
Proof.
  intros Hpos Hfuel Hfree. unfold oidcLoginHandler.
  unfold bind at 1. unfold Debugf at 1, Errorf at 1, modify at 1.
  set (s0 := logged req s).
  destruct (String.eqb (Get (Query req) providerQueryParam) ""); [run; eauto|].
  destruct (String.eqb (Get (Query req) txnQueryParam) ""); [run; eauto|].
  unfold bind at 1.
  destruct (getProvider_returns env o (Get (Query req) providerQueryParam) s0
              Hfree Hpos Hfuel) as (pr & s1 & Hget).
  rewrite Hget.
  destruct pr as [provider|e]; [|run; eauto].
  destruct (oidcProvidersConfig o !! _) as [cfg|]; [|run; eauto].
  unfold bind at 1. unfold uuid_New_String at 1.
  destruct (lib_json_Marshal env _) as [dataBytes|e]; [|run; eauto].
  unfold bind at 1. unfold transientStore_Put at 1.
  destruct (store_Put _ _ dataBytes) as [st|e]; run; eauto.
Qed.

Lemma oidcCallbackHandler_returns fuel o req s :
  (0 < timeout o)%N -> S (N.to_nat (timeout o)) <= fuel ->
  cachedOIDCProvLock s = unlocked ->
  exists s', oidcCallbackHandler env fuel o req s = Some (tt, s').
Proof.
  intros Hpos Hfuel Hfree. unfold oidcCallbackHandler.
  destruct (String.eqb (Get (Query req) "state") ""); [run; eauto|].
  destruct (String.eqb (Get (Query req) "code") ""); [run; eauto|].
  unfold bind at 1, transientStore_Get, gets.
  destruct (store_Get _ _) as [dataBytes|e]; [|run; eauto].
  destruct (Unmarshal env _ _ dataBytes) as [data|e]; [|run; eauto].
  unfold bind at 1.
  destruct (getProvider_returns env o (Provider data) s Hfree Hpos Hfuel)
    as (pr & s1 & Hget).
  rewrite Hget.
  destruct pr as [provider|e]; [|run; eauto].
  destruct (Exchange provider _) as [oauthToken|e]; [|run; eauto].
  destruct (id_token oauthToken) as [rawIDToken|]; [|run; eauto].
  destruct (VerifyIDToken provider rawIDToken) as [oidcToken|e]; [|run; eauto].
  destruct (Claims_Sub oidcToken) as [sub|e]; [|run; eauto].
  unfold bind at 1, call.
  destruct (CompleteInteraction _ _ _ _)
    as [[[[interactRef responseHash] clientInteract]|e] a]; [|run; eauto].
  cbn zeta.
  destruct (lib_url_with_query env _ _) as [redirect|e]; [|run; eauto].
  destruct (lib_template_ParseFiles env _) as [e|]; [run; eauto|].
  destruct (lib_template_Execute env _ _) as [e|]; run; eauto.
Qed.

(** X17.  No route blocks or runs on without end when the startup timeout is
    positive: with the lock of the provider cache free, each route of
    [GetRESTHandlers] returns for every request, given fuel for one more
    attempt than the timeout counts. *)
Theorem routes_return fuel o :
  (0 < timeout o)%N -> S (N.to_nat (timeout o)) <= fuel ->
  Forall (fun h => forall req s,
            cachedOIDCProvLock s = unlocked ->
            exists s', Handle h req s = Some (tt, s'))
         (GetRESTHandlers env fuel o).
Proof.
  intros Hpos Hfuel. unfold GetRESTHandlers, NewHTTPHandler.
  repeat first [apply Forall_nil_2|apply Forall_cons_2]; cbn [Handle]; intros req s Hfree.
  - destruct (authRequestHandler_frame o req s) as (s2 & Hr & _). eauto.
  - unfold interactHandler. destruct (lib_url_with_query env _ _); run; eauto.
  - destruct (authContinueHandler_frame o req s) as (s2 & Hr & _). eauto.
  - destruct (introspectHandler_frame o req s) as (s2 & Hr & _). eauto.
  - unfold authProvidersHandler. run. eauto.
  - exact (@oidcLoginHandler_returns fuel o req s Hpos Hfuel Hfree).
  - exact (@oidcCallbackHandler_returns fuel o req s Hpos Hfuel Hfree).
Qed.

(** ** Login, then callback *)

(** X18.  A login that was answered 302, then the callback that presents the
    state of that login, when the scanner reads back what the encoder
    wrote and the store gives back what was put: the callback uses the
    provider that the login has left in the cache, without a network call,
    and the only interaction it can complete is the one of the [txnID] of
    the login, for the subject of an [id_token] that this provider has
    verified. *)
Theorem login_then_callback fuel fuel' o req s s1 req2 s3 :
  status (w s) = None -> cachedOIDCProvLock s = unlocked ->
  oidcLoginHandler env fuel o req s = Some (tt, s1) ->
  status (w s1) = Some StatusFound ->
  let record := {| Provider := Get (Query req) providerQueryParam;
                   TxnID := Get (Query req) txnQueryParam |} in
  let state := uuid_New s (uuidCalls s) in
  (forall bytes,
     lib_json_Marshal env (enc_oidcTransientData record) = Ok bytes ->
     lib_json_scan env bytes = Ok (enc_oidcTransientData record)) ->
  (forall bytes,
     store_Put (transientStore s) state bytes = Ok (transientStore s1) ->
     store_Get (transientStore s1) state = Ok bytes) ->
  Get (Query req2) "state" = state -> state <> "" ->
  Get (Query req2) "code" <> "" ->
  oidcCallbackHandler env fuel' o req2 (set_w (fun _ => NewRecorder) s1) = Some (tt, s3) ->
  exists provider,
    cachedOIDCProviders s1 !! Provider record = Some provider /\
    netCalls s3 = netCalls s1 /\
    cachedOIDCProviders s3 = cachedOIDCProviders s1 /\
    (auth s3 = auth s \/
     exists oauthToken rawIDToken oidcToken sub,
       Exchange provider (Get (Query req2) "code") = Ok oauthToken /\
       id_token oauthToken = Some rawIDToken /\
       VerifyIDToken provider rawIDToken = Ok oidcToken /\
       Claims_Sub oidcToken = Ok sub /\
       auth s3 = snd (CompleteInteraction (interactionHandler o) (TxnID record)
                        {| cr_SubjectData := [("sub", sub)] |} (auth s))).
Proof.
  intros Hnone Hfree Hlogin H302 record state Hscan Hstore Hstate Hne Hcode Hcb.
  destruct (oidcLoginHandler_cases fuel o req s Hnone Hlogin)
    as (Hauth & [[_ Hs]|(pr & s0 & Hget & Hc & Hl & _ & _ &
                         [[Hs _]|(_ & Hok & bytes & Hm & Hput)])]).
  { rewrite Hs in H302. discriminate. }
  { destruct Hs as [Hs|Hs]; rewrite Hs in H302; discriminate. }
  destruct pr as [provider|e]; [clear Hok|discriminate].
  assert (Hfree0 : cachedOIDCProvLock (logged req s) = unlocked) by exact Hfree.
  destruct (getProvider_run env fuel o _ _ Hfree0 Hget) as (Hl0 & _).
  pose proof (@getProvider_caches fuel o _ _ _ _ Hfree0 Hget) as Hcached.
  exists provider. split; [rewrite Hc; exact Hcached|].
  set (s2 := set_w (fun _ => NewRecorder) s1) in *.
  assert (Hnone2 : status (w s2) = None) by reflexivity.
  destruct (oidcCallbackHandler_cases fuel' o req2 s2 Hnone2 Hcb) as (_ & _ & Hcases).
  rewrite (eqb_empty_false Hcode) in Hcases.
  assert (Hst : Get (Query req2) "state" <> "") by (rewrite Hstate; exact Hne).
  rewrite (eqb_empty_false Hst) in Hcases.
  assert (Hsg : store_Get (transientStore s2) (Get (Query req2) "state") = Ok bytes)
    by (rewrite Hstate; exact (Hstore bytes Hput)).
  rewrite Hsg in Hcases.
  assert (Hdec : Unmarshal env dec_oidcTransientData {| Provider := ""; TxnID := "" |} bytes
                 = Ok record).
  { unfold Unmarshal. rewrite (Hscan bytes Hm). cbn [rbind].
    apply oidcTransientData_round_trip. }
  rewrite Hdec in Hcases.
  destruct Hcases as (pr2 & s4 & Hget2 & Hc3 & _ & _ & Hn3 & Hcases).
  assert (Hfree2 : cachedOIDCProvLock s2 = unlocked) by (cbn; rewrite Hl; exact Hl0).
  assert (Hhit2 : cachedOIDCProviders s2 !! Provider record = Some provider)
    by (cbn; rewrite Hc; exact Hcached).
  rewrite (@getProvider_hit fuel' o _ _ _ Hfree2 Hhit2) in Hget2.
  inversion Hget2; subst pr2 s4; clear Hget2.
  split; [rewrite Hn3; reflexivity|]. split; [rewrite Hc3; reflexivity|].
  assert (Hauth2 : auth s2 = auth s) by exact Hauth.
  destruct (Exchange provider _) as [oauthToken|e] eqn:Hex;
    [|left; destruct Hcases as [Ha _]; congruence].
  destruct (id_token oauthToken) as [rawIDToken|] eqn:Hid;
    [|left; destruct Hcases as [Ha _]; congruence].
  destruct (VerifyIDToken provider rawIDToken) as [oidcToken|e] eqn:Hv;
    [|left; destruct Hcases as [Ha _]; congruence].
  destruct (Claims_Sub oidcToken) as [sub|e] eqn:Hcl;
    [|left; destruct Hcases as [Ha _]; congruence].
  right. exists oauthToken, rawIDToken, oidcToken, sub.
  repeat (split; [first [reflexivity|assumption]|]).
  cbn zeta in Hcases. destruct Hcases as [Ha3 _]. rewrite Ha3, Hauth2. reflexivity.
Qed.

(** ** The first provider that answers *)

Lemma retry_loop_first_success providerID config (m : N) :
  forall (j : nat) (k : N) (fuel : nat) s idp0 idp,
    m = 0%N \/ N.to_nat k + j <= N.to_nat m ->
    j < fuel ->
    (forall i, i < j -> is_ok (oidc_NewProvider s (netCalls s + i) (URL config)) = false) ->
    oidc_NewProvider s (netCalls s + j) (URL config) = Ok idp ->
    exists s',
      retry_loop (newProviderAttempt config) (notifyRetry env providerID)
        (@timerWait AuthSt oidc_Provider Sto) fuel (retryPolicy m k) (s, idp0)
      = Some (None, (s', Some idp)) /\
      only_retried (URL config) j s s'.
Proof.
  induction j as [|j IH]; intros k fuel s idp0 idp Hm Hfuel Hfail Hok.
  - destruct fuel as [|fuel]; [lia|]. simpl.
    unfold newProviderAttempt at 1. simpl.
    rewrite Nat.add_0_r in Hok. rewrite Hok.
    eexists. split; [reflexivity|].
    unfold only_retried. simpl. repeat split; auto. lia.
  - destruct fuel as [|fuel]; [lia|]. simpl.
    unfold newProviderAttempt at 1. simpl.
    destruct (oidc_NewProvider s (netCalls s) (URL config)) as [p|e] eqn:Hnet.
    { specialize (Hfail 0 ltac:(lia)). rewrite Nat.add_0_r, Hnet in Hfail. discriminate. }
    set (s1 := fst (timerWait Backoff.Second
                      (notifyRetry env providerID e Backoff.Second
                         (set_netCalls (S (netCalls s))
                            (emit (EvNewProvider (URL config)) s), None)))).
    assert (Hnet1 : netCalls s1 = S (netCalls s)) by reflexivity.
    assert (Horc : oidc_NewProvider s1 = oidc_NewProvider s) by reflexivity.
    assert (Hfail1 : forall i, i < j ->
              is_ok (oidc_NewProvider s1 (netCalls s1 + i) (URL config)) = false).
    { intros i Hi. rewrite Horc, Hnet1.
      replace (S (netCalls s) + i) with (netCalls s + S i) by lia. apply Hfail. lia. }
    assert (Hok1 : oidc_NewProvider s1 (netCalls s1 + j) (URL config) = Ok idp).
    { rewrite Horc, Hnet1.
      replace (S (netCalls s) + j) with (netCalls s + S j) by lia. exact Hok. }
    assert (Hone : forall s', only_retried (URL config) j s1 s' ->
                              only_retried (URL config) (S j) s s').
    { intros s' Hfr. eapply only_retried_one_more; [..|exact Hfr]; try reflexivity.
      subst s1. simpl. rewrite <- app_assoc. reflexivity. }
    destruct (0 <? m)%N eqn:Hpos.
    + apply N.ltb_lt in Hpos.
      replace (m <=? k)%N with false by (symmetry; apply N.leb_gt; lia).
      destruct (IH (k + 1)%N fuel s1 None idp) as (s' & Hrun & Hfr);
        [right; lia|lia|exact Hfail1|exact Hok1|].
      exists s'. split; [exact Hrun|exact (Hone s' Hfr)].
    + apply N.ltb_ge in Hpos.
      destruct (IH k fuel s1 None idp) as (s' & Hrun & Hfr);
        [left; lia|lia|exact Hfail1|exact Hok1|].
      exists s'. split; [exact Hrun|exact (Hone s' Hfr)].
Qed.

(** X19.  [initOIDCProvider] stops at the first attempt that succeeds, whether
    the startup timeout is zero or not: when the network refuses [j]
    times and then answers, with [j] within the count of retries or the
    count zero, it returns after [j] retries the provider of that answer,
    under the identifier asked for, with the client identifier, the
    secret and the issuer-check switch of the configuration and the
    callback address and the TLS configuration of the operations. *)
Theorem initOIDCProvider_first_success fuel o providerID config s (j : nat) idp :
  timeout o = 0%N \/ j <= N.to_nat (timeout o) ->
  j < fuel ->
  (forall i, i < j -> is_ok (oidc_NewProvider s (netCalls s + i) (URL config)) = false) ->
  oidc_NewProvider s (netCalls s + j) (URL config) = Ok idp ->
  exists s',
    initOIDCProvider env fuel o providerID config s
    = Some (Ok (lib_oidcProviderImpl_methods env
                  {| name := providerID;
                     clientID := ClientID config;
                     clientSecret := ClientSecret config;
                     callback := callbackURL o;
                     skipIssuerCheck := SkipIssuerCheck config;
                     op := Some idp;
                     httpClient := tlsConfig o |}), s') /\
    only_retried (URL config) j s s'.
Proof.
  intros Hm Hfuel Hfail Hok.
  destruct (@retry_loop_first_success providerID config (timeout o) j 0%N fuel s None idp)
    as (s' & Hrun & Hfr); [destruct Hm; [left; assumption|right; lia]|exact Hfuel
                          |exact Hfail|exact Hok|].
  unfold initOIDCProvider, RetryNotify.
  change (Reset (WithMaxRetries (NewConstantBackOff Second) (timeout o)))
    with (retryPolicy (timeout o) 0).
  rewrite Hrun. exists s'. split; [reflexivity|exact Hfr].
Qed.

(** X20.  When the network refuses every attempt that a positive startup
    timeout [n] allows, [getProvider] gives up for a configured provider
    that is not cached: it returns the error of attempt [n + 1], wrapped
    by [initOIDCProvider] and again by [getProvider], after [n + 1]
    network calls; the cache is as it was, the write lock was never
    taken, and the lock is free. *)
Theorem getProvider_gives_up fuel o providerID config s :
  cachedOIDCProvLock s = unlocked ->
  cachedOIDCProviders s !! providerID = None ->
  oidcProvidersConfig o !! providerID = Some config ->
  (0 < timeout o)%N -> S (N.to_nat (timeout o)) <= fuel ->
  (forall i, i <= N.to_nat (timeout o) ->
     is_ok (oidc_NewProvider s (netCalls s + i) (URL config)) = false) ->
  exists e s',
    oidc_NewProvider s (netCalls s + N.to_nat (timeout o)) (URL config) = Err e /\
    getProvider env fuel o providerID s
    = Some (Err (lib_Sprintf env "failed to init oidc provider: %w"
                   [lib_Sprintf env "failed to init oidc provider [%s] with url [%s]: %w"
                      [providerID; URL config; e]]), s') /\
    netCalls s' = netCalls s + S (N.to_nat (timeout o)) /\
    cachedOIDCProviders s' = cachedOIDCProviders s /\
    cachedOIDCProvLock s' = unlocked /\
    events s' = events s ++ [EvRLock; EvCacheRead providerID; EvRUnlock]
                  ++ retry_trace (URL config) (N.to_nat (timeout o)).
Proof.
  intros Hfree Hmiss Hcfg Hpos Hfuel Hoff.
  unfold getProvider, bind, RLock, RUnlock, Lock, Unlock, modify, gets, ret.
  rewrite Hfree. cbn -[initOIDCProvider]. rewrite Hmiss, Hcfg.
  set (s0 := emit EvRUnlock (emit (EvCacheRead providerID) (emit EvRLock s))).
  destruct (retry_loop_bounded env providerID config Hpos (d := N.to_nat (timeout o))
              (k := 0%N) (fuel := fuel) s0 None)
    as (err & s' & idp & retries & Hrun & Hle & Hfr & _ & Hout); [lia|lia|lia|].
  change (oidc_NewProvider s0) with (oidc_NewProvider s) in Hout.
  change (netCalls s0) with (netCalls s) in Hout.
  unfold initOIDCProvider, RetryNotify.
  change (Reset (WithMaxRetries (NewConstantBackOff Second) (timeout o)))
    with (retryPolicy (timeout o) 0).
  rewrite Hrun.
  destruct err as [e|].
  2: { destruct Hout as (p & _ & Ho). specialize (Hoff retries Hle).
       rewrite Ho in Hoff. discriminate. }
  destruct Hout as [-> Ho]. exists e, s'. split; [exact Ho|].
  split; [reflexivity|].
  destruct Hfr as (_ & _ & _ & Hc & Hl & _ & _ & _ & Hev & Hn).
  split; [rewrite Hn; reflexivity|]. split; [rewrite Hc; reflexivity|].
  split; [rewrite Hl; subst s0; cbn; rewrite Hfree; reflexivity|].
  rewrite Hev. subst s0. cbn. rewrite <- !app_assoc. reflexivity.
Qed.

End Adapter.

(** ** Instances *)

Local Abbreviation W0 := (Doubles.world Doubles.online ∅).

Lemma continue_header_accepted_iff_witness :
  badTokHeader (tokHeader Doubles.paddedRequest) = false /\
  exists s',
    authContinueHandler Doubles.env (Doubles.operation 3) Doubles.paddedRequest W0
    = Some (tt, s') /\
    auth s' = ["tok-1"].
Proof.
  destruct (continue_header_accepted_iff Doubles.env (Doubles.operation 3)
              Doubles.paddedRequest W0 eq_refl) as (Hiff & Hgood & _).
  split.
  - apply Hiff. exists 2, 1, "tok-1".
    split; [reflexivity|]. split; [discriminate|reflexivity].
  - destruct (Hgood 2 1 "tok-1" "CONTINUE-ref-1" {| InteractRef := "ref-1" |}
                eq_refl ltac:(discriminate) eq_refl eq_refl eq_refl)
      as (s' & Hrun & Hauth).
    exists s'. split; [exact Hrun|]. rewrite Hauth. reflexivity.
Defined.

Lemma continue_padded_header_witness :
  tokHeader Doubles.paddedRequest = ["GNAP"; "tok-1"] /\
  exists s',
    authContinueHandler Doubles.env (Doubles.operation 3) Doubles.paddedRequest W0
    = Some (tt, s') /\
    auth s' = ["tok-1"].
Proof.
  destruct (continue_padded_header Doubles.env (Doubles.operation 3) Doubles.paddedRequest
              W0 2 1 (tok := "tok-1") eq_refl ltac:(discriminate) eq_refl)
    as [Hth Hrun].
  split; [exact Hth|].
  destruct (Hrun "CONTINUE-ref-1" {| InteractRef := "ref-1" |} eq_refl eq_refl)
    as (s' & Hs & Hauth).
  exists s'. split; [exact Hs|]. rewrite Hauth. reflexivity.
Defined.

Lemma interact_redirects_to_sign_up_witness :
  exists s',
    interactHandler Doubles.env (Doubles.operation 3) Doubles.loginRequest W0
    = Some (tt, s') /\
    status (w s') = Some StatusFound /\
    Get (header (w s')) "Location" = "https://ui.example/sign-up?txnID=t1".
Proof.
  destruct (interact_redirects_to_sign_up Doubles.env (Doubles.operation 3)
              Doubles.loginRequest W0 eq_refl) as (s' & Hrun & _ & Hstatus & Hloc & _).
  exists s'. split; [exact Hrun|]. split; [exact Hstatus|exact Hloc].
Defined.

Lemma New_errors_witness :
  New Doubles.env Doubles.newAuthHandler (Doubles.config Doubles.downProvider)
  = Some (Err "failed to create transient store: failed to open store [gnap_transient] : store down").
Proof.
  apply (proj2 (proj2 (New_errors Doubles.env Doubles.newAuthHandler
                         (Doubles.config Doubles.downProvider) _))).
  split; [discriminate|]. right. exists Doubles.recorder, "store down".
  split; [reflexivity|]. split; reflexivity.
Defined.

Lemma New_builds_witness :
  exists b,
    New Doubles.env Doubles.newAuthHandler (Doubles.config Doubles.memProvider)
    = Some (Ok b) /\
    callbackURL (built_operation b) = "" /\
    length (authProviders (built_operation b)) = 1.
Proof.
  destruct (New Doubles.env Doubles.newAuthHandler (Doubles.config Doubles.memProvider))
    as [[b|e]|] eqn:Hnew; [|vm_compute in Hnew; discriminate..].
  destruct (New_builds Doubles.env Doubles.newAuthHandler
              (Doubles.config Doubles.memProvider) Hnew)
    as (oidc & Hoidc & _ & _ & _ & _ & _ & Hcb & _ & _ & Hlen & _).
  exists b. split; [reflexivity|]. split; [exact Hcb|].
  rewrite Hlen. inversion Hoidc. reflexivity.
Defined.

Lemma getProvider_cache_hit_witness :
  exists s',
    getProvider Doubles.env 0 (Doubles.operation 0) "p1" Doubles.cachedWorld
    = Some (Ok Doubles.provider1, s') /\
    netCalls s' = 0.
Proof.
  destruct (getProvider_cache_hit Doubles.env 0 (Doubles.operation 0) "p1"
              Doubles.cachedWorld (p := Doubles.provider1) eq_refl eq_refl)
    as (s' & Hrun & _ & Hnet & _).
  exists s'. split; [exact Hrun|exact Hnet].
Defined.

Lemma getProvider_cache_update_witness :
  exists r s',
    getProvider Doubles.env 4 (Doubles.operation 3) "p1" W0 = Some (r, s') /\
    (forall p, r = Ok p -> cachedOIDCProviders s' !! "p1" = Some p) /\
    cachedOIDCProviders s' !! "p2" = None.
Proof.
  destruct (getProvider Doubles.env 4 (Doubles.operation 3) "p1" W0)
    as [[r s']|] eqn:Hrun; [|vm_compute in Hrun; discriminate].
  destruct (getProvider_cache_update Doubles.env 4 (Doubles.operation 3) "p1" W0
              eq_refl Hrun) as (Hnew & _ & Hother).
  exists r, s'. split; [reflexivity|]. split; [exact Hnew|].
  rewrite (Hother "p2" ltac:(discriminate)). reflexivity.
Defined.

Lemma getProvider_memoizes_witness :
  exists s1 s2,
    getProvider Doubles.env 4 (Doubles.operation 3) "p1" W0
    = Some (Ok Doubles.provider1, s1) /\
    getProvider Doubles.env 0 (Doubles.operation 3) "p1" s1
    = Some (Ok Doubles.provider1, s2) /\
    netCalls s2 = netCalls s1.
Proof.
  exists (Doubles.after (getProvider Doubles.env 4 (Doubles.operation 3) "p1") W0).
  assert (Hrun : getProvider Doubles.env 4 (Doubles.operation 3) "p1" W0
                 = Some (Ok Doubles.provider1,
                         Doubles.after (getProvider Doubles.env 4 (Doubles.operation 3) "p1") W0))
    by (vm_compute; reflexivity).
  destruct (getProvider_memoizes Doubles.env 4 0 (Doubles.operation 3) "p1" W0
              eq_refl Hrun) as (s2 & Hrun2 & Hnet & _).
  exists s2. split; [exact Hrun|]. split; [exact Hrun2|exact Hnet].
Defined.

Lemma getProvider_unknown_witness :
  exists s',
    getProvider Doubles.env 0 (Doubles.operation 3) "p2" W0
    = Some (Err "provider not supported: p2", s') /\
    netCalls s' = 0.
Proof.
  destruct (getProvider_unknown Doubles.env 0 (Doubles.operation 3) "p2" W0
              eq_refl eq_refl eq_refl) as (s' & Hrun & _ & Hnet & _).
  exists s'. split; [exact Hrun|exact Hnet].
Defined.

Lemma login_stores_only_with_redirect_witness :
  auth Doubles.afterLogin = [] /\
  status (w Doubles.afterLogin) = Some StatusFound /\
  exists dataBytes,
    store_Put (∅ : gmap string string) "state-" dataBytes
    = Ok (transientStore Doubles.afterLogin).
Proof.
  assert (Hrun : oidcLoginHandler Doubles.env 4 (Doubles.operation 3) Doubles.loginRequest W0
                 = Some (tt, Doubles.afterLogin)) by (vm_compute; reflexivity).
  destruct (login_stores_only_with_redirect Doubles.env 4 (Doubles.operation 3)
              Doubles.loginRequest W0 eq_refl Hrun) as (Hauth & _ & _ & Hput).
  split; [exact Hauth|]. split; [reflexivity|].
  destruct (Hput eq_refl) as (dataBytes & _ & Hp). exists dataBytes. exact Hp.
Defined.

Lemma callback_missing_parameters_witness :
  exists s',
    oidcCallbackHandler Doubles.env 0 (Doubles.operation 3) Doubles.noCodeRequest
      (Doubles.world Doubles.online Doubles.oneLogin) = Some (tt, s') /\
    answered_text StatusBadRequest "missing code"
      (Doubles.world Doubles.online Doubles.oneLogin) s'.
Proof.
  destruct (callback_missing_parameters Doubles.env 0 (Doubles.operation 3)
              Doubles.noCodeRequest (Doubles.world Doubles.online Doubles.oneLogin)
              eq_refl (or_intror eq_refl)) as (s' & Hrun & _ & Hans).
  exists s'. split; [exact Hrun|exact Hans].
Defined.

Lemma callback_completes_only_verified_witness :
  exists s',
    oidcCallbackHandler Doubles.env 4 (Doubles.operation 3) Doubles.callbackRequest
      (Doubles.world Doubles.online Doubles.oneLogin) = Some (tt, s') /\
    auth s' = [].
Proof.
  destruct (oidcCallbackHandler Doubles.env 4 (Doubles.operation 3) Doubles.callbackRequest
              (Doubles.world Doubles.online Doubles.oneLogin))
    as [[[] s']|] eqn:Hrun; [|vm_compute in Hrun; discriminate].
  exists s'. split; [reflexivity|].
  destruct (callback_completes_only_verified Doubles.env 4 (Doubles.operation 3)
              Doubles.callbackRequest (Doubles.world Doubles.online Doubles.oneLogin)
              eq_refl Hrun)
    as [[Hauth _]|(dataBytes & data & provider & s1 & tok & raw & idt & sub &
                   _ & _ & _ & _ & _ & _ & _ & Hauth & _)].
  - exact Hauth.
  - rewrite Hauth. reflexivity.
Defined.

Lemma callback_after_verification_witness :
  exists s',
    oidcCallbackHandler Doubles.env 0 (Doubles.operation 0) Doubles.callbackRequest
      Doubles.cachedWorld = Some (tt, s') /\
    status (w s') = Some StatusOK /\
    body (w s')
    = [WTemplate "closepopup.html"
         "https://client.example/finish?hash=hash-1&interact_ref=ref-1"].
Proof.
  pose proof (getProvider_hit Doubles.env 0 (Doubles.operation 0) "p1"
                Doubles.cachedWorld (p := Doubles.provider1) eq_refl eq_refl) as Hget.
  destruct (callback_after_verification Doubles.env 0 (Doubles.operation 0)
              Doubles.callbackRequest Doubles.cachedWorld
              (dataBytes := "TRANSIENT-p1-t1")
              (data := {| Provider := "p1"; TxnID := "t1" |})
              (provider := Doubles.provider1)
              (oauthToken := {| id_token := Some "raw-id-token" |})
              (rawIDToken := "raw-id-token")
              (oidcToken := {| Claims_Sub := Ok "alice" |}) (sub := "alice")
              eq_refl ltac:(discriminate) ltac:(discriminate) eq_refl eq_refl Hget
              eq_refl eq_refl eq_refl eq_refl)
    as (s' & Hrun & _ & Hstatus & Hbody).
  exists s'. split; [exact Hrun|]. split; [exact Hstatus|exact Hbody].
Defined.

Lemma access_token_round_trip_witness :
  Unmarshal Doubles.env (dec_AuthRequest (lib_jwkUnmarshalJSON Doubles.env)) zeroAuthRequest
    "LABELLED-FORM"
  = Ok Doubles.labelledAuthRequest.
Proof.
  apply (access_token_round_trip Doubles.env Doubles.labelledAuthRequest
           (j := enc_slice enc_TokenRequestPtr (AccessToken Doubles.labelledAuthRequest))
           eq_refl).
  - intros t Hin. apply elem_of_cons in Hin. destruct Hin as [Heq|Hin].
    + inversion Heq; subst t. split; [|discriminate].
      repeat constructor. discriminate.
    + apply list_elem_of_singleton in Hin. discriminate.
  - intros bytes Hbytes. vm_compute in Hbytes. inversion Hbytes; subst bytes. reflexivity.
  - reflexivity.
Defined.

Lemma routes_keep_cache_at_rest_witness :
  exists b,
    New Doubles.env Doubles.newAuthHandler (Doubles.config Doubles.memProvider)
    = Some (Ok b) /\
    at_rest (built_operation b)
      (firstWorld (oidc_Provider := string) b [] Doubles.online Doubles.uuids) /\
    at_rest (Doubles.operation 3) Doubles.afterLogin.
Proof.
  destruct (New Doubles.env Doubles.newAuthHandler (Doubles.config Doubles.memProvider))
    as [[b|e]|] eqn:Hnew; [|vm_compute in Hnew; discriminate..].
  destruct (routes_keep_cache_at_rest Doubles.env Doubles.newAuthHandler 4
              (Doubles.operation 3)) as [Hfirst Hroutes].
  exists b. split; [reflexivity|].
  split; [exact (Hfirst _ b [] Doubles.online Doubles.uuids Hnew)|].
  assert (Hw0 : at_rest (Doubles.operation 3) W0).
  { split; [reflexivity|]. intros id [p Hp].
    change ((∅ : gmap string oidcProvider) !! id = Some p) in Hp.
    rewrite lookup_empty in Hp. discriminate. }
  assert (Hrun : oidcLoginHandler Doubles.env 4 (Doubles.operation 3) Doubles.loginRequest W0
                 = Some (tt, Doubles.afterLogin)) by (vm_compute; reflexivity).
  pose proof (proj1 (Forall_lookup _ _) Hroutes 5 _ eq_refl) as Hlogin.
  exact (Hlogin Doubles.loginRequest W0 Doubles.afterLogin eq_refl Hw0 Hrun).
Defined.

Lemma routes_return_witness :
  Forall (fun h => forall req s,
            cachedOIDCProvLock s = unlocked ->
            exists s', Handle h req s = Some (tt, s'))
         (GetRESTHandlers (Sto := gmap string string) (AuthSt := list string)
            Doubles.env 4 (Doubles.operation 3)).
Proof.
  apply (routes_return Doubles.env (fuel := 4) (Doubles.operation 3)).
  - reflexivity.
  - vm_compute. lia.
Defined.

Lemma login_then_callback_witness :
  exists s3,
    oidcCallbackHandler Doubles.env 0 (Doubles.operation 3) Doubles.callbackRequest
      (Doubles.next Doubles.afterLogin) = Some (tt, s3) /\
    cachedOIDCProviders Doubles.afterLogin !! "p1" = Some Doubles.provider1 /\
    netCalls s3 = netCalls Doubles.afterLogin.
Proof.
  assert (Hlogin : oidcLoginHandler Doubles.env 4 (Doubles.operation 3)
                     Doubles.loginRequest W0 = Some (tt, Doubles.afterLogin))
    by (vm_compute; reflexivity).
  destruct (oidcCallbackHandler Doubles.env 0 (Doubles.operation 3) Doubles.callbackRequest
              (Doubles.next Doubles.afterLogin))
    as [[[] s3]|] eqn:Hcb; [|vm_compute in Hcb; discriminate].
  assert (Hscan : forall bytes,
            lib_json_Marshal Doubles.env
              (enc_oidcTransientData
                 {| Provider := Get (Query Doubles.loginRequest) providerQueryParam;
                    TxnID := Get (Query Doubles.loginRequest) txnQueryParam |}) = Ok bytes ->
            lib_json_scan Doubles.env bytes
            = Ok (enc_oidcTransientData
                    {| Provider := Get (Query Doubles.loginRequest) providerQueryParam;
                       TxnID := Get (Query Doubles.loginRequest) txnQueryParam |})).
  { intros bytes Hb. vm_compute in Hb. inversion Hb; subst bytes. reflexivity. }
  assert (Hstore : forall bytes,
            store_Put (transientStore W0) (uuid_New W0 (uuidCalls W0)) bytes
            = Ok (transientStore Doubles.afterLogin) ->
            store_Get (transientStore Doubles.afterLogin) (uuid_New W0 (uuidCalls W0))
            = Ok bytes).
  { intros bytes Hb.
    apply (f_equal (fun r => match r with Ok m => m | Err _ => ∅ end)) in Hb.
    change (<["state-" := bytes]> (∅ : gmap string string)
            = transientStore Doubles.afterLogin) in Hb.
    change (match transientStore Doubles.afterLogin !! "state-" with
            | Some v => Ok v
            | None => Err ErrDataNotFound
            end = Ok bytes).
    rewrite <- Hb, lookup_insert_eq. reflexivity. }
  destruct (login_then_callback Doubles.env 4 0 (Doubles.operation 3)
              Doubles.loginRequest W0 Doubles.callbackRequest
              eq_refl eq_refl Hlogin eq_refl Hscan Hstore eq_refl
              ltac:(discriminate) ltac:(discriminate) Hcb)
    as (provider & Hcached & Hnet & _).
  exists s3. split; [reflexivity|]. split; [vm_compute; reflexivity|exact Hnet].
Defined.

Lemma initOIDCProvider_first_success_witness :
  exists s',
    initOIDCProvider Doubles.env 3 (Doubles.operation 0) "p1" Doubles.providerConfig
      (Doubles.world Doubles.flaky ∅) = Some (Ok Doubles.provider1, s') /\
    netCalls s' = 3.
Proof.
  destruct (initOIDCProvider_first_success Doubles.env (fuel := 3) (Doubles.operation 0)
              "p1" Doubles.providerConfig (Doubles.world Doubles.flaky ∅)
              (j := 2) (idp := "https://idp.example") (or_introl eq_refl))
    as (s' & Hrun & Hfr).
  - lia.
  - intros i Hi. destruct i as [|[|i]]; [reflexivity|reflexivity|lia].
  - reflexivity.
  - exists s'. split; [exact Hrun|].
    destruct Hfr as (_ & _ & _ & _ & _ & _ & _ & _ & _ & Hnet). exact Hnet.
Defined.

Lemma getProvider_gives_up_witness :
  exists s',
    getProvider Doubles.env 4 (Doubles.operation 3) "p1"
      (Doubles.world Doubles.offline ∅)
    = Some (Err ("failed to init oidc provider: failed to init oidc provider [p1] "
                 +:+ "with url [https://idp.example]: connection refused"), s') /\
    netCalls s' = 4 /\ cachedOIDCProviders s' = ∅.
Proof.
  destruct (getProvider_gives_up Doubles.env (fuel := 4) (Doubles.operation 3) "p1"
              (config := Doubles.providerConfig) (Doubles.world Doubles.offline ∅)
              eq_refl eq_refl eq_refl eq_refl)
    as (e & s' & He & Hrun & Hnet & Hcache & _).
  - vm_compute. lia.
  - intros i _. reflexivity.
  - exists s'. inversion He; subst e.
    split; [exact Hrun|]. split; [exact Hnet|exact Hcache].
Defined.

End Extras.
